(** * Tablet manager and transaction tracker of a Kudu tablet server

    A shallow embedding of

    - [src/kudu/tablet/transactions/transaction_tracker.cc]: the flag
      validators, [TransactionTracker::Add], [Release],
      [GetPendingTransactions] and [WaitForAllToFinish];
    - the tablet manager source ([kudu/tserver/ts_tablet_manager.cc]):
      [CreateNewTablet], [DeleteTablet], [RegisterTablet],
      [MarkDirtyUnlocked] and the three reporting operations.

    Conventions.  Fixed-width integers are [Z] with the wrap-around written
    out.  A [CHECK], [LOG(FATAL)], [InsertOrDie] or [FindOrDie] that fires
    aborts the process: such runs end in [Aborted].  Logging ([LOG], [VLOG],
    [TRACE], [KLOG_EVERY_N_SECS]) has no effect on the modelled state and is
    left out, except where a claim is about it.  Locks are not modelled: each
    operation is one atomic step on the state. *)

From Stdlib Require Import ZArith Lia.
From stdpp Require Import gmap strings list fin_maps functions pretty.

Local Open Scope Z_scope.

(* stdpp's solvers clear hypotheses that are already gone. *)
#[local] Set Warnings "-clear-no-such-hyp".

(** ** Fixed-width integers *)

Module Fixed.

(** Two's complement value of [x] in [w] bits. *)
Definition wrap_signed (w x : Z) : Z :=
  (x + 2 ^ (w - 1)) mod 2 ^ w - 2 ^ (w - 1).

Definition wrap_unsigned (w x : Z) : Z := x mod 2 ^ w.

Definition int32 (x : Z) : Z := wrap_signed 32 x.
Definition int64 (x : Z) : Z := wrap_signed 64 x.
Definition uint64 (x : Z) : Z := wrap_unsigned 64 x.

Definition INT32_MIN : Z := - 2 ^ 31.
Definition INT32_MAX : Z := 2 ^ 31 - 1.
Definition INT64_MIN : Z := - 2 ^ 63.
Definition INT64_MAX : Z := 2 ^ 63 - 1.
Definition UINT64_MAX : Z := 2 ^ 64 - 1.

Definition in_int32 (x : Z) : Prop := INT32_MIN <= x <= INT32_MAX.
Definition in_int64 (x : Z) : Prop := INT64_MIN <= x <= INT64_MAX.
Definition in_uint64 (x : Z) : Prop := 0 <= x <= UINT64_MAX.

(** [x++] on an [int32_t]. *)
Definition int32_incr (x : Z) : Z := int32 (x + 1).

(** [a * b] on [int64_t]. *)
Definition int64_mul (a b : Z) : Z := int64 (a * b).

(** [a * b] and [a / b] on [int]; C++ division truncates towards zero. *)
Definition int_mul (a b : Z) : Z := int32 (a * b).
Definition int_div (a b : Z) : Z := int32 (a ÷ b).

End Fixed.

(** ** Outcomes and statuses *)

(** A call either returns or aborts the process. *)
Inductive outcome (A : Type) : Type :=
| Returned (a : A)
| Aborted.
Arguments Returned {A} a.
Arguments Aborted {A}.

#[global] Instance outcome_ret : MRet outcome := λ A a, Returned a.
#[global] Instance outcome_bind : MBind outcome := λ A B k o,
  match o with
  | Returned a => k a
  | Aborted => Aborted
  end.

#[global] Instance outcome_fmap : FMap outcome := λ A B f o,
  match o with
  | Returned a => Returned (f a)
  | Aborted => Aborted
  end.

(** [CHECK(b)]. *)
Definition CHECK (b : bool) : outcome unit :=
  if b then Returned () else Aborted.

(** Modelled from the spec: the [Status] class ([kudu/util/status.h]) is not
    among the sources.  A status is a code of the spec's error taxonomy and a
    message; [Status::X(msg, msg2)] joins its two parts with a colon. *)
Inductive StatusCode : Set :=
| kOk
| kNotFound
| kCorruption
| kIOError
| kAlreadyPresent
| kRuntimeError
| kServiceUnavailable
| kTimedOut.

#[global] Instance StatusCode_eq_dec : EqDecision StatusCode.
Proof. solve_decision. Defined.

Record Status : Type := mkStatus { code : StatusCode; message : string }.

#[global] Instance Status_eq_dec : EqDecision Status.
Proof. solve_decision. Defined.

Definition Status_OK : Status := mkStatus kOk "".
Definition Status_ok (s : Status) : bool := bool_decide (code s = kOk).

Definition Status2 (c : StatusCode) (msg msg2 : string) : Status :=
  mkStatus c (msg +:+ ": " +:+ msg2).

(** [RETURN_NOT_OK_PREPEND]: a failing status is returned with [msg] put in
    front of its message. *)
Definition CloneAndPrepend (msg : string) (s : Status) : Status :=
  mkStatus (code s) (msg +:+ ": " +:+ message s).

(** ** Memory trackers *)

Module MemTracker.

(** Modelled from the spec: the [MemTracker] class ([kudu/util/mem_tracker.h])
    is not among the sources.  A tracker is a node of the accounting tree
    seen with the chain of its ancestors, nearest first.  Each node has a
    byte limit (negative: no limit, as the flag's [-1]) and a consumption.
    [TryConsume] reserves against the node and every ancestor or changes
    nothing; [Release] gives the bytes back to all of them.  The chain is
    held by value: the operations below concern one tracker at a time. *)
Record Node : Type := mkNode { node_limit : Z; node_consumption : Z }.

Record t : Type := mkTracker { own : Node; ancestors : list Node }.

Definition fits (bytes : Z) (n : Node) : bool :=
  if bool_decide (node_limit n < 0) then true
  else bool_decide (node_consumption n + bytes <= node_limit n).

Definition reserve (bytes : Z) (n : Node) : Node :=
  mkNode (node_limit n) (node_consumption n + bytes).

(** Walk up the chain; [None] when some node refuses, in which case nothing
    is kept of the reservation. *)
Fixpoint reserve_up (bytes : Z) (chain : list Node) : option (list Node) :=
  match chain with
  | [] => Some []
  | n :: up =>
      if fits bytes n then
        match reserve_up bytes up with
        | Some up' => Some (reserve bytes n :: up')
        | None => None
        end
      else None
  end.

Definition TryConsume (bytes : Z) (m : t) : bool * t :=
  match reserve_up bytes (own m :: ancestors m) with
  | Some (n :: up) => (true, mkTracker n up)
  | _ => (false, m)
  end.

Definition CanConsumeNoAncestors (bytes : Z) (m : t) : bool :=
  fits bytes (own m).

Definition Release (bytes : Z) (m : t) : t :=
  mkTracker (reserve (- bytes) (own m)) (reserve (- bytes) <$> ancestors m).

Definition consumption (m : t) : Z := node_consumption (own m).
Definition limit (m : t) : Z := node_limit (own m).

(** [MemTracker::CreateTracker(byte_limit, id, parent)]: a fresh child. *)
Definition CreateTracker (byte_limit : Z) (parent : t) : t :=
  mkTracker (mkNode byte_limit 0) (own parent :: ancestors parent).

End MemTracker.

(** ** The transaction tracker: definitions *)

Module TransactionTracker.

(** *** Flags and their validators *)

(** [ValidateTransactionMemoryLimit]: [-1] is the one admissible negative
    value of [--tablet_transaction_memory_limit_mb]. *)
Definition ValidateTransactionMemoryLimit (value : Z) : bool :=
  if bool_decide (value < -1) then false else true.

(** [ValidateTransactionMemoryAndRpcSize], as a function of the two flags;
    both are [int64_t], and so is the product. *)
Definition ValidateTransactionMemoryAndRpcSize
    (FLAGS_tablet_transaction_memory_limit_mb FLAGS_rpc_max_message_size : Z)
    : bool :=
  let transaction_max_size :=
    Fixed.int64_mul
      (Fixed.int64_mul FLAGS_tablet_transaction_memory_limit_mb 1024) 1024 in
  let rpc_max_size := FLAGS_rpc_max_message_size in
  if bool_decide (transaction_max_size >= 0)
     && bool_decide (transaction_max_size < rpc_max_size)
  then false
  else true.

(** *** Data *)

Inductive TransactionType : Set := WRITE_TXN | ALTER_SCHEMA_TXN.

(** What [Add] and [Release] read through a [TransactionDriver*]: the
    pointer itself (the key of the pending map), the type of the
    transaction, the space the request uses at the moment of the call, and
    the tablet of the replica, if any. *)
Record TransactionDriver : Type := mkDriver {
  driver_ptr : N;
  tx_type : TransactionType;
  request_SpaceUsed : Z;
  tablet_replica : option string
}.

(** The three [uint64] gauges and the two counters of
    [TransactionTracker::Metrics].

    Modelled from the spec: the counter class ([kudu/util/metrics.h]) is not
    among the sources; a counter is a count that only grows, held here
    without a width. *)
Record Metrics : Type := mkMetrics {
  all_transactions_inflight : Z;
  write_transactions_inflight : Z;
  alter_schema_transactions_inflight : Z;
  transaction_memory_pressure_rejections : Z;
  transaction_memory_limit_rejections : Z
}.

(** [Metrics::Metrics]: gauges instantiated at 0, counters start at 0. *)
Definition Metrics_new : Metrics := mkMetrics 0 0 0 0 0.

(** [TransactionTracker::State]. *)
Record State : Type := mkState { memory_footprint : Z }.

Record t : Type := mkTracker {
  pending_txns_ : gmap N State;
  metrics_ : option Metrics;
  mem_tracker_ : option MemTracker.t
}.

(** [TransactionTracker::TransactionTracker()]. *)
Definition new : t := mkTracker ∅ None None.

Definition StartInstrumentation (tr : t) : t :=
  mkTracker (pending_txns_ tr) (Some Metrics_new) (mem_tracker_ tr).

Definition StartMemoryTracking
    (FLAGS_tablet_transaction_memory_limit_mb : Z)
    (parent_mem_tracker : MemTracker.t) (tr : t) : t :=
  if bool_decide (FLAGS_tablet_transaction_memory_limit_mb ≠ -1) then
    mkTracker (pending_txns_ tr) (metrics_ tr)
      (Some (MemTracker.CreateTracker
               (Fixed.int64_mul
                  (Fixed.int64_mul FLAGS_tablet_transaction_memory_limit_mb 1024)
                  1024)
               parent_mem_tracker))
  else tr.

(** *** Gauges and counters *)

Definition gauge_Increment (g : Z) : Z := Fixed.uint64 (g + 1).
Definition gauge_Decrement (g : Z) : Z := Fixed.uint64 (g - 1).

Definition IncrementCounters (driver : TransactionDriver) (m : Metrics) : Metrics :=
  let all := gauge_Increment (all_transactions_inflight m) in
  match tx_type driver with
  | WRITE_TXN =>
      mkMetrics all (gauge_Increment (write_transactions_inflight m))
        (alter_schema_transactions_inflight m)
        (transaction_memory_pressure_rejections m)
        (transaction_memory_limit_rejections m)
  | ALTER_SCHEMA_TXN =>
      mkMetrics all (write_transactions_inflight m)
        (gauge_Increment (alter_schema_transactions_inflight m))
        (transaction_memory_pressure_rejections m)
        (transaction_memory_limit_rejections m)
  end.

(** [DCHECK_GT(gauge, 0)]: checked in debug builds only. *)
Definition DCHECK_GT_0 (debug_build : bool) (g : Z) : outcome unit :=
  CHECK (negb debug_build || bool_decide (g > 0)).

Definition DecrementCounters (debug_build : bool)
    (driver : TransactionDriver) (m : Metrics) : outcome Metrics :=
  _ ← DCHECK_GT_0 debug_build (all_transactions_inflight m);
  let all := gauge_Decrement (all_transactions_inflight m) in
  match tx_type driver with
  | WRITE_TXN =>
      _ ← DCHECK_GT_0 debug_build (write_transactions_inflight m);
      mret (mkMetrics all (gauge_Decrement (write_transactions_inflight m))
              (alter_schema_transactions_inflight m)
              (transaction_memory_pressure_rejections m)
              (transaction_memory_limit_rejections m))
  | ALTER_SCHEMA_TXN =>
      _ ← DCHECK_GT_0 debug_build (alter_schema_transactions_inflight m);
      mret (mkMetrics all (write_transactions_inflight m)
              (gauge_Decrement (alter_schema_transactions_inflight m))
              (transaction_memory_pressure_rejections m)
              (transaction_memory_limit_rejections m))
  end.

(** The two increments of the rejection branch of [Add]. *)
Definition count_rejection (own_limit_binds : bool) (m : Metrics) : Metrics :=
  mkMetrics (all_transactions_inflight m) (write_transactions_inflight m)
    (alter_schema_transactions_inflight m)
    (transaction_memory_pressure_rejections m + 1)
    (if own_limit_binds then transaction_memory_limit_rejections m + 1
     else transaction_memory_limit_rejections m).

(** *** Admission and release *)

Definition rejection_message (driver : TransactionDriver)
    (driver_mem_footprint : Z) (mt : MemTracker.t) : string :=
  "transaction on tablet " +:+ default "(unknown)" (tablet_replica driver)
  +:+ " rejected due to memory pressure: the memory usage of this transaction ("
  +:+ pretty driver_mem_footprint +:+ ") plus the current consumption ("
  +:+ pretty (MemTracker.consumption mt)
  +:+ ") exceeds the transaction memory limit ("
  +:+ pretty (MemTracker.limit mt)
  +:+ ") or the limit of an ancestral memory tracker.".

Definition Add (driver : TransactionDriver) (tr : t) : outcome (Status * t) :=
  let driver_mem_footprint := request_SpaceUsed driver in
  let accept (mem : option MemTracker.t) : outcome (Status * t) :=
    let metrics := IncrementCounters driver <$> metrics_ tr in
    (* InsertOrDie(&pending_txns_, driver, st) *)
    _ ← CHECK (bool_decide (pending_txns_ tr !! driver_ptr driver = None));
    mret (Status_OK,
          mkTracker (<[driver_ptr driver := mkState driver_mem_footprint]>
                       (pending_txns_ tr))
            metrics mem) in
  match mem_tracker_ tr with
  | Some mt =>
      match MemTracker.TryConsume driver_mem_footprint mt with
      | (true, mt') => accept (Some mt')
      | (false, mt') =>
          let metrics :=
            count_rejection
              (negb (MemTracker.CanConsumeNoAncestors driver_mem_footprint mt'))
            <$> metrics_ tr in
          mret (mkStatus kServiceUnavailable
                  (rejection_message driver driver_mem_footprint mt'),
                mkTracker (pending_txns_ tr) metrics (Some mt'))
      end
  | None => accept None
  end.

Definition Release (debug_build : bool) (driver : TransactionDriver) (tr : t)
    : outcome t :=
  metrics ← match metrics_ tr with
             | Some m => Some <$> DecrementCounters debug_build driver m
             | None => mret None
             end;
  (* FindOrDie(pending_txns_, driver) *)
  match pending_txns_ tr !! driver_ptr driver with
  | Some st =>
      let mem := MemTracker.Release (memory_footprint st) <$> mem_tracker_ tr in
      mret (mkTracker (delete (driver_ptr driver) (pending_txns_ tr)) metrics mem)
  | None => Aborted
  end.

(** [GetPendingTransactions]: the drivers of the pending map; the order is
    that of the hash map's iteration. *)
Definition GetPendingTransactions (tr : t) : list N :=
  (map_to_list (pending_txns_ tr)).*1.

(** *** Sequences of calls *)

Inductive Call : Type :=
| CallStartInstrumentation
| CallStartMemoryTracking (FLAGS_tablet_transaction_memory_limit_mb : Z)
    (parent_mem_tracker : MemTracker.t)
| CallAdd (driver : TransactionDriver)
| CallRelease (driver : TransactionDriver).

Definition run_call (debug_build : bool) (c : Call) (tr : t) : outcome t :=
  match c with
  | CallStartInstrumentation => mret (StartInstrumentation tr)
  | CallStartMemoryTracking limit_mb parent =>
      mret (StartMemoryTracking limit_mb parent tr)
  | CallAdd driver => r ← Add driver tr; mret r.2
  | CallRelease driver => Release debug_build driver tr
  end.

Fixpoint run_calls (debug_build : bool) (cs : list Call) (tr : t) : outcome t :=
  match cs with
  | [] => mret tr
  | c :: cs => tr ← run_call debug_build c tr; run_calls debug_build cs tr
  end.

(** The rejection counters of a tracker are in order when the rejections
    charged to the tracker's own limit are among those counted as memory
    pressure. *)
Definition rejections_in_order (tr : t) : Prop :=
  ∀ m, metrics_ tr = Some m →
    0 <= transaction_memory_limit_rejections m
      <= transaction_memory_pressure_rejections m.

(** A gauge that can be incremented without wrapping around. *)
Definition gauge_has_room (g : Z) : Prop := 0 <= g < Fixed.UINT64_MAX.

Definition gauges_have_room (tr : t) : Prop :=
  ∀ m, metrics_ tr = Some m →
    gauge_has_room (all_transactions_inflight m)
    ∧ gauge_has_room (write_transactions_inflight m)
    ∧ gauge_has_room (alter_schema_transactions_inflight m).

(** *** Draining *)

(** Modelled from the spec: [MonoTime] and [MonoDelta]
    ([kudu/util/monotime.h]) are not among the sources.  A reading of the
    monotonic clock and a duration are counts of nanoseconds. *)
Definition MonoDelta_FromSeconds (s : Z) : Z := s * 1000000000.
Definition MonoDelta_FromMicroseconds (us : Z) : Z := us * 1000.

Definition kMaxTxnsToPrint : nat := 50.

(** What a run of [WaitForAllToFinish] does besides returning: it sleeps,
    and it complains in the log (how many transactions are outstanding,
    for how long it has waited, how many of them it dumps). *)
Inductive Event : Type :=
| SleepFor (delta : Z)
| Complaint (outstanding : nat) (waited : Z) (dumped : nat).

(** One round of the loop sees the tracker as the other threads left it
    and reads the clock once. *)
Record Round : Type := mkRound { round_tracker : t; round_now : Z }.

Section Drain.

(** [MonoDelta::ToString], not among the sources. *)
Variable MonoDelta_ToString : Z → string.

Definition TimedOut_waiting (pending : nat) (diff : Z) : Status :=
  mkStatus kTimedOut
    ("Timed out waiting for all transactions to finish. "
     +:+ pretty pending +:+ " transactions pending. Waited for "
     +:+ MonoDelta_ToString diff).

(** The body of [while (1)], once per round; [None] when the rounds given
    are used up and the loop is still running. *)
Fixpoint WaitForAllToFinish_loop (timeout start_time : Z)
    (wait_time_us num_complaints next_log_time : Z) (rounds : list Round)
    : option Status * list Event :=
  match rounds with
  | [] => (None, [])
  | r :: rounds =>
      let txns := GetPendingTransactions (round_tracker r) in
      if bool_decide (txns = []) then (Some Status_OK, [])
      else
        let now := round_now r in
        let diff := now - start_time in
        if bool_decide (diff > timeout) then
          (Some (TimedOut_waiting (length txns) diff), [])
        else
          let complains := bool_decide (now > next_log_time) in
          let num_complaints' :=
            if complains then Fixed.int32 (num_complaints + 1)
            else num_complaints in
          let next_log_time' :=
            if complains then
              now + MonoDelta_FromSeconds (Z.shiftl 1 (Z.min 8 num_complaints'))
            else next_log_time in
          let wait_time_us' :=
            Z.min (Fixed.int_div (Fixed.int_mul wait_time_us 5) 4) 1000000 in
          let '(result, events) :=
            WaitForAllToFinish_loop timeout start_time
              wait_time_us' num_complaints' next_log_time' rounds in
          (result,
           (if complains then
              [Complaint (length txns) diff
                 (Nat.min (length txns) kMaxTxnsToPrint)]
            else [])
           ++ SleepFor (MonoDelta_FromMicroseconds wait_time_us') :: events)
  end.

(** [WaitForAllToFinish(timeout)]; [start_time] is the clock's reading on
    entry. *)
Definition WaitForAllToFinish (timeout start_time : Z) (rounds : list Round)
    : option Status * list Event :=
  WaitForAllToFinish_loop timeout start_time
    250 0 (start_time + MonoDelta_FromSeconds 1) rounds.

End Drain.

(** The sleeps of a run, in order, in nanoseconds. *)
Definition sleeps (events : list Event) : list Z :=
  omap (λ e, match e with SleepFor d => Some d | Complaint _ _ _ => None end)
    events.

(** Following the spec's words: an initial wait of 250 microseconds,
    multiplied by 5/4 each round, capped at one second, so that the wait of
    round [k] (from 0) is [min (250 * (5/4)^k) 1000000] microseconds. *)
Definition spec_wait_us (k : nat) : Z :=
  Z.min (250 * 5 ^ Z.of_nat k / 4 ^ Z.of_nat k) 1000000.

(** What the loop does to [wait_time_us] before each sleep. *)
Definition backoff (wait_time_us : Z) : Z :=
  Z.min (wait_time_us * 5 ÷ 4) 1000000.

(** *** The rest of the tracker *)

(** [~TransactionTracker]: [CHECK_EQ(pending_txns_.size(), 0)]. *)
Definition Destroy (tr : t) : outcome unit :=
  CHECK (bool_decide (size (pending_txns_ tr) = 0%nat)).

(** [GetNumPendingForTests]: the size of the pending map, as an [int]. *)
Definition GetNumPendingForTests (tr : t) : Z :=
  Fixed.int32 (Z.of_nat (size (pending_txns_ tr))).

(** The bytes the pending transactions were admitted with. *)
Definition pending_footprint (tr : t) : Z :=
  map_fold (λ _ st acc, memory_footprint st + acc) 0 (pending_txns_ tr).

(** [WaitForAllToFinish()]: wait without a limit,
    [CHECK_OK(WaitForAllToFinish(MonoDelta::FromNanoseconds(INT64_MAX)))].
    [None] while the loop is still running. *)
Definition WaitForAllToFinish_forever (MonoDelta_ToString : Z → string)
    (start_time : Z) (rounds : list Round)
    : option (outcome unit) * list Event :=
  let '(result, events) :=
    WaitForAllToFinish MonoDelta_ToString Fixed.INT64_MAX start_time rounds in
  ((λ s, CHECK (Status_ok s)) <$> result, events).

(** The complaints of a run, in order: how long the call had waited at
    each. *)
Definition complaints (events : list Event) : list Z :=
  omap (λ e, match e with
             | Complaint _ waited _ => Some waited
             | SleepFor _ => None
             end) events.

(** The consumption of the tracker's own node is what the pending
    transactions were admitted with. *)
Definition accounted (tr : t) : Prop :=
  ∀ mt, mem_tracker_ tr = Some mt →
    MemTracker.consumption mt = pending_footprint tr.

(** The gauge of all in-flight transactions counts the pending map, and
    is the sum of the gauges by type, all in [uint64] arithmetic. *)
Definition gauges_count_pending (tr : t) : Prop :=
  ∀ m, metrics_ tr = Some m →
    all_transactions_inflight m
      = Fixed.uint64 (Z.of_nat (size (pending_txns_ tr)))
    ∧ all_transactions_inflight m
      = Fixed.uint64 (write_transactions_inflight m
                      + alter_schema_transactions_inflight m).

Definition is_StartMemoryTracking (c : Call) : bool :=
  match c with CallStartMemoryTracking _ _ => true | _ => false end.

Definition is_StartInstrumentation (c : Call) : bool :=
  match c with CallStartInstrumentation => true | _ => false end.

(** A list of waits (each the time waited when a complaint was logged)
    is throttled from [num_complaints] complaints on when the next one comes
    more than [2 ^ min 8 k] seconds after the [k]-th, and the first of the
    list after [not_before]. *)
Fixpoint throttled (num_complaints not_before : Z) (waits : list Z) : Prop :=
  match waits with
  | [] => True
  | w :: waits =>
      w > not_before
      ∧ throttled (num_complaints + 1)
          (w + MonoDelta_FromSeconds (2 ^ Z.min 8 (num_complaints + 1))) waits
  end.

End TransactionTracker.

(** ** The tablet manager: definitions *)

Module TSTabletManager.

(** *** Messages and collaborators *)

(** Modelled from the spec: [metadata::TabletStatePB] is declared in a
    [.proto] file that is not among the sources; these are the lifecycle
    states of a tablet peer the spec lists. *)
Inductive TabletStatePB : Set :=
| INITIALIZING | RUNNING | FAILED | QUIESCING | SHUTDOWN.

#[global] Instance TabletStatePB_eq_dec : EqDecision TabletStatePB.
Proof. solve_decision. Defined.

(** Modelled from the spec: [QuorumPeerPB::Role], the role of a peer within
    the replication quorum. *)
Inductive Role : Set :=
| FOLLOWER | LEADER | LEARNER | NON_PARTICIPANT | CANDIDATE.

#[global] Instance Role_eq_dec : EqDecision Role.
Proof. solve_decision. Defined.

Inductive TSTabletManagerStatePB : Set :=
| MANAGER_INITIALIZING | MANAGER_RUNNING | MANAGER_QUIESCING | MANAGER_SHUTDOWN.

#[global] Instance TSTabletManagerStatePB_eq_dec : EqDecision TSTabletManagerStatePB.
Proof. solve_decision. Defined.

Record QuorumPeerPB : Type := mkQuorumPeerPB {
  permanent_uuid : string;
  role : Role
}.

Record QuorumPB : Type := mkQuorumPB {
  local : bool;
  peers : list QuorumPeerPB;
  seqno : Z
}.

Definition set_seqno (n : Z) (q : QuorumPB) : QuorumPB :=
  mkQuorumPB (local q) (peers q) n.

Record Schema : Type := mkSchema { column_names : list string }.

Record TabletMasterBlockPB : Type := mkMasterBlock {
  mb_table_id : string;
  mb_tablet_id : string;
  mb_block_a : string;
  mb_block_b : string
}.

Record TabletMetadata : Type := mkMetadata {
  oid : string;
  table_id : string;
  table_name : string;
  schema : Schema;
  schema_version : Z;
  quorum : QuorumPB;
  start_key : string;
  end_key : string
}.

Record Tablet : Type := mkTablet { tablet_metadata : TabletMetadata }.

(** [Tablet::tablet_id()]. *)
Definition Tablet_tablet_id (tb : Tablet) : string := oid (tablet_metadata tb).

(** What the manager reads of a [TabletPeer]: its metadata, its lifecycle
    state, its error (meaningful in [FAILED]), its role, and the tablet,
    which is null until the peer is initialised. *)
Record TabletPeer : Type := mkPeer {
  peer_meta : TabletMetadata;
  peer_state : TabletStatePB;
  peer_error : Status;
  peer_role : Role;
  peer_tablet : option Tablet
}.

(** [TabletPeer::tablet_id()]. *)
Definition TabletPeer_tablet_id (p : TabletPeer) : string := oid (peer_meta p).

Record ReportedTabletPB : Type := mkReportedTablet {
  rt_tablet_id : string;
  rt_state : TabletStatePB;
  rt_error : option Status;
  rt_role : Role;
  rt_schema_version : option Z
}.

Record TabletReportPB : Type := mkReport {
  sequence_number : Z;
  is_incremental : bool;
  updated_tablets : list ReportedTabletPB;
  removed_tablet_ids : list string
}.

Definition add_updated_tablets (x : ReportedTabletPB) (r : TabletReportPB)
    : TabletReportPB :=
  mkReport (sequence_number r) (is_incremental r)
    (updated_tablets r ++ [x]) (removed_tablet_ids r).

Definition add_removed_tablet_ids (id : string) (r : TabletReportPB)
    : TabletReportPB :=
  mkReport (sequence_number r) (is_incremental r)
    (updated_tablets r) (removed_tablet_ids r ++ [id]).

(** *** The manager *)

Record TabletReportState : Type := mkReportState { change_seq : Z }.

(** The fields of [TSTabletManager] the operations below use.  A
    [scoped_refptr<TabletPeer>] is the address of a peer object; [peer_at]
    gives the object at each address, so that the tablet map, the callers
    and the reports see one and the same peer, and [next_peer] is the
    address the next [new TabletPeer] gets. *)
Record t : Type := mkManager {
  server_uuid : string;
  next_report_seq_ : Z;
  tablet_map_ : gmap string N;
  creates_in_progress_ : gset string;
  dirty_tablets_ : gmap string TabletReportState;
  state_ : TSTabletManagerStatePB;
  peer_at : N → TabletPeer;
  next_peer : N
}.

Definition set_next_report_seq (n : Z) (m : t) : t :=
  mkManager (server_uuid m) n (tablet_map_ m) (creates_in_progress_ m)
    (dirty_tablets_ m) (state_ m) (peer_at m) (next_peer m).

Definition set_tablet_map (tm : gmap string N) (m : t) : t :=
  mkManager (server_uuid m) (next_report_seq_ m) tm (creates_in_progress_ m)
    (dirty_tablets_ m) (state_ m) (peer_at m) (next_peer m).

Definition set_creates_in_progress (c : gset string) (m : t) : t :=
  mkManager (server_uuid m) (next_report_seq_ m) (tablet_map_ m) c
    (dirty_tablets_ m) (state_ m) (peer_at m) (next_peer m).

Definition set_dirty_tablets (d : gmap string TabletReportState) (m : t) : t :=
  mkManager (server_uuid m) (next_report_seq_ m) (tablet_map_ m)
    (creates_in_progress_ m) d (state_ m) (peer_at m) (next_peer m).

Definition set_peer (h : N) (p : TabletPeer) (m : t) : t :=
  mkManager (server_uuid m) (next_report_seq_ m) (tablet_map_ m)
    (creates_in_progress_ m) (dirty_tablets_ m) (state_ m)
    (<[h := p]> (peer_at m)) (next_peer m).

(** [new TabletPeer(...)]. *)
Definition alloc_peer (p : TabletPeer) (m : t) : N * t :=
  (next_peer m,
   mkManager (server_uuid m) (next_report_seq_ m) (tablet_map_ m)
     (creates_in_progress_ m) (dirty_tablets_ m) (state_ m)
     (<[next_peer m := p]> (peer_at m)) (N.succ (next_peer m))).

Definition LookupTabletUnlocked (tablet_id : string) (m : t) : option N :=
  tablet_map_ m !! tablet_id.

Definition GetTabletPeer (tablet_id : string) (m : t) : Status * option N :=
  match LookupTabletUnlocked tablet_id m with
  | Some h => (Status_OK, Some h)
  | None => (Status2 kNotFound "Tablet not found" tablet_id, None)
  end.

Definition RegisterTablet (tablet_id : string) (tablet_peer : N) (m : t)
    : outcome t :=
  (* InsertIfNotPresent, else LOG(FATAL) *)
  match tablet_map_ m !! tablet_id with
  | None => mret (set_tablet_map (<[tablet_id := tablet_peer]> (tablet_map_ m)) m)
  | Some _ => Aborted
  end.

Definition MarkDirtyUnlocked (tablet_peer : N) (m : t) : outcome t :=
  let id := TabletPeer_tablet_id (peer_at m tablet_peer) in
  match dirty_tablets_ m !! id with
  | Some state =>
      _ ← CHECK (bool_decide (next_report_seq_ m >= change_seq state));
      mret (set_dirty_tablets
              (<[id := mkReportState (next_report_seq_ m)]> (dirty_tablets_ m)) m)
  | None =>
      mret (set_dirty_tablets
              (<[id := mkReportState (next_report_seq_ m)]> (dirty_tablets_ m)) m)
  end.

Definition MarkTabletDirty (tablet_peer : N) (m : t) : outcome t :=
  MarkDirtyUnlocked tablet_peer m.

(** *** Creation and deletion *)

(** What the collaborators of one [CreateNewTablet] call answer: the two
    block identifiers the filesystem manager generates and the statuses of
    [TabletMetadata::CreateNew], [PersistMasterBlock] and
    [open_tablet_pool_->SubmitFunc]. *)
Record CreateEnv : Type := mkCreateEnv {
  GenerateBlockId_1 : string;
  GenerateBlockId_2 : string;
  CreateNew_status : Status;
  PersistMasterBlock_status : Status;
  SubmitFunc_status : Status
}.

(** Modelled from the spec: [TabletMetadata::CreateNew] is not among the
    sources; the metadata it constructs is that of the master block's
    tablet, with the table name, schema, quorum and key range passed. *)
Definition TabletMetadata_CreateNew (master_block : TabletMasterBlockPB)
    (table_name : string) (schema : Schema) (quorum : QuorumPB)
    (start_key end_key : string) : TabletMetadata :=
  mkMetadata (mb_tablet_id master_block) (mb_table_id master_block)
    table_name schema 0 quorum start_key end_key.

Definition TabletStatePB_Name (s : TabletStatePB) : string :=
  match s with
  | INITIALIZING => "INITIALIZING"
  | RUNNING => "RUNNING"
  | FAILED => "FAILED"
  | QUIESCING => "QUIESCING"
  | SHUTDOWN => "SHUTDOWN"
  end.

(** The checks on a quorum that asks for local consensus. *)
Definition check_local_quorum (quorum : QuorumPB) (m : t) : outcome unit :=
  if local quorum then
    _ ← CHECK (bool_decide (length (peers quorum) = 1%nat));
    match peers quorum with
    | p :: _ =>
        _ ← CHECK (bool_decide (server_uuid m = permanent_uuid p));
        CHECK (bool_decide (role p = LEADER))
    | [] => Aborted
    end
  else mret ().

(** The block of [CreateNewTablet] that runs under the manager lock: either
    the status to return at once, or the manager with the creation
    recorded as in progress. *)
Definition CreateNewTablet_reserve (tablet_id : string) (m : t) : Status + t :=
  match LookupTabletUnlocked tablet_id m with
  | Some _ => inl (Status2 kAlreadyPresent "Tablet already registered" tablet_id)
  | None =>
      (* InsertIfNotPresent(&creates_in_progress_, tablet_id) *)
      if bool_decide (tablet_id ∈ creates_in_progress_ m) then
        inl (Status2 kAlreadyPresent
               "Creation of tablet already in progress" tablet_id)
      else
        inr (set_creates_in_progress
               ({[tablet_id]} ∪ creates_in_progress_ m) m)
  end.

(** [~CreatesInProgressDeleter]: [CHECK(set_->erase(entry_))]. *)
Definition CreatesInProgressDeleter_dtor (entry : string) (m : t) : outcome t :=
  _ ← CHECK (bool_decide (entry ∈ creates_in_progress_ m));
  mret (set_creates_in_progress (creates_in_progress_ m ∖ {[entry]}) m).

Section Peers.

(** [TabletPeer::Shutdown] and the constructor of [TabletPeer] are not
    among the sources.  [Shutdown] returns the state the peer was in and
    leaves the peer in some state; the constructor is given the metadata
    and the permanent uuid of the local quorum peer. *)
Variable TabletPeer_Shutdown : TabletPeer → TabletStatePB * TabletPeer.
Variable TabletPeer_new : TabletMetadata → string → TabletPeer.

(** [CreateNewTablet] from the construction of the deleter on, up to the
    [return]; the deleter's destructor runs after it. *)
Definition CreateNewTablet_build (env : CreateEnv)
    (table_id tablet_id start_key end_key table_name : string)
    (schema : Schema) (quorum : QuorumPB) (m : t)
    : outcome (Status * option N * t) :=
  let master_block :=
    mkMasterBlock table_id tablet_id
      (GenerateBlockId_1 env) (GenerateBlockId_2 env) in
  if negb (Status_ok (CreateNew_status env)) then
    mret (CloneAndPrepend "Couldn't create tablet metadata"
            (CreateNew_status env), None, m)
  else
    let meta :=
      TabletMetadata_CreateNew master_block table_name schema quorum
        start_key end_key in
    if negb (Status_ok (PersistMasterBlock_status env)) then
      mret (CloneAndPrepend "Couldn't persist master block for new tablet"
              (PersistMasterBlock_status env), None, m)
    else
      let '(new_peer, m) :=
        alloc_peer (TabletPeer_new meta (server_uuid m)) m in
      m ← RegisterTablet (oid meta) new_peer m;
      if negb (Status_ok (SubmitFunc_status env)) then
        mret (SubmitFunc_status env, None, m)
      else mret (Status_OK, Some new_peer, m).

Definition CreateNewTablet (env : CreateEnv)
    (table_id tablet_id start_key end_key table_name : string)
    (schema : Schema) (quorum : QuorumPB) (m : t)
    : outcome (Status * option N * t) :=
  _ ← CHECK (bool_decide (state_ m = MANAGER_RUNNING));
  _ ← check_local_quorum quorum m;
  let quorum := set_seqno (-1) quorum in
  match CreateNewTablet_reserve tablet_id m with
  | inl s => mret (s, None, m)
  | inr m =>
      '(s, tablet_peer, m) ←
        CreateNewTablet_build env table_id tablet_id start_key end_key
          table_name schema quorum m;
      m ← CreatesInProgressDeleter_dtor tablet_id m;
      mret (s, tablet_peer, m)
  end.

(** [DeleteTablet]; the [TRACE] at its head is logging.  The tablet is read
    off the peer after [Shutdown] has returned. *)
Definition DeleteTablet (tablet_peer : N) (m : t) : outcome (Status * t) :=
  let '(prev_state, peer) := TabletPeer_Shutdown (peer_at m tablet_peer) in
  let m := set_peer tablet_peer peer m in
  if bool_decide (prev_state = QUIESCING) || bool_decide (prev_state = SHUTDOWN)
  then
    mret (Status2 kServiceUnavailable "Tablet Peer not in RUNNING state"
            (TabletStatePB_Name prev_state), m)
  else
    match peer_tablet (peer_at m tablet_peer) with
    | None => Aborted (* tablet_peer->tablet() is null *)
    | Some tablet =>
        (* CHECK_EQ(1, tablet_map_.erase(...)) *)
        _ ← CHECK (bool_decide
                     (is_Some (tablet_map_ m !! Tablet_tablet_id tablet)));
        mret (Status_OK,
              set_tablet_map
                (delete (Tablet_tablet_id tablet) (tablet_map_ m)) m)
    end.

End Peers.

(** *** Reports *)

Definition CreateReportedTabletPB (tablet_id : string) (tablet_peer : TabletPeer)
    : ReportedTabletPB :=
  mkReportedTablet tablet_id (peer_state tablet_peer)
    (if bool_decide (peer_state tablet_peer = FAILED)
     then Some (peer_error tablet_peer) else None)
    (peer_role tablet_peer)
    ((λ tb, schema_version (tablet_metadata tb)) <$> peer_tablet tablet_peer).

(** The body of the loop of [GenerateIncrementalTabletReport]. *)
Definition report_dirty_entry (m : t) (report : TabletReportPB)
    (dirty_entry : string * TabletReportState) : TabletReportPB :=
  let tablet_id := dirty_entry.1 in
  match tablet_map_ m !! tablet_id with
  | Some tablet_peer =>
      add_updated_tablets
        (CreateReportedTabletPB tablet_id (peer_at m tablet_peer)) report
  | None => add_removed_tablet_ids tablet_id report
  end.

(** What the loop adds to the report for one dirty entry: a record, or a
    removed identifier. *)
Definition updated_of (m : t) (dirty_entry : string * TabletReportState)
    : option ReportedTabletPB :=
  (λ tablet_peer, CreateReportedTabletPB dirty_entry.1 (peer_at m tablet_peer))
    <$> tablet_map_ m !! dirty_entry.1.

Definition removed_of (m : t) (dirty_entry : string * TabletReportState)
    : option string :=
  match tablet_map_ m !! dirty_entry.1 with
  | Some _ => None
  | None => Some dirty_entry.1
  end.

(** The entries of the hash maps are visited in the order of [map_to_list]. *)
Definition GenerateIncrementalTabletReport (m : t) : TabletReportPB * t :=
  let report := mkReport (next_report_seq_ m) true [] [] in
  (foldl (report_dirty_entry m) report (map_to_list (dirty_tablets_ m)),
   set_next_report_seq (Fixed.int32_incr (next_report_seq_ m)) m).

Definition report_entry (m : t) (report : TabletReportPB) (entry : string * N)
    : TabletReportPB :=
  add_updated_tablets (CreateReportedTabletPB entry.1 (peer_at m entry.2)) report.

Definition GenerateFullTabletReport (m : t) : TabletReportPB * t :=
  let report := mkReport (next_report_seq_ m) false [] [] in
  (foldl (report_entry m) report (map_to_list (tablet_map_ m)),
   set_dirty_tablets ∅
     (set_next_report_seq (Fixed.int32_incr (next_report_seq_ m)) m)).

(** One step of the loop of [MarkTabletReportAcknowledged]: the entry the
    iterator is at is erased or passed over. *)
Definition ack_entry (acked_seq : Z) (dirty : gmap string TabletReportState)
    (entry : string * TabletReportState) : gmap string TabletReportState :=
  if bool_decide (change_seq entry.2 <= acked_seq) then delete entry.1 dirty
  else dirty.

Definition MarkTabletReportAcknowledged (report : TabletReportPB) (m : t)
    : outcome t :=
  let acked_seq := sequence_number report in
  _ ← CHECK (bool_decide (acked_seq < next_report_seq_ m));
  mret (set_dirty_tablets
          (foldl (ack_entry acked_seq) (dirty_tablets_ m)
             (map_to_list (dirty_tablets_ m))) m).

(** The tablets a report names, updated or removed. *)
Definition reported_ids (r : TabletReportPB) : list string :=
  (rt_tablet_id <$> updated_tablets r) ++ removed_tablet_ids r.

(** *** Sequences of calls *)

Inductive Call : Type :=
| CallCreateNewTablet (env : CreateEnv)
    (table_id tablet_id start_key end_key table_name : string)
    (schema : Schema) (quorum : QuorumPB)
| CallDeleteTablet (tablet_peer : N)
| CallRegisterTablet (tablet_id : string) (tablet_peer : N)
| CallMarkTabletDirty (tablet_peer : N)
| CallMarkTabletReportAcknowledged (report : TabletReportPB).

Section Calls.

Variable TabletPeer_Shutdown : TabletPeer → TabletStatePB * TabletPeer.
Variable TabletPeer_new : TabletMetadata → string → TabletPeer.

Definition run_call (c : Call) (m : t) : outcome t :=
  match c with
  | CallCreateNewTablet env table_id tablet_id start_key end_key table_name
      schema quorum =>
      r ← CreateNewTablet TabletPeer_new env table_id tablet_id start_key
            end_key table_name schema quorum m;
      mret r.2
  | CallDeleteTablet tablet_peer =>
      r ← DeleteTablet TabletPeer_Shutdown tablet_peer m;
      mret r.2
  | CallRegisterTablet tablet_id tablet_peer =>
      RegisterTablet tablet_id tablet_peer m
  | CallMarkTabletDirty tablet_peer => MarkTabletDirty tablet_peer m
  | CallMarkTabletReportAcknowledged report =>
      MarkTabletReportAcknowledged report m
  end.

Fixpoint run_calls (cs : list Call) (m : t) : outcome t :=
  match cs with
  | [] => mret m
  | c :: cs => m ← run_call c m; run_calls cs m
  end.

(** The tablets marked dirty by the calls [cs], run from [m]. *)
Fixpoint marked_dirty (cs : list Call) (m : t) : gset string :=
  match cs with
  | [] => ∅
  | c :: cs =>
      match c with
      | CallMarkTabletDirty tablet_peer =>
          {[ TabletPeer_tablet_id (peer_at m tablet_peer) ]}
      | _ => ∅
      end
      ∪ match run_call c m with
        | Returned m => marked_dirty cs m
        | Aborted => ∅
        end
  end.

End Calls.

(** *** Start-up and shutdown of the manager *)

Definition set_state (st : TSTabletManagerStatePB) (m : t) : t :=
  mkManager (server_uuid m) (next_report_seq_ m) (tablet_map_ m)
    (creates_in_progress_ m) (dirty_tablets_ m) st (peer_at m) (next_peer m).

(** [TSTabletManager::TSTabletManager]: report sequence 0, state
    initializing, empty maps; [peers] and [next] describe the heap the
    manager starts on. *)
Definition construct (uuid : string) (peers : N → TabletPeer) (next : N) : t :=
  mkManager uuid 0 ∅ ∅ ∅ MANAGER_INITIALIZING peers next.

(** [LookupTablet]: [LookupTabletUnlocked] under the shared lock. *)
Definition LookupTablet (tablet_id : string) (m : t) : option N :=
  LookupTabletUnlocked tablet_id m.

(** [GetTabletPeers]: [AppendValuesFromMap] appends the peers of the map
    to the vector it is given. *)
Definition GetTabletPeers (m : t) (tablet_peers : list N) : list N :=
  tablet_peers ++ (map_to_list (tablet_map_ m)).*2.

(** What the collaborators of [Init] answer: the uuid of the filesystem
    manager, the listing of the master block directory, and, per name,
    [LoadMasterBlock], [TabletMetadata::Load] and
    [open_tablet_pool_->SubmitFunc].  As with the out-parameters of the
    source, the value beside a status counts only when the status is OK. *)
Record InitEnv : Type := mkInitEnv {
  fs_uuid : string;
  ListDir_result : Status * list string;
  LoadMasterBlock_result : string → Status * TabletMasterBlockPB;
  TabletMetadata_Load_result : TabletMasterBlockPB → Status * TabletMetadata;
  ShortDebugString : TabletMasterBlockPB → string;
  Init_SubmitFunc_status : string → Status
}.

(** [OpenTabletMeta]; [None] for the metadata that is not swapped in. *)
Definition OpenTabletMeta (env : InitEnv) (tablet_id : string)
    : Status * option TabletMetadata :=
  let '(s, master_block) := LoadMasterBlock_result env tablet_id in
  if negb (Status_ok s) then (s, None)
  else
    let '(s, meta) := TabletMetadata_Load_result env master_block in
    if negb (Status_ok s) then
      (CloneAndPrepend
         ("Failed to load tablet metadata. Master block: "
          +:+ ShortDebugString env master_block) s, None)
    else (Status_OK, Some meta).

(** The first failed peer met keeps its error as the result. *)
Definition first_failure (m : t) (s : Status) (entry : string * N) : Status :=
  if bool_decide (peer_state (peer_at m entry.2) = FAILED) then
    if Status_ok s then peer_error (peer_at m entry.2) else s
  else s.

(** [WaitForAllBootstrapsToFinish]; the pool has no job left to wait for. *)
Definition WaitForAllBootstrapsToFinish (m : t) : outcome Status :=
  _ ← CHECK (bool_decide (state_ m = MANAGER_RUNNING));
  mret (foldl (first_failure m) Status_OK (map_to_list (tablet_map_ m))).

Section Lifecycle.

Variable TabletPeer_Shutdown : TabletPeer → TabletStatePB * TabletPeer.
Variable TabletPeer_new : TabletMetadata → string → TabletPeer.

(** [Tablet::IsTabletFileName], not among the sources. *)
Variable IsTabletFileName : string → bool.

(** The second loop of [Init]: register each tablet and submit its
    bootstrap. *)
Fixpoint Init_register (env : InitEnv) (tablets : list string) (m : t)
    : outcome (Status * t) :=
  match tablets with
  | [] => mret (Status_OK, m)
  | tablet :: tablets =>
      match OpenTabletMeta env tablet with
      | (s, Some meta) =>
          let '(tablet_peer, m) :=
            alloc_peer (TabletPeer_new meta (fs_uuid env)) m in
          m ← RegisterTablet (oid meta) tablet_peer m;
          if negb (Status_ok (Init_SubmitFunc_status env tablet)) then
            mret (Init_SubmitFunc_status env tablet, m)
          else Init_register env tablets m
      | (s, None) =>
          mret (CloneAndPrepend
                  ("Failed to open tablet metadata for tablet: " +:+ tablet) s,
                m)
      end
  end.

Definition Init (env : InitEnv) (m : t) : outcome (Status * t) :=
  _ ← CHECK (bool_decide (state_ m = MANAGER_INITIALIZING));
  let '(s, children) := ListDir_result env in
  if negb (Status_ok s) then
    mret (CloneAndPrepend "Couldn't list master blocks" s, m)
  else
    let tablets := List.filter IsTabletFileName children in
    '(s, m) ← Init_register env tablets m;
    if negb (Status_ok s) then mret (s, m)
    else mret (Status_OK, set_state MANAGER_RUNNING m).

(** [peer->Shutdown()] on one peer of the snapshot. *)
Definition shutdown_peer (m : t) (tablet_peer : N) : t :=
  set_peer tablet_peer (TabletPeer_Shutdown (peer_at m tablet_peer)).2 m.

(** [TSTabletManager::Shutdown]; the bootstrap pool and the two apply
    executors have nothing running. *)
Definition Shutdown (m : t) : outcome t :=
  match state_ m with
  | MANAGER_QUIESCING => mret m
  | MANAGER_SHUTDOWN => mret m
  | MANAGER_INITIALIZING | MANAGER_RUNNING =>
      let m := set_state MANAGER_QUIESCING m in
      let peers_to_shutdown := GetTabletPeers m [] in
      let m := foldl shutdown_peer m peers_to_shutdown in
      _ ← CHECK (bool_decide (size (tablet_map_ m) = length peers_to_shutdown));
      mret (set_state MANAGER_SHUTDOWN (set_tablet_map ∅ m))
  end.

End Lifecycle.

(** Every dirty entry was marked for a report not yet passed:
    its [change_seq] is at most [next_report_seq_]. *)
Definition dirty_bounded (m : t) : Prop :=
  ∀ id st, dirty_tablets_ m !! id = Some st → change_seq st <= next_report_seq_ m.

(** The report counter can be incremented without wrapping around. *)
Definition seq_has_room (m : t) : Prop :=
  Fixed.INT32_MIN <= next_report_seq_ m < Fixed.INT32_MAX.

End TSTabletManager.

(** ** Concrete states *)

Module Examples.

(** A tracker with metrics and a 1 MiB budget under an unlimited root. *)
Definition root_tracker : MemTracker.t :=
  MemTracker.mkTracker (MemTracker.mkNode (-1) 0) [].

Definition tracker_1MiB : TransactionTracker.t :=
  TransactionTracker.StartInstrumentation
    (TransactionTracker.StartMemoryTracking 1 root_tracker
       TransactionTracker.new).

(** A write of 400 KiB, driven from address [p]. *)
Definition write_400KiB (p : N) : TransactionTracker.TransactionDriver :=
  TransactionTracker.mkDriver p TransactionTracker.WRITE_TXN (400 * 1024)
    (Some "t1").

(** The same driver once its request is gone. *)
Definition write_gone (p : N) : TransactionTracker.TransactionDriver :=
  TransactionTracker.mkDriver p TransactionTracker.WRITE_TXN 0 None.

(** A tracker with one transaction pending. *)
Definition busy_tracker : TransactionTracker.t :=
  TransactionTracker.mkTracker {[ 7%N := TransactionTracker.mkState 10 ]}
    None None.

(** Modelled from the spec: [TabletPeer::Shutdown] returns the state the
    peer was in and leaves the peer in state shutdown. *)
Definition Shutdown_peer (p : TSTabletManager.TabletPeer)
    : TSTabletManager.TabletStatePB * TSTabletManager.TabletPeer :=
  (TSTabletManager.peer_state p,
   TSTabletManager.mkPeer (TSTabletManager.peer_meta p)
     TSTabletManager.SHUTDOWN (TSTabletManager.peer_error p)
     (TSTabletManager.peer_role p) (TSTabletManager.peer_tablet p)).

(** Modelled from the spec: a peer is constructed in state initializing,
    with no tablet yet. *)
Definition new_peer (meta : TSTabletManager.TabletMetadata) (uuid : string)
    : TSTabletManager.TabletPeer :=
  TSTabletManager.mkPeer meta TSTabletManager.INITIALIZING Status_OK
    TSTabletManager.FOLLOWER None.

Definition no_quorum : TSTabletManager.QuorumPB :=
  TSTabletManager.mkQuorumPB false [] 0.

Definition meta_of (tablet_id : string) : TSTabletManager.TabletMetadata :=
  TSTabletManager.mkMetadata tablet_id "table" "orders"
    (TSTabletManager.mkSchema ["key"; "value"]) 0 no_quorum "" "".

(** A peer that is up, with its tablet, and one that is winding down. *)
Definition running_peer (tablet_id : string) : TSTabletManager.TabletPeer :=
  TSTabletManager.mkPeer (meta_of tablet_id) TSTabletManager.RUNNING
    Status_OK TSTabletManager.LEADER
    (Some (TSTabletManager.mkTablet (meta_of tablet_id))).

Definition quiescing_peer (tablet_id : string) : TSTabletManager.TabletPeer :=
  TSTabletManager.mkPeer (meta_of tablet_id) TSTabletManager.QUIESCING
    Status_OK TSTabletManager.LEADER
    (Some (TSTabletManager.mkTablet (meta_of tablet_id))).

(** A running manager with no tablet; the peer objects at the addresses
    [0] and [1] are a running peer of [t1] and a quiescing peer of [t2]. *)
Definition peers_0_1 (h : N) : TSTabletManager.TabletPeer :=
  if bool_decide (h = 1%N) then quiescing_peer "t2" else running_peer "t1".

Definition empty_manager : TSTabletManager.t :=
  TSTabletManager.mkManager "ts-1" 0 ∅ ∅ ∅ TSTabletManager.MANAGER_RUNNING
    peers_0_1 2.

(** The same with both peers registered. *)
Definition manager_t1_t2 : TSTabletManager.t :=
  TSTabletManager.mkManager "ts-1" 0 {[ "t1" := 0%N; "t2" := 1%N ]} ∅ ∅
    TSTabletManager.MANAGER_RUNNING peers_0_1 2.

(** A manager about to issue report 3: [t1] is registered and was marked
    dirty for report 0, [t2] was marked dirty for report 2 and has left the
    tablet map since. *)
Definition manager_dirty : TSTabletManager.t :=
  TSTabletManager.mkManager "ts-1" 3 {[ "t1" := 0%N ]} ∅
    {[ "t1" := TSTabletManager.mkReportState 0;
       "t2" := TSTabletManager.mkReportState 2 ]}
    TSTabletManager.MANAGER_RUNNING peers_0_1 2.

(** A write of 2 MiB. *)
Definition write_2MiB (p : N) : TransactionTracker.TransactionDriver :=
  TransactionTracker.mkDriver p TransactionTracker.WRITE_TXN (2 * 1024 * 1024)
    (Some "t1").

Definition all_ok : TSTabletManager.CreateEnv :=
  TSTabletManager.mkCreateEnv "block-a" "block-b" Status_OK Status_OK Status_OK.

Definition persist_fails : TSTabletManager.CreateEnv :=
  TSTabletManager.mkCreateEnv "block-a" "block-b" Status_OK
    (mkStatus kIOError "disk full") Status_OK.

End Examples.

(** * Properties *)

(** ** Fixed-width arithmetic *)

Section FixedFacts.
Import Fixed.

Lemma int64_id (x : Z) : in_int64 x → int64 x = x.
Proof.
  unfold in_int64, INT64_MIN, INT64_MAX, int64, wrap_signed. intros Hx.
  rewrite Z.mod_small; lia.
Qed.

Lemma int32_id (x : Z) : in_int32 x → int32 x = x.
Proof.
  unfold in_int32, INT32_MIN, INT32_MAX, int32, wrap_signed. intros Hx.
  rewrite Z.mod_small; lia.
Qed.

Lemma uint64_id (x : Z) : in_uint64 x → uint64 x = x.
Proof.
  unfold in_uint64, UINT64_MAX, uint64, wrap_unsigned. intros Hx.
  rewrite Z.mod_small; lia.
Qed.

Lemma int32_incr_below_max (x : Z) :
  in_int32 x → x < INT32_MAX → int32_incr x = x + 1.
Proof.
  unfold int32_incr. intros Hx Hlt. apply int32_id.
  unfold in_int32, INT32_MIN, INT32_MAX in *. lia.
Qed.

(** Megabytes to bytes, when the result is representable. *)
Lemma int64_mul_mb (x : Z) :
  in_int64 (x * 1024 * 1024) →
  int64_mul (int64_mul x 1024) 1024 = x * 1024 * 1024.
Proof.
  intros Hx. unfold int64_mul.
  rewrite (int64_id (x * 1024)).
  - by apply int64_id.
  - unfold in_int64, INT64_MIN, INT64_MAX in *. lia.
Qed.

End FixedFacts.

(** ** The cross-flag validator *)

Section Validator.
Import TransactionTracker.

(** C9. When the limit in bytes is representable as an [int64_t], the
    cross-flag validator rejects the configuration exactly when the
    configured limit is non-negative and its value in bytes is strictly
    below [rpc_max_message_size]; the limit [-1] passes whatever the RPC
    size is. *)
Theorem ValidateTransactionMemoryAndRpcSize_rejects_iff (limit_mb rpc_size : Z) :
  Fixed.in_int64 (limit_mb * 1024 * 1024) →
  (ValidateTransactionMemoryAndRpcSize limit_mb rpc_size = false
     ↔ 0 <= limit_mb ∧ limit_mb * 1024 * 1024 < rpc_size)
  ∧ ValidateTransactionMemoryAndRpcSize (-1) rpc_size = true.
Proof.
  intros Hrange. unfold ValidateTransactionMemoryAndRpcSize. split.
  - rewrite int64_mul_mb by done.
    destruct (bool_decide (limit_mb * 1024 * 1024 >= 0)) eqn:Hnn;
      destruct (bool_decide (limit_mb * 1024 * 1024 < rpc_size)) eqn:Hlt;
      simpl;
      repeat match goal with
        | H : bool_decide _ = true |- _ => apply bool_decide_eq_true_1 in H
        | H : bool_decide _ = false |- _ => apply bool_decide_eq_false_1 in H
        end;
      split; try done; try lia.
  - rewrite int64_mul_mb by (unfold Fixed.in_int64; by vm_compute).
    rewrite bool_decide_eq_false_2 by lia. done.
Qed.

Lemma ValidateTransactionMemoryAndRpcSize_witness :
  Fixed.in_int64 (64 * 1024 * 1024)
  ∧ ((ValidateTransactionMemoryAndRpcSize 64 (50 * 1024 * 1024) = false
        ↔ 0 <= 64 ∧ 64 * 1024 * 1024 < 50 * 1024 * 1024)
     ∧ ValidateTransactionMemoryAndRpcSize (-1) (50 * 1024 * 1024) = true).
Proof.
  assert (H : Fixed.in_int64 (64 * 1024 * 1024)) by (by vm_compute).
  split; [exact H|].
  exact (ValidateTransactionMemoryAndRpcSize_rejects_iff 64 (50 * 1024 * 1024) H).
Defined.

End Validator.

(** ** Memory trackers *)

Section MemTrackerFacts.
Import MemTracker.

Lemma reserve_undo (bytes : Z) (n : Node) : reserve (- bytes) (reserve bytes n) = n.
Proof. destruct n as [l c]. unfold reserve; simpl. f_equal. lia. Qed.

Lemma reserve_up_undo (bytes : Z) (chain chain' : list Node) :
  reserve_up bytes chain = Some chain' →
  reserve (- bytes) <$> chain' = chain.
Proof.
  revert chain'. induction chain as [|n up IH]; intros chain' H; simpl in H.
  - by inversion H.
  - destruct (fits bytes n); [|done].
    destruct (reserve_up bytes up) as [up'|] eqn:Hup; [|done].
    inversion H; subst. rewrite fmap_cons, reserve_undo. f_equal. by apply IH.
Qed.

(** A reservation that went through is given back in full by [Release]. *)
Lemma TryConsume_Release (bytes : Z) (m m' : t) :
  TryConsume bytes m = (true, m') → Release bytes m' = m.
Proof.
  unfold TryConsume. intros H.
  destruct (reserve_up bytes (own m :: ancestors m)) as [[|n up]|] eqn:Hup;
    try done.
  inversion H; subst. apply reserve_up_undo in Hup.
  rewrite fmap_cons in Hup. inversion Hup as [[Hown Hanc]].
  unfold Release; simpl. rewrite Hown, Hanc. by destruct m.
Qed.

(** A refused reservation leaves the tracker as it was. *)
Lemma TryConsume_refused (bytes : Z) (m m' : t) :
  TryConsume bytes m = (false, m') → m' = m.
Proof.
  unfold TryConsume. intros H.
  destruct (reserve_up bytes (own m :: ancestors m)) as [[|n up]|];
    by inversion H.
Qed.

End MemTrackerFacts.

(** ** Admission and release *)

Section Admission.
Import TransactionTracker.

Lemma Add_inv (driver : TransactionDriver) (tr : t) (s : Status) (tr' : t) :
  Add driver tr = Returned (s, tr') →
  (code s = kOk
   ∧ pending_txns_ tr !! driver_ptr driver = None
   ∧ pending_txns_ tr' =
       <[driver_ptr driver := mkState (request_SpaceUsed driver)]> (pending_txns_ tr)
   ∧ metrics_ tr' = IncrementCounters driver <$> metrics_ tr
   ∧ match mem_tracker_ tr with
     | Some mt =>
         ∃ mt', MemTracker.TryConsume (request_SpaceUsed driver) mt = (true, mt')
                ∧ mem_tracker_ tr' = Some mt'
     | None => mem_tracker_ tr' = None
     end)
  ∨ (code s = kServiceUnavailable
     ∧ pending_txns_ tr' = pending_txns_ tr
     ∧ mem_tracker_ tr' = mem_tracker_ tr
     ∧ ∃ mt, mem_tracker_ tr = Some mt
         ∧ (MemTracker.TryConsume (request_SpaceUsed driver) mt).1 = false
         ∧ metrics_ tr' =
             count_rejection
               (negb (MemTracker.CanConsumeNoAncestors (request_SpaceUsed driver) mt))
             <$> metrics_ tr).
Proof.
  unfold Add. intros H.
  destruct (mem_tracker_ tr) as [mt|] eqn:Hmt.
  - destruct (MemTracker.TryConsume (request_SpaceUsed driver) mt)
      as [[] mt'] eqn:Htry.
    + left. destruct (bool_decide (pending_txns_ tr !! driver_ptr driver = None))
        eqn:Hfree; simpl in H; [|done].
      apply bool_decide_eq_true_1 in Hfree. inversion H; subst; simpl.
      repeat split; try done. by exists mt'.
    + right. apply TryConsume_refused in Htry as Hsame. subst mt'.
      inversion H; subst; simpl. repeat split; try done.
      exists mt. by rewrite Htry.
  - left. destruct (bool_decide (pending_txns_ tr !! driver_ptr driver = None))
      eqn:Hfree; simpl in H; [|done].
    apply bool_decide_eq_true_1 in Hfree. inversion H; subst; simpl.
    by repeat split.
Qed.

Lemma IncrementCounters_rejections (driver : TransactionDriver) (m : Metrics) :
  transaction_memory_pressure_rejections (IncrementCounters driver m)
    = transaction_memory_pressure_rejections m
  ∧ transaction_memory_limit_rejections (IncrementCounters driver m)
    = transaction_memory_limit_rejections m.
Proof. unfold IncrementCounters. by destruct (tx_type driver). Qed.

Lemma DecrementCounters_rejections (debug_build : bool)
    (driver : TransactionDriver) (m m' : Metrics) :
  DecrementCounters debug_build driver m = Returned m' →
  transaction_memory_pressure_rejections m'
    = transaction_memory_pressure_rejections m
  ∧ transaction_memory_limit_rejections m'
    = transaction_memory_limit_rejections m.
Proof.
  unfold DecrementCounters. intros H.
  destruct (DCHECK_GT_0 debug_build (all_transactions_inflight m)) as [[]|];
    simpl in H; [|done].
  destruct (tx_type driver).
  - destruct (DCHECK_GT_0 debug_build (write_transactions_inflight m)) as [[]|];
      simpl in H; [|done]. by inversion H.
  - destruct (DCHECK_GT_0 debug_build (alter_schema_transactions_inflight m))
      as [[]|]; simpl in H; [|done]. by inversion H.
Qed.

Lemma Add_rejections_in_order (driver : TransactionDriver) (tr : t)
    (s : Status) (tr' : t) :
  Add driver tr = Returned (s, tr') →
  rejections_in_order tr → rejections_in_order tr'.
Proof.
  intros HAdd Hin m' Hm'.
  apply Add_inv in HAdd as [(_ & _ & _ & Hmet & _)|(_ & _ & _ & mt & _ & _ & Hmet)];
    rewrite Hmet in Hm'; destruct (metrics_ tr) as [m|] eqn:Hm; try done;
    inversion Hm'; subst m'; specialize (Hin m Hm).
  - destruct (IncrementCounters_rejections driver m) as [-> ->]. done.
  - unfold count_rejection; simpl. case_match; lia.
Qed.

Lemma Release_rejections_in_order (debug_build : bool)
    (driver : TransactionDriver) (tr tr' : t) :
  Release debug_build driver tr = Returned tr' →
  rejections_in_order tr → rejections_in_order tr'.
Proof.
  unfold Release. intros H Hin m' Hm'.
  destruct (metrics_ tr) as [m|] eqn:Hm.
  - destruct (DecrementCounters debug_build driver m) as [m1|] eqn:Hdec;
      simpl in H; [|done].
    destruct (pending_txns_ tr !! driver_ptr driver); [|done].
    inversion H; subst tr'; simpl in Hm'. inversion Hm'; subst m'.
    apply DecrementCounters_rejections in Hdec as [-> ->]. by apply Hin.
  - simpl in H. destruct (pending_txns_ tr !! driver_ptr driver); [|done].
    inversion H; subst tr'. done.
Qed.

Lemma run_calls_rejections_in_order (debug_build : bool) (cs : list Call)
    (tr tr' : t) :
  run_calls debug_build cs tr = Returned tr' →
  rejections_in_order tr → rejections_in_order tr'.
Proof.
  revert tr. induction cs as [|c cs IH]; intros tr H Hin; simpl in H.
  - by inversion H; subst.
  - destruct (run_call debug_build c tr) as [tr1|] eqn:Hc; simpl in H; [|done].
    apply (IH tr1 H). destruct c; simpl in Hc.
    + inversion Hc; subst tr1. intros m Hm. inversion Hm; subst m. simpl. lia.
    + inversion Hc; subst tr1. unfold StartMemoryTracking. by case_match.
    + destruct (Add driver tr) as [[s tr2]|] eqn:HAdd; simpl in Hc; [|done].
      inversion Hc; subst tr1. by eapply Add_rejections_in_order.
    + by eapply Release_rejections_in_order.
Qed.

(** C3. When the memory tracker refuses the footprint of a transaction,
    [Add] returns service-unavailable and, on the metrics of the tracker,
    adds one to [transaction_memory_pressure_rejections], and one to
    [transaction_memory_limit_rejections] exactly when the tracker's own
    limit, ancestors apart, cannot take the footprint; an admission that
    succeeds leaves both counters alone.  Hence after any sequence of calls
    on a new tracker the limit rejections are at most the pressure
    rejections. *)
Theorem Add_rejection_counters :
  (∀ driver tr mt,
     mem_tracker_ tr = Some mt →
     (MemTracker.TryConsume (request_SpaceUsed driver) mt).1 = false →
     ∃ s tr',
       Add driver tr = Returned (s, tr')
       ∧ code s = kServiceUnavailable
       ∧ (metrics_ tr = None → metrics_ tr' = None)
       ∧ ∀ m, metrics_ tr = Some m →
           ∃ m', metrics_ tr' = Some m'
             ∧ transaction_memory_pressure_rejections m'
                 = transaction_memory_pressure_rejections m + 1
             ∧ transaction_memory_limit_rejections m'
                 = transaction_memory_limit_rejections m
                   + (if MemTracker.CanConsumeNoAncestors
                           (request_SpaceUsed driver) mt
                      then 0 else 1))
  ∧ (∀ driver tr s tr' m,
       Add driver tr = Returned (s, tr') → code s = kOk →
       metrics_ tr = Some m →
       ∃ m', metrics_ tr' = Some m'
         ∧ transaction_memory_pressure_rejections m'
             = transaction_memory_pressure_rejections m
         ∧ transaction_memory_limit_rejections m'
             = transaction_memory_limit_rejections m)
  ∧ (∀ debug_build cs tr m,
       run_calls debug_build cs new = Returned tr →
       metrics_ tr = Some m →
       transaction_memory_limit_rejections m
         <= transaction_memory_pressure_rejections m).
Proof.
  split; [|split].
  - intros driver tr mt Hmt Hrefused.
    unfold Add. rewrite Hmt.
    destruct (MemTracker.TryConsume (request_SpaceUsed driver) mt)
      as [[] mt'] eqn:Htry; [done|].
    apply TryConsume_refused in Htry. subst mt'.
    eexists _, _. split; [reflexivity|]. simpl. split; [done|]. split.
    + by intros ->.
    + intros m ->. eexists. split; [reflexivity|]. simpl.
      split; [done|]. destruct (MemTracker.CanConsumeNoAncestors _ _); simpl; lia.
  - intros driver tr s tr' m HAdd Hok Hm.
    apply Add_inv in HAdd as [(_ & _ & _ & Hmet & _)|(Hcode & _)];
      [|congruence].
    rewrite Hmet, Hm. eexists. split; [reflexivity|].
    apply IncrementCounters_rejections.
  - intros debug_build cs tr m Hrun Hm.
    apply (run_calls_rejections_in_order _ _ _ _ Hrun); [|done].
    intros m0 Hm0. done.
Qed.

Lemma gauge_Increment_room (g : Z) :
  gauge_has_room g → gauge_Increment g = g + 1.
Proof.
  unfold gauge_has_room, gauge_Increment, Fixed.UINT64_MAX. intros Hg.
  apply uint64_id. unfold Fixed.in_uint64, Fixed.UINT64_MAX. lia.
Qed.

Lemma gauge_Decrement_Increment (g : Z) :
  gauge_has_room g → gauge_Decrement (gauge_Increment g) = g.
Proof.
  intros Hg. rewrite gauge_Increment_room by done.
  unfold gauge_has_room, gauge_Decrement, Fixed.UINT64_MAX in *.
  replace (g + 1 - 1) with g by lia.
  apply uint64_id. unfold Fixed.in_uint64, Fixed.UINT64_MAX. lia.
Qed.

Lemma DCHECK_GT_0_Increment (debug_build : bool) (g : Z) :
  gauge_has_room g → DCHECK_GT_0 debug_build (gauge_Increment g) = Returned ().
Proof.
  intros Hg. rewrite gauge_Increment_room by done.
  unfold DCHECK_GT_0, gauge_has_room in *.
  rewrite bool_decide_eq_true_2 by lia. by rewrite orb_true_r.
Qed.

Lemma DecrementCounters_IncrementCounters (debug_build : bool)
    (driver driver' : TransactionDriver) (m : Metrics) :
  gauge_has_room (all_transactions_inflight m) →
  gauge_has_room (write_transactions_inflight m) →
  gauge_has_room (alter_schema_transactions_inflight m) →
  tx_type driver' = tx_type driver →
  DecrementCounters debug_build driver' (IncrementCounters driver m) = Returned m.
Proof.
  intros Hall Hwrite Halter Htype.
  unfold DecrementCounters, IncrementCounters. rewrite Htype.
  destruct m as [all write alter pressure lim]; simpl in *.
  destruct (tx_type driver); simpl;
    rewrite !DCHECK_GT_0_Increment by done; simpl;
    by rewrite !gauge_Decrement_Increment by done.
Qed.

(** C4. A successful [Add] followed by a [Release] of the same driver (the
    same pointer and transaction type, whatever has become of its request)
    brings the tracker back to the state before the pair: the pending map,
    the in-flight gauges and the consumption of the memory tracker and of
    its ancestors.  What is released is the footprint cached by [Add].
    [Release] has no status to return and, here, does not abort. *)
Theorem Add_then_Release_restores (debug_build : bool)
    (driver driver' : TransactionDriver) (tr tr1 : t) (s : Status) :
  gauges_have_room tr →
  driver_ptr driver' = driver_ptr driver →
  tx_type driver' = tx_type driver →
  Add driver tr = Returned (s, tr1) →
  code s = kOk →
  Release debug_build driver' tr1 = Returned tr
  ∧ pending_txns_ tr1 !! driver_ptr driver'
      = Some (mkState (request_SpaceUsed driver))
  ∧ mem_tracker_ tr
      = MemTracker.Release (request_SpaceUsed driver) <$> mem_tracker_ tr1.
Proof.
  intros Hroom Hptr Htype HAdd Hok.
  apply Add_inv in HAdd as [(_ & Hfree & Hpend & Hmet & Hmem)|(Hcode & _)];
    [|congruence].
  assert (Hcached : pending_txns_ tr1 !! driver_ptr driver'
                    = Some (mkState (request_SpaceUsed driver))).
  { by rewrite Hptr, Hpend, lookup_insert_eq. }
  assert (Hback : MemTracker.Release (request_SpaceUsed driver) <$> mem_tracker_ tr1
                  = mem_tracker_ tr).
  { destruct (mem_tracker_ tr) as [mt|].
    - destruct Hmem as (mt' & Htry & ->). simpl.
      by rewrite (TryConsume_Release _ _ _ Htry).
    - by rewrite Hmem. }
  split; [|by split].
  unfold Release. rewrite Hcached, Hmet. simpl. rewrite Hback.
  rewrite Hptr, Hpend, delete_insert_id by done.
  destruct (metrics_ tr) as [m|] eqn:Hm; simpl.
  - destruct (Hroom m Hm) as (Hall & Hwrite & Halter).
    rewrite DecrementCounters_IncrementCounters by done. simpl.
    destruct tr; simpl in *; by subst.
  - destruct tr; simpl in *; by subst.
Qed.

End Admission.

(** ** Draining *)

Section Draining.
Import TransactionTracker.

Variable MonoDelta_ToString : Z → string.

Lemma backoff_range (w : Z) : 0 <= w <= 1000000 → 0 <= backoff w <= 1000000.
Proof.
  intros Hw. unfold backoff.
  rewrite Z.quot_div_nonneg by lia.
  assert (0 <= w * 5 / 4) by (apply Z.div_pos; lia). lia.
Qed.

(** Within the range of the wait, the [int] arithmetic of the loop does not
    wrap around. *)
Lemma backoff_int (w : Z) :
  0 <= w <= 1000000 →
  Z.min (Fixed.int_div (Fixed.int_mul w 5) 4) 1000000 = backoff w.
Proof.
  intros Hw. unfold backoff, Fixed.int_div, Fixed.int_mul.
  rewrite (int32_id (w * 5))
    by (unfold Fixed.in_int32, Fixed.INT32_MIN, Fixed.INT32_MAX; lia).
  rewrite int32_id; [done|].
  rewrite Z.quot_div_nonneg by lia.
  assert (0 <= w * 5 / 4) by (apply Z.div_pos; lia).
  assert (w * 5 / 4 <= w * 5) by (apply Z.div_le_upper_bound; lia).
  unfold Fixed.in_int32, Fixed.INT32_MIN, Fixed.INT32_MAX. lia.
Qed.

Lemma iter_backoff_range (k : nat) (w : Z) :
  0 <= w <= 1000000 → 0 <= Nat.iter k backoff w <= 1000000.
Proof.
  intros Hw. induction k as [|k IH]; simpl; [done|]. by apply backoff_range.
Qed.

Lemma iter_backoff_capped (k : nat) :
  (38 <= k)%nat → Nat.iter k backoff 250 = 1000000.
Proof.
  intros Hk. replace k with ((k - 38) + 38)%nat by lia.
  rewrite Nat.iter_add.
  replace (Nat.iter 38 backoff 250) with 1000000 by (by vm_compute).
  induction (k - 38)%nat as [|j IH]; simpl; [done|]. by rewrite IH.
Qed.

Lemma sleeps_app (es1 es2 : list Event) : sleeps (es1 ++ es2) = sleeps es1 ++ sleeps es2.
Proof. unfold sleeps. by rewrite omap_app. Qed.

(** One turn of the loop with transactions pending and time left. *)
Lemma WaitForAllToFinish_loop_waits (timeout start_time w nc nl : Z)
    (r : Round) (rounds : list Round) :
  GetPendingTransactions (round_tracker r) ≠ [] →
  round_now r - start_time <= timeout →
  0 <= w <= 1000000 →
  ∃ nc' nl',
    (WaitForAllToFinish_loop MonoDelta_ToString timeout start_time w nc nl
       (r :: rounds)).1
      = (WaitForAllToFinish_loop MonoDelta_ToString timeout start_time
           (backoff w) nc' nl' rounds).1
    ∧ sleeps (WaitForAllToFinish_loop MonoDelta_ToString timeout start_time
                w nc nl (r :: rounds)).2
      = MonoDelta_FromMicroseconds (backoff w)
        :: sleeps (WaitForAllToFinish_loop MonoDelta_ToString timeout
                     start_time (backoff w) nc' nl' rounds).2.
Proof.
  intros Hpending Htime Hw. simpl.
  rewrite bool_decide_eq_false_2 by done.
  rewrite bool_decide_eq_false_2 by lia.
  rewrite backoff_int by done.
  match goal with
  | |- context [WaitForAllToFinish_loop _ _ _ _ ?nc' ?nl' rounds] =>
      exists nc', nl'
  end.
  destruct (WaitForAllToFinish_loop _ _ _ _ _ _ rounds) as [res evs] eqn:Hrest.
  simpl. split; [reflexivity|].
  rewrite sleeps_app. by destruct (bool_decide (round_now r > nl)).
Qed.

Lemma WaitForAllToFinish_loop_sleeps (timeout start_time : Z)
    (rounds : list Round) :
  ∀ (w nc nl : Z) (k : nat) (d : Z),
    0 <= w <= 1000000 →
    sleeps (WaitForAllToFinish_loop MonoDelta_ToString timeout start_time
              w nc nl rounds).2 !! k = Some d →
    d = MonoDelta_FromMicroseconds (Nat.iter (S k) backoff w).
Proof.
  induction rounds as [|r rounds IH]; intros w nc nl k d Hw Hk; [done|].
  destruct (decide (GetPendingTransactions (round_tracker r) = [])) as [Hnone|Hsome].
  { simpl in Hk. by rewrite bool_decide_eq_true_2 in Hk. }
  destruct (decide (round_now r - start_time > timeout)) as [Hlate|Hearly].
  { simpl in Hk. rewrite bool_decide_eq_false_2 in Hk by done.
    by rewrite bool_decide_eq_true_2 in Hk. }
  destruct (WaitForAllToFinish_loop_waits timeout start_time w nc nl r rounds)
    as (nc' & nl' & _ & Hsleeps); [done|lia|done|].
  rewrite Hsleeps in Hk. destruct k as [|k]; simpl in Hk.
  - by inversion Hk.
  - apply IH in Hk; [|by apply backoff_range].
    by rewrite Nat.iter_succ_r.
Qed.

Lemma WaitForAllToFinish_loop_timed_out (timeout start_time : Z)
    (waiting : list Round) (r : Round) (rest : list Round) :
  ∀ (w nc nl : Z),
    0 <= w <= 1000000 →
    Forall (λ r', GetPendingTransactions (round_tracker r') ≠ []
                  ∧ round_now r' - start_time <= timeout) waiting →
    GetPendingTransactions (round_tracker r) ≠ [] →
    round_now r - start_time > timeout →
    (WaitForAllToFinish_loop MonoDelta_ToString timeout start_time w nc nl
       (waiting ++ r :: rest)).1
      = Some (TimedOut_waiting MonoDelta_ToString
                (length (GetPendingTransactions (round_tracker r)))
                (round_now r - start_time))
    ∧ length (sleeps (WaitForAllToFinish_loop MonoDelta_ToString timeout
                        start_time w nc nl (waiting ++ r :: rest)).2)
      = length waiting.
Proof.
  induction waiting as [|r' waiting IH]; intros w nc nl Hw Hwaiting Hsome Hlate.
  - simpl. rewrite bool_decide_eq_false_2 by done.
    by rewrite bool_decide_eq_true_2 by done.
  - apply Forall_cons in Hwaiting as [[Hsome' Hearly'] Hwaiting].
    rewrite <- app_comm_cons.
    destruct (WaitForAllToFinish_loop_waits timeout start_time w nc nl r'
                (waiting ++ r :: rest)) as (nc' & nl' & -> & ->); try done.
    destruct (IH (backoff w) nc' nl') as [-> Hlen]; try done.
    + by apply backoff_range.
    + simpl. by rewrite Hlen.
Qed.

Lemma WaitForAllToFinish_loop_finished (timeout start_time : Z)
    (waiting : list Round) (r : Round) (rest : list Round) :
  ∀ (w nc nl : Z),
    0 <= w <= 1000000 →
    Forall (λ r', GetPendingTransactions (round_tracker r') ≠ []
                  ∧ round_now r' - start_time <= timeout) waiting →
    GetPendingTransactions (round_tracker r) = [] →
    (WaitForAllToFinish_loop MonoDelta_ToString timeout start_time w nc nl
       (waiting ++ r :: rest)).1 = Some Status_OK.
Proof.
  induction waiting as [|r' waiting IH]; intros w nc nl Hw Hwaiting Hnone.
  - simpl. by rewrite bool_decide_eq_true_2 by done.
  - apply Forall_cons in Hwaiting as [[Hsome' Hearly'] Hwaiting].
    rewrite <- app_comm_cons.
    destruct (WaitForAllToFinish_loop_waits timeout start_time w nc nl r'
                (waiting ++ r :: rest)) as (nc' & nl' & -> & _); try done.
    apply IH; try done. by apply backoff_range.
Qed.

End Draining.

Section DrainingClaims.
Import TransactionTracker.

(** C8, as stated, fails: with one transaction pending, the first sleep of
    [WaitForAllToFinish] lasts 312 microseconds, where the schedule of the
    claim starts with a wait of 250. *)
Lemma WaitForAllToFinish_first_sleep_is_312us :
  WaitForAllToFinish pretty 1000000000 0 [mkRound Examples.busy_tracker 0]
    = (None, [SleepFor 312000])
  ∧ MonoDelta_FromMicroseconds (spec_wait_us 0) = 250000
  ∧ sleeps (WaitForAllToFinish pretty 1000000000 0
              [mkRound Examples.busy_tracker 0]).2 !! 0%nat
    ≠ Some (MonoDelta_FromMicroseconds (spec_wait_us 0)).
Proof. by vm_compute. Qed.

(** C8, amended. [WaitForAllToFinish] sleeps once after every round that
    finds transactions pending and time left.  The wait starts from 250
    microseconds and is multiplied by 5/4, in integer arithmetic, and capped
    at one second before each sleep, the first included: the sleep after
    round [k] (from 0) lasts [backoff] applied [k + 1] times to 250
    microseconds, so 312, 390, 487, ... and one second from the 38th on.
    At the first round that finds transactions pending more than [timeout]
    after the start, the call returns timed-out, with the number of pending
    transactions and the time waited in its message; at the first round
    that finds none pending it returns OK. *)
Theorem WaitForAllToFinish_backoff_and_timeout
    (MonoDelta_ToString : Z → string) (timeout start_time : Z) :
  (∀ rounds k d,
     sleeps (WaitForAllToFinish MonoDelta_ToString timeout start_time rounds).2
       !! k = Some d →
     d = MonoDelta_FromMicroseconds (Nat.iter (S k) backoff 250)
     ∧ d <= MonoDelta_FromSeconds 1)
  ∧ Nat.iter 1 backoff 250 = 312
  ∧ (∀ k, (38 <= k)%nat → Nat.iter k backoff 250 = 1000000)
  ∧ (∀ waiting r rest,
       Forall (λ r', GetPendingTransactions (round_tracker r') ≠ []
                     ∧ round_now r' - start_time <= timeout) waiting →
       GetPendingTransactions (round_tracker r) ≠ [] →
       round_now r - start_time > timeout →
       (WaitForAllToFinish MonoDelta_ToString timeout start_time
          (waiting ++ r :: rest)).1
         = Some (mkStatus kTimedOut
                   ("Timed out waiting for all transactions to finish. "
                    +:+ pretty (length (GetPendingTransactions (round_tracker r)))
                    +:+ " transactions pending. Waited for "
                    +:+ MonoDelta_ToString (round_now r - start_time)))
       ∧ length (sleeps (WaitForAllToFinish MonoDelta_ToString timeout
                           start_time (waiting ++ r :: rest)).2)
         = length waiting)
  ∧ (∀ waiting r rest,
       Forall (λ r', GetPendingTransactions (round_tracker r') ≠ []
                     ∧ round_now r' - start_time <= timeout) waiting →
       GetPendingTransactions (round_tracker r) = [] →
       (WaitForAllToFinish MonoDelta_ToString timeout start_time
          (waiting ++ r :: rest)).1 = Some Status_OK).
Proof.
  split; [|split; [|split; [|split]]].
  - intros rounds k d Hk. unfold WaitForAllToFinish in Hk.
    apply WaitForAllToFinish_loop_sleeps in Hk; [|lia]. split; [done|].
    subst d. unfold MonoDelta_FromMicroseconds, MonoDelta_FromSeconds.
    pose proof (iter_backoff_range (S k) 250). lia.
  - by vm_compute.
  - apply iter_backoff_capped.
  - intros waiting r rest Hwaiting Hsome Hlate. unfold WaitForAllToFinish.
    by apply WaitForAllToFinish_loop_timed_out; [lia|..].
  - intros waiting r rest Hwaiting Hnone. unfold WaitForAllToFinish.
    by apply WaitForAllToFinish_loop_finished; [lia|..].
Qed.

End DrainingClaims.

(** ** Reports *)

Section Reports.
Import TSTabletManager.

Lemma foldl_report_dirty_entry (m : t)
    (l : list (string * TabletReportState)) :
  ∀ r : TabletReportPB,
    foldl (report_dirty_entry m) r l
      = mkReport (sequence_number r) (is_incremental r)
          (updated_tablets r ++ omap (updated_of m) l)
          (removed_tablet_ids r ++ omap (removed_of m) l).
Proof.
  induction l as [|e l IH]; intros r; simpl.
  - rewrite !app_nil_r. by destruct r.
  - rewrite IH. unfold report_dirty_entry, updated_of, removed_of.
    destruct (tablet_map_ m !! e.1); simpl; by rewrite <- ?app_assoc.
Qed.

Lemma length_updated_removed (m : t) (l : list (string * TabletReportState)) :
  (length (omap (updated_of m) l) + length (omap (removed_of m) l))%nat
    = length l.
Proof.
  induction l as [|e l IH]; simpl; [done|].
  assert (Hone : (∃ x, updated_of m e = Some x ∧ removed_of m e = None)
                 ∨ (∃ id, updated_of m e = None ∧ removed_of m e = Some id)).
  { unfold updated_of, removed_of. destruct (tablet_map_ m !! e.1); eauto. }
  destruct Hone as [(x & -> & ->)|(id & -> & ->)]; simpl;
    rewrite <- IH, ?Nat.add_succ_r; reflexivity.
Qed.

Lemma incremental_report (m : t) :
  (GenerateIncrementalTabletReport m).1
    = mkReport (next_report_seq_ m) true
        (omap (updated_of m) (map_to_list (dirty_tablets_ m)))
        (omap (removed_of m) (map_to_list (dirty_tablets_ m))).
Proof.
  unfold GenerateIncrementalTabletReport. simpl.
  by rewrite foldl_report_dirty_entry.
Qed.

(** C1. [GenerateIncrementalTabletReport] gives the report the current
    [next_report_seq_] and increments the counter (as an [int32_t]: by one
    below [INT32_MAX]); the report is incremental; its updated tablets are
    the records of the dirty tablets that are in the tablet map, its removed
    identifiers are the dirty tablets that are not, one item per dirty
    entry; and the dirty map, like the rest of the manager, is as it
    was. *)
Theorem GenerateIncrementalTabletReport_spec (m : t) :
  sequence_number (GenerateIncrementalTabletReport m).1 = next_report_seq_ m
  ∧ next_report_seq_ (GenerateIncrementalTabletReport m).2
      = Fixed.int32_incr (next_report_seq_ m)
  ∧ (Fixed.in_int32 (next_report_seq_ m) →
     next_report_seq_ m < Fixed.INT32_MAX →
     next_report_seq_ (GenerateIncrementalTabletReport m).2
       = next_report_seq_ m + 1)
  ∧ is_incremental (GenerateIncrementalTabletReport m).1 = true
  ∧ (∀ x, x ∈ updated_tablets (GenerateIncrementalTabletReport m).1
          ↔ ∃ id st tablet_peer,
              dirty_tablets_ m !! id = Some st
              ∧ tablet_map_ m !! id = Some tablet_peer
              ∧ x = CreateReportedTabletPB id (peer_at m tablet_peer))
  ∧ (∀ id, id ∈ removed_tablet_ids (GenerateIncrementalTabletReport m).1
           ↔ is_Some (dirty_tablets_ m !! id) ∧ tablet_map_ m !! id = None)
  ∧ (length (updated_tablets (GenerateIncrementalTabletReport m).1)
     + length (removed_tablet_ids (GenerateIncrementalTabletReport m).1))%nat
      = size (dirty_tablets_ m)
  ∧ dirty_tablets_ (GenerateIncrementalTabletReport m).2 = dirty_tablets_ m
  ∧ tablet_map_ (GenerateIncrementalTabletReport m).2 = tablet_map_ m
  ∧ creates_in_progress_ (GenerateIncrementalTabletReport m).2
      = creates_in_progress_ m
  ∧ peer_at (GenerateIncrementalTabletReport m).2 = peer_at m.
Proof.
  rewrite incremental_report. simpl.
  split; [done|]. split; [done|].
  split; [by apply int32_incr_below_max|]. split; [done|].
  split; [|split; [|split; [|done]]].
  - intros x. rewrite list_elem_of_omap. split.
    + intros [[id st] [Hin Hx]]. apply elem_of_map_to_list in Hin.
      unfold updated_of in Hx; simpl in Hx.
      destruct (tablet_map_ m !! id) as [h|] eqn:Hh; [|done].
      inversion Hx; subst x. by exists id, st, h.
    + intros (id & st & h & Hd & Hh & ->). exists (id, st).
      split; [by apply elem_of_map_to_list|].
      unfold updated_of; simpl. by rewrite Hh.
  - intros id. rewrite list_elem_of_omap. split.
    + intros [[id' st] [Hin Hx]]. apply elem_of_map_to_list in Hin.
      unfold removed_of in Hx; simpl in Hx.
      destruct (tablet_map_ m !! id') eqn:Hh; [done|].
      inversion Hx; subst id'. by rewrite Hin.
    + intros [[st Hd] Hh]. exists (id, st).
      split; [by apply elem_of_map_to_list|].
      unfold removed_of; simpl. by rewrite Hh.
  - by rewrite length_updated_removed, length_map_to_list.
Qed.

End Reports.

(** ** Acknowledgements *)

Section Acknowledgement.
Import TSTabletManager.

Lemma ack_entry_lookup (acked_seq : Z) (dirty : gmap string TabletReportState)
    (e : string * TabletReportState) (id : string) (st : TabletReportState) :
  ack_entry acked_seq dirty e !! id = Some st
  ↔ dirty !! id = Some st ∧ ¬ (e.1 = id ∧ change_seq e.2 <= acked_seq).
Proof.
  unfold ack_entry. case_bool_decide as Hle.
  - rewrite lookup_delete_Some. split.
    + intros [Hne Hid]. split; [done|]. by intros [? _].
    + intros [Hid Hnot]. split; [|done]. intros Heq. by apply Hnot.
  - split; [|by intros [? _]]. intros Hid. split; [done|]. by intros [_ ?].
Qed.

(** The loop erases the entries it meets with a change sequence at or below
    the acknowledged one, and no other. *)
Lemma foldl_ack_entry_lookup (acked_seq : Z)
    (l : list (string * TabletReportState)) :
  ∀ (dirty : gmap string TabletReportState) id st,
    foldl (ack_entry acked_seq) dirty l !! id = Some st
    ↔ dirty !! id = Some st
      ∧ ¬ Exists (λ e, e.1 = id ∧ change_seq e.2 <= acked_seq) l.
Proof.
  induction l as [|e l IH]; intros dirty id st; simpl.
  - rewrite Exists_nil. tauto.
  - rewrite IH, ack_entry_lookup, Exists_cons. tauto.
Qed.

Lemma ack_loop_lookup (acked_seq : Z) (dirty : gmap string TabletReportState)
    (id : string) (st : TabletReportState) :
  foldl (ack_entry acked_seq) dirty (map_to_list dirty) !! id = Some st
  ↔ dirty !! id = Some st ∧ acked_seq < change_seq st.
Proof.
  rewrite foldl_ack_entry_lookup, Exists_exists. split.
  - intros [Hid Hnone]. split; [done|].
    destruct (decide (acked_seq < change_seq st)) as [|Hle]; [done|].
    exfalso. apply Hnone. exists (id, st).
    split; [by apply elem_of_map_to_list|]. simpl. split; [done|lia].
  - intros [Hid Hlt]. split; [done|].
    intros ([id' st'] & Hin & Hid' & Hle). simpl in *. subst id'.
    apply elem_of_map_to_list in Hin. rewrite Hid in Hin.
    inversion Hin; subst st'. lia.
Qed.

Lemma ack_loop_filter (acked_seq : Z) (dirty : gmap string TabletReportState) :
  foldl (ack_entry acked_seq) dirty (map_to_list dirty)
    = filter (λ e, acked_seq < change_seq e.2) dirty.
Proof.
  apply map_eq. intros id. apply option_eq. intros st.
  by rewrite ack_loop_lookup, map_lookup_filter_Some.
Qed.

(** C2. [MarkTabletReportAcknowledged] requires the acknowledged sequence
    number to be below [next_report_seq_]: otherwise the [CHECK_LT] aborts
    the process.  When it holds, the call returns and the dirty map holds
    exactly the entries it held whose [change_seq] is strictly greater than
    the acknowledged number; the entries at or below it are gone, and
    nothing else of the manager has changed. *)
Theorem MarkTabletReportAcknowledged_spec (report : TabletReportPB) (m : t) :
  (¬ sequence_number report < next_report_seq_ m →
   MarkTabletReportAcknowledged report m = Aborted)
  ∧ (sequence_number report < next_report_seq_ m →
     ∃ m',
       MarkTabletReportAcknowledged report m = Returned m'
       ∧ dirty_tablets_ m'
           = filter (λ e, sequence_number report < change_seq e.2)
               (dirty_tablets_ m)
       ∧ (∀ id st,
            dirty_tablets_ m' !! id = Some st
            ↔ dirty_tablets_ m !! id = Some st
              ∧ sequence_number report < change_seq st)
       ∧ (∀ id st,
            dirty_tablets_ m !! id = Some st →
            change_seq st <= sequence_number report →
            dirty_tablets_ m' !! id = None)
       ∧ next_report_seq_ m' = next_report_seq_ m
       ∧ tablet_map_ m' = tablet_map_ m
       ∧ creates_in_progress_ m' = creates_in_progress_ m
       ∧ state_ m' = state_ m
       ∧ peer_at m' = peer_at m).
Proof.
  unfold MarkTabletReportAcknowledged. split; intros Hseq.
  - by rewrite bool_decide_eq_false_2.
  - rewrite bool_decide_eq_true_2 by done. simpl.
    eexists. split; [reflexivity|]. simpl.
    split; [apply ack_loop_filter|]. split; [apply ack_loop_lookup|].
    split; [|done].
    intros id st Hid Hle.
    destruct (foldl _ _ _ !! id) as [st'|] eqn:Hst'; [|done].
    apply ack_loop_lookup in Hst' as [Hid' Hlt].
    rewrite Hid in Hid'. inversion Hid'; subst. lia.
Qed.

End Acknowledgement.

(** ** Creation *)

Section Creation.
Import TSTabletManager.

Variable TabletPeer_new : TabletMetadata → string → TabletPeer.

Lemma CreateNewTablet_reserve_present (tablet_id : string) (m : t) :
  is_Some (tablet_map_ m !! tablet_id) ∨ tablet_id ∈ creates_in_progress_ m →
  ∃ s, CreateNewTablet_reserve tablet_id m = inl s ∧ code s = kAlreadyPresent.
Proof.
  unfold CreateNewTablet_reserve, LookupTabletUnlocked. intros Hpresent.
  destruct (tablet_map_ m !! tablet_id) as [h|] eqn:Hh; [by eexists|].
  destruct Hpresent as [[h Hh']|Hin]; [done|].
  rewrite bool_decide_eq_true_2 by done. by eexists.
Qed.

Lemma CreateNewTablet_reserve_fresh (tablet_id : string) (m : t) :
  tablet_map_ m !! tablet_id = None →
  tablet_id ∉ creates_in_progress_ m →
  CreateNewTablet_reserve tablet_id m
    = inr (set_creates_in_progress ({[tablet_id]} ∪ creates_in_progress_ m) m).
Proof.
  unfold CreateNewTablet_reserve, LookupTabletUnlocked. intros -> Hnotin.
  by rewrite bool_decide_eq_false_2.
Qed.

(** Whatever the collaborators answer, the body of [CreateNewTablet]
    returns when the tablet is not registered, and it does not touch the
    creations in progress nor the dirty map. *)
Lemma CreateNewTablet_build_returns (env : CreateEnv)
    (table_id tablet_id start_key end_key table_name : string)
    (schema : Schema) (quorum : QuorumPB) (m : t) :
  tablet_map_ m !! tablet_id = None →
  ∃ s tablet_peer m',
    CreateNewTablet_build TabletPeer_new env table_id tablet_id start_key
      end_key table_name schema quorum m = Returned (s, tablet_peer, m')
    ∧ creates_in_progress_ m' = creates_in_progress_ m
    ∧ dirty_tablets_ m' = dirty_tablets_ m.
Proof.
  intros Hfree. unfold CreateNewTablet_build.
  destruct (Status_ok (CreateNew_status env)); simpl; [|by eexists _, _, _].
  destruct (Status_ok (PersistMasterBlock_status env)); simpl;
    [|by eexists _, _, _].
  unfold RegisterTablet; simpl. rewrite Hfree. simpl.
  destruct (Status_ok (SubmitFunc_status env)); simpl; by eexists _, _, _.
Qed.

Lemma CreateNewTablet_build_frame (env : CreateEnv)
    (table_id tablet_id start_key end_key table_name : string)
    (schema : Schema) (quorum : QuorumPB) (m m' : t) (s : Status)
    (tablet_peer : option N) :
  CreateNewTablet_build TabletPeer_new env table_id tablet_id start_key
    end_key table_name schema quorum m = Returned (s, tablet_peer, m') →
  creates_in_progress_ m' = creates_in_progress_ m
  ∧ dirty_tablets_ m' = dirty_tablets_ m.
Proof.
  unfold CreateNewTablet_build. intros H.
  destruct (Status_ok (CreateNew_status env)); simpl in H;
    [|by inversion H; subst].
  destruct (Status_ok (PersistMasterBlock_status env)); simpl in H;
    [|by inversion H; subst].
  unfold RegisterTablet in H; simpl in H.
  destruct (tablet_map_ m !! tablet_id); simpl in H; [done|].
  destruct (Status_ok (SubmitFunc_status env)); simpl in H;
    by inversion H; subst.
Qed.

(** C5. On a running manager, and with a quorum that passes the checks on
    local consensus, [CreateNewTablet] returns already-present and leaves
    the manager as it was whenever the tablet is in the tablet map or its
    creation is in progress.  Otherwise the identifier is inserted into the
    creations in progress; it is still there when the body of the call
    returns, with success or with whatever error the collaborators
    produce, and the guard's destructor then erases it, so that the call
    returns with the set as it found it. *)
Theorem CreateNewTablet_creates_in_progress (env : CreateEnv)
    (table_id tablet_id start_key end_key table_name : string)
    (schema : Schema) (quorum : QuorumPB) (m : t) :
  state_ m = MANAGER_RUNNING →
  check_local_quorum quorum m = Returned () →
  (is_Some (tablet_map_ m !! tablet_id) ∨ tablet_id ∈ creates_in_progress_ m →
   ∃ s,
     CreateNewTablet TabletPeer_new env table_id tablet_id start_key end_key
       table_name schema quorum m = Returned (s, None, m)
     ∧ code s = kAlreadyPresent)
  ∧ (tablet_map_ m !! tablet_id = None →
     tablet_id ∉ creates_in_progress_ m →
     ∃ m1 s tablet_peer m2 m',
       CreateNewTablet_reserve tablet_id m = inr m1
       ∧ creates_in_progress_ m1 = {[tablet_id]} ∪ creates_in_progress_ m
       ∧ CreateNewTablet_build TabletPeer_new env table_id tablet_id start_key
           end_key table_name schema (set_seqno (-1) quorum) m1
         = Returned (s, tablet_peer, m2)
       ∧ tablet_id ∈ creates_in_progress_ m2
       ∧ CreatesInProgressDeleter_dtor tablet_id m2 = Returned m'
       ∧ CreateNewTablet TabletPeer_new env table_id tablet_id start_key
           end_key table_name schema quorum m = Returned (s, tablet_peer, m')
       ∧ (tablet_id ∉ creates_in_progress_ m')
       ∧ creates_in_progress_ m' = creates_in_progress_ m).
Proof.
  intros Hrunning Hquorum. unfold CreateNewTablet.
  rewrite Hrunning, Hquorum. simpl. split.
  - intros Hpresent.
    destruct (CreateNewTablet_reserve_present tablet_id m Hpresent)
      as (s & -> & Hcode).
    by exists s.
  - intros Hfree Hnotin.
    rewrite (CreateNewTablet_reserve_fresh tablet_id m Hfree Hnotin).
    set (m1 := set_creates_in_progress _ m).
    destruct (CreateNewTablet_build_returns env table_id tablet_id start_key
                end_key table_name schema (set_seqno (-1) quorum) m1)
      as (s & tablet_peer & m2 & Hbuild & Hcip & _); [done|].
    assert (Hin : tablet_id ∈ creates_in_progress_ m2).
    { rewrite Hcip. subst m1; simpl. set_solver. }
    exists m1, s, tablet_peer, m2.
    exists (set_creates_in_progress (creates_in_progress_ m2 ∖ {[tablet_id]}) m2).
    rewrite Hbuild. simpl. unfold CreatesInProgressDeleter_dtor.
    rewrite bool_decide_eq_true_2 by done. simpl.
    repeat split; try done.
    + set_solver.
    + rewrite Hcip. subst m1; simpl. set_solver.
Qed.

End Creation.

Lemma CreateNewTablet_creates_in_progress_witness :
  TSTabletManager.state_ Examples.empty_manager = TSTabletManager.MANAGER_RUNNING
  ∧ ∃ s tablet_peer m',
      TSTabletManager.CreateNewTablet Examples.new_peer Examples.persist_fails
        "table" "t3" "" "" "orders" (TSTabletManager.mkSchema ["key"])
        Examples.no_quorum Examples.empty_manager = Returned (s, tablet_peer, m')
      ∧ "t3" ∉ TSTabletManager.creates_in_progress_ m'.
Proof.
  assert (Hrun : TSTabletManager.state_ Examples.empty_manager
                 = TSTabletManager.MANAGER_RUNNING) by reflexivity.
  assert (Hq : TSTabletManager.check_local_quorum Examples.no_quorum
                 Examples.empty_manager = Returned ()) by reflexivity.
  assert (Hfree : TSTabletManager.tablet_map_ Examples.empty_manager !! "t3" = None)
    by reflexivity.
  assert (Hnotin : "t3" ∉ TSTabletManager.creates_in_progress_ Examples.empty_manager)
    by (simpl; set_solver).
  split; [exact Hrun|].
  destruct (CreateNewTablet_creates_in_progress Examples.new_peer
              Examples.persist_fails "table" "t3" "" "" "orders"
              (TSTabletManager.mkSchema ["key"]) Examples.no_quorum
              Examples.empty_manager Hrun Hq) as [_ Hcreate].
  destruct (Hcreate Hfree Hnotin)
    as (m1 & s & tablet_peer & m2 & m' & _ & _ & _ & _ & _ & Hcall & Hgone & _).
  by exists s, tablet_peer, m'.
Defined.

(** ** Deletion *)

Section Deletion.
Import TSTabletManager.

Variable TabletPeer_Shutdown : TabletPeer → TabletStatePB * TabletPeer.

Lemma DeleteTablet_inv (tablet_peer : N) (m m' : t) (s : Status) :
  DeleteTablet TabletPeer_Shutdown tablet_peer m = Returned (s, m') →
  let prev_state := (TabletPeer_Shutdown (peer_at m tablet_peer)).1 in
  let peer := (TabletPeer_Shutdown (peer_at m tablet_peer)).2 in
  ((prev_state = QUIESCING ∨ prev_state = SHUTDOWN)
   ∧ code s = kServiceUnavailable
   ∧ m' = set_peer tablet_peer peer m)
  ∨ (prev_state ≠ QUIESCING ∧ prev_state ≠ SHUTDOWN
     ∧ s = Status_OK
     ∧ ∃ tablet,
         peer_tablet peer = Some tablet
         ∧ is_Some (tablet_map_ m !! Tablet_tablet_id tablet)
         ∧ m' = set_tablet_map
                  (delete (Tablet_tablet_id tablet) (tablet_map_ m))
                  (set_peer tablet_peer peer m)).
Proof.
  unfold DeleteTablet.
  destruct (TabletPeer_Shutdown (peer_at m tablet_peer)) as [prev_state peer].
  simpl. intros H.
  destruct (bool_decide (prev_state = QUIESCING)) eqn:Hq;
    [apply bool_decide_eq_true_1 in Hq|apply bool_decide_eq_false_1 in Hq];
    simpl in H.
  { left. inversion H; subst. auto. }
  destruct (bool_decide (prev_state = SHUTDOWN)) eqn:Hs;
    [apply bool_decide_eq_true_1 in Hs|apply bool_decide_eq_false_1 in Hs];
    simpl in H.
  { left. inversion H; subst. auto. }
  right. rewrite fn_lookup_insert in H.
  destruct (peer_tablet peer) as [tablet|] eqn:Htablet; [|done].
  destruct (bool_decide (is_Some (tablet_map_ m !! Tablet_tablet_id tablet)))
    eqn:Hreg; simpl in H; [|done].
  apply bool_decide_eq_true_1 in Hreg. inversion H; subst.
  repeat split; try done. by exists tablet.
Qed.

(** C6, amended. [DeleteTablet] returns service-unavailable exactly when
    the peer's [Shutdown] reports that the peer was quiescing or shut down.
    In every other case, if the peer has its tablet and the tablet's
    identifier is in the tablet map, the call erases that entry, and that
    entry only, and returns success; if the identifier is not in the
    tablet map, the [CHECK_EQ] on the erasure aborts the process. *)
Theorem DeleteTablet_spec (tablet_peer : N) (m : t) :
  ((TabletPeer_Shutdown (peer_at m tablet_peer)).1 = QUIESCING
   ∨ (TabletPeer_Shutdown (peer_at m tablet_peer)).1 = SHUTDOWN
   ↔ ∃ s m',
       DeleteTablet TabletPeer_Shutdown tablet_peer m = Returned (s, m')
       ∧ code s = kServiceUnavailable)
  ∧ (∀ tablet,
       (TabletPeer_Shutdown (peer_at m tablet_peer)).1 ≠ QUIESCING →
       (TabletPeer_Shutdown (peer_at m tablet_peer)).1 ≠ SHUTDOWN →
       peer_tablet (TabletPeer_Shutdown (peer_at m tablet_peer)).2 = Some tablet →
       (is_Some (tablet_map_ m !! Tablet_tablet_id tablet) →
        ∃ m',
          DeleteTablet TabletPeer_Shutdown tablet_peer m
            = Returned (Status_OK, m')
          ∧ tablet_map_ m' = delete (Tablet_tablet_id tablet) (tablet_map_ m)
          ∧ tablet_map_ m' !! Tablet_tablet_id tablet = None
          ∧ ∀ id, id ≠ Tablet_tablet_id tablet →
                  tablet_map_ m' !! id = tablet_map_ m !! id)
       ∧ (tablet_map_ m !! Tablet_tablet_id tablet = None →
          DeleteTablet TabletPeer_Shutdown tablet_peer m = Aborted)).
Proof.
  split.
  - split.
    + intros Hprev. unfold DeleteTablet.
      destruct (TabletPeer_Shutdown (peer_at m tablet_peer))
        as [prev_state peer]. simpl in *.
      assert (bool_decide (prev_state = QUIESCING)
              || bool_decide (prev_state = SHUTDOWN) = true) as ->.
      { destruct Hprev as [->| ->]; [done|]. apply orb_true_r. }
      by eexists _, _.
    + intros (s & m' & Hcall & Hcode).
      apply DeleteTablet_inv in Hcall
        as [(Hprev & _)|(_ & _ & -> & _)]; [done|done].
  - intros tablet Hq Hs Htablet. unfold DeleteTablet.
    destruct (TabletPeer_Shutdown (peer_at m tablet_peer))
      as [prev_state peer]. simpl in *.
    rewrite !bool_decide_eq_false_2 by done. simpl.
    rewrite fn_lookup_insert, Htablet. split.
    + intros Hreg. rewrite bool_decide_eq_true_2 by done. simpl.
      eexists. split; [reflexivity|]. simpl. split; [done|].
      split; [apply lookup_delete_eq|]. intros id Hid.
      by apply lookup_delete_ne.
    + intros Hnone. rewrite bool_decide_eq_false_2; [done|].
      rewrite Hnone. by intros [? ?].
Qed.

(** C10. [DeleteTablet] calls the peer's [Shutdown] before it looks at the
    state [Shutdown] reports.  So when the call returns
    service-unavailable, the peer is as [Shutdown] left it, the other peers
    are as they were, and the tablet map still holds every entry it held,
    the entries of this peer among them: the failed call has acted on the
    peer. *)
Theorem DeleteTablet_unavailable_after_Shutdown (tablet_peer : N) (m m' : t)
    (s : Status) :
  DeleteTablet TabletPeer_Shutdown tablet_peer m = Returned (s, m') →
  code s = kServiceUnavailable →
  ((TabletPeer_Shutdown (peer_at m tablet_peer)).1 = QUIESCING
   ∨ (TabletPeer_Shutdown (peer_at m tablet_peer)).1 = SHUTDOWN)
  ∧ peer_at m' tablet_peer = (TabletPeer_Shutdown (peer_at m tablet_peer)).2
  ∧ (∀ h, h ≠ tablet_peer → peer_at m' h = peer_at m h)
  ∧ tablet_map_ m' = tablet_map_ m
  ∧ (∀ id, tablet_map_ m !! id = Some tablet_peer →
           tablet_map_ m' !! id = Some tablet_peer).
Proof.
  intros Hcall Hcode.
  apply DeleteTablet_inv in Hcall as [(Hprev & _ & ->)|(_ & _ & -> & _)];
    [|done].
  split; [done|]. simpl. split; [apply fn_lookup_insert|].
  split; [|done]. intros h Hh. by apply fn_lookup_insert_ne.
Qed.

End Deletion.

(** C6, as stated, fails: a running peer with its tablet, not registered in
    the tablet map.  [Shutdown] reports the state running, neither quiescing
    nor shut down, and the call does not return success: the [CHECK_EQ] on
    the erasure aborts the process. *)
Lemma DeleteTablet_unregistered_aborts :
  (Examples.Shutdown_peer
     (TSTabletManager.peer_at Examples.empty_manager 0)).1
    = TSTabletManager.RUNNING
  ∧ TSTabletManager.peer_tablet
      (Examples.Shutdown_peer
         (TSTabletManager.peer_at Examples.empty_manager 0)).2
    = Some (TSTabletManager.mkTablet (Examples.meta_of "t1"))
  ∧ TSTabletManager.DeleteTablet Examples.Shutdown_peer 0 Examples.empty_manager
    = Aborted.
Proof. by vm_compute. Qed.

Lemma DeleteTablet_spec_witness :
  ∃ m',
    TSTabletManager.DeleteTablet Examples.Shutdown_peer 0 Examples.manager_t1_t2
      = Returned (Status_OK, m')
    ∧ TSTabletManager.tablet_map_ m' !! "t1" = None
    ∧ TSTabletManager.tablet_map_ m' !! "t2" = Some 1%N.
Proof.
  destruct (DeleteTablet_spec Examples.Shutdown_peer 0 Examples.manager_t1_t2)
    as [_ Hother].
  destruct (Hother (TSTabletManager.mkTablet (Examples.meta_of "t1")))
    as [Hdeleted _]; [by vm_compute|by vm_compute|reflexivity|].
  destruct Hdeleted as (m' & Hcall & _ & Hgone & Hrest);
    [by eexists; vm_compute|].
  exists m'. split; [exact Hcall|]. split; [exact Hgone|].
  rewrite (Hrest "t2"); [reflexivity|by vm_compute].
Defined.

Lemma DeleteTablet_unavailable_after_Shutdown_witness :
  ∃ s m',
    TSTabletManager.DeleteTablet Examples.Shutdown_peer 1 Examples.manager_t1_t2
      = Returned (s, m')
    ∧ code s = kServiceUnavailable
    ∧ TSTabletManager.peer_state
        (TSTabletManager.peer_at Examples.manager_t1_t2 1)
      = TSTabletManager.QUIESCING
    ∧ TSTabletManager.peer_state (TSTabletManager.peer_at m' 1)
      = TSTabletManager.SHUTDOWN
    ∧ TSTabletManager.tablet_map_ m' !! "t2" = Some 1%N.
Proof.
  eexists _, _.
  assert (Hcall : TSTabletManager.DeleteTablet Examples.Shutdown_peer 1
                    Examples.manager_t1_t2
                  = Returned
                      (Status2 kServiceUnavailable
                         "Tablet Peer not in RUNNING state" "QUIESCING",
                       TSTabletManager.set_peer 1
                         (Examples.Shutdown_peer (Examples.quiescing_peer "t2")).2
                         Examples.manager_t1_t2)) by reflexivity.
  split; [exact Hcall|]. split; [reflexivity|]. split; [reflexivity|].
  destruct (DeleteTablet_unavailable_after_Shutdown Examples.Shutdown_peer 1
              Examples.manager_t1_t2 _ _ Hcall eq_refl)
    as (_ & Hpeer & _ & _ & Hentry).
  split.
  - rewrite Hpeer. reflexivity.
  - apply Hentry. reflexivity.
Defined.

(** ** The full report and what follows it *)

Section FullReport.
Import TSTabletManager.

Variable TabletPeer_Shutdown : TabletPeer → TabletStatePB * TabletPeer.
Variable TabletPeer_new : TabletMetadata → string → TabletPeer.

Lemma foldl_report_entry (m : t) (l : list (string * N)) :
  ∀ r : TabletReportPB,
    foldl (report_entry m) r l
      = mkReport (sequence_number r) (is_incremental r)
          (updated_tablets r
           ++ ((λ e, CreateReportedTabletPB e.1 (peer_at m e.2)) <$> l))
          (removed_tablet_ids r).
Proof.
  induction l as [|e l IH]; intros r; simpl.
  - rewrite app_nil_r. by destruct r.
  - rewrite IH. unfold report_entry; simpl. by rewrite <- app_assoc.
Qed.

Lemma incremental_reported_ids_dirty (m : t) (id : string) :
  id ∈ reported_ids (GenerateIncrementalTabletReport m).1 →
  id ∈ dom (dirty_tablets_ m).
Proof.
  rewrite incremental_report. unfold reported_ids; simpl.
  rewrite elem_of_app, list_elem_of_fmap.
  intros [(x & -> & Hx)|Hx];
    apply list_elem_of_omap in Hx as ([id' st] & Hin & Hx);
    apply elem_of_map_to_list in Hin.
  - unfold updated_of in Hx; simpl in Hx.
    destruct (tablet_map_ m !! id'); [|done].
    inversion Hx; subst x; simpl. by eapply elem_of_dom_2.
  - unfold removed_of in Hx; simpl in Hx.
    destruct (tablet_map_ m !! id'); [done|].
    inversion Hx; subst id'. by eapply elem_of_dom_2.
Qed.

Lemma CreateNewTablet_dirty (env : CreateEnv)
    (table_id tablet_id start_key end_key table_name : string)
    (schema : Schema) (quorum : QuorumPB) (m m' : t) (s : Status)
    (tablet_peer : option N) :
  CreateNewTablet TabletPeer_new env table_id tablet_id start_key end_key
    table_name schema quorum m = Returned (s, tablet_peer, m') →
  dirty_tablets_ m' = dirty_tablets_ m.
Proof.
  unfold CreateNewTablet. intros H.
  destruct (CHECK (bool_decide (state_ m = MANAGER_RUNNING))) as [[]|];
    simpl in H; [|done].
  destruct (check_local_quorum quorum m) as [[]|]; simpl in H; [|done].
  unfold CreateNewTablet_reserve in H.
  destruct (LookupTabletUnlocked tablet_id m); [by inversion H; subst|].
  destruct (bool_decide (tablet_id ∈ creates_in_progress_ m));
    [by inversion H; subst|].
  destruct (CreateNewTablet_build _ _ _ _ _ _ _ _ _ _)
    as [[[s2 p2] m2]|] eqn:Hbuild; simpl in H; [|done].
  apply CreateNewTablet_build_frame in Hbuild as [_ Hdirty].
  unfold CreatesInProgressDeleter_dtor in H.
  destruct (CHECK (bool_decide (tablet_id ∈ creates_in_progress_ m2)))
    as [[]|]; simpl in H; [|done].
  inversion H; subst. simpl. by rewrite Hdirty.
Qed.

(** A call adds to the dirty map at most the tablet it marks. *)
Lemma run_call_dirty (c : Call) (m m' : t) :
  run_call TabletPeer_Shutdown TabletPeer_new c m = Returned m' →
  dom (dirty_tablets_ m')
    ⊆ dom (dirty_tablets_ m)
      ∪ match c with
        | CallMarkTabletDirty tablet_peer =>
            {[ TabletPeer_tablet_id (peer_at m tablet_peer) ]}
        | _ => ∅
        end.
Proof.
  destruct c; simpl; intros H.
  - destruct (CreateNewTablet _ _ _ _ _ _ _ _ _ m) as [[[s p] m1]|] eqn:Hc;
      simpl in H; [|done].
    inversion H; subst m'. simpl.
    apply CreateNewTablet_dirty in Hc. rewrite Hc. set_solver.
  - destruct (DeleteTablet _ _ m) as [[s m1]|] eqn:Hd; simpl in H; [|done].
    inversion H; subst m'. simpl.
    apply DeleteTablet_inv in Hd
      as [(_ & _ & ->)|(_ & _ & _ & tablet & _ & _ & ->)]; simpl; set_solver.
  - unfold RegisterTablet in H.
    destruct (tablet_map_ m !! tablet_id); [done|].
    inversion H; subst m'. simpl. set_solver.
  - unfold MarkTabletDirty, MarkDirtyUnlocked in H.
    destruct (dirty_tablets_ m !! _) as [st|].
    + destruct (CHECK _) as [[]|]; simpl in H; [|done].
      inversion H; subst m'. simpl. rewrite dom_insert_L. set_solver.
    + inversion H; subst m'. simpl. rewrite dom_insert_L. set_solver.
  - unfold MarkTabletReportAcknowledged in H.
    destruct (CHECK _) as [[]|]; simpl in H; [|done].
    inversion H; subst m'. simpl. rewrite ack_loop_filter.
    pose proof (dom_filter_subseteq
                  (λ e : string * TabletReportState,
                     sequence_number report < change_seq e.2)
                  (dirty_tablets_ m)).
    set_solver.
Qed.

Lemma run_calls_dirty (cs : list Call) :
  ∀ m m',
    run_calls TabletPeer_Shutdown TabletPeer_new cs m = Returned m' →
    dom (dirty_tablets_ m')
      ⊆ dom (dirty_tablets_ m)
        ∪ marked_dirty TabletPeer_Shutdown TabletPeer_new cs m.
Proof.
  induction cs as [|c cs IH]; intros m m' H; simpl in H.
  - inversion H; subst. set_solver.
  - destruct (run_call TabletPeer_Shutdown TabletPeer_new c m) as [m1|] eqn:Hc;
      simpl in H; [|done].
    specialize (IH m1 m' H). apply run_call_dirty in Hc as Hstep.
    simpl. rewrite Hc. set_solver.
Qed.

End FullReport.

Section FullReportClaim.
Import TSTabletManager.

Variable TabletPeer_Shutdown : TabletPeer → TabletStatePB * TabletPeer.
Variable TabletPeer_new : TabletMetadata → string → TabletPeer.

(** C7. [GenerateFullTabletReport] gives the report the current
    [next_report_seq_] and increments the counter; the report is not
    incremental; it has one record for every entry of the tablet map and no
    removed tablet; and the dirty map is empty afterwards.  So an
    incremental report generated right after it names no tablet, and one
    generated after further calls on the manager names only tablets that
    those calls marked dirty. *)
Theorem GenerateFullTabletReport_spec (m : t) :
  sequence_number (GenerateFullTabletReport m).1 = next_report_seq_ m
  ∧ next_report_seq_ (GenerateFullTabletReport m).2
      = Fixed.int32_incr (next_report_seq_ m)
  ∧ (Fixed.in_int32 (next_report_seq_ m) →
     next_report_seq_ m < Fixed.INT32_MAX →
     next_report_seq_ (GenerateFullTabletReport m).2 = next_report_seq_ m + 1)
  ∧ is_incremental (GenerateFullTabletReport m).1 = false
  ∧ (∀ x, x ∈ updated_tablets (GenerateFullTabletReport m).1
          ↔ ∃ id tablet_peer,
              tablet_map_ m !! id = Some tablet_peer
              ∧ x = CreateReportedTabletPB id (peer_at m tablet_peer))
  ∧ length (updated_tablets (GenerateFullTabletReport m).1)
      = size (tablet_map_ m)
  ∧ removed_tablet_ids (GenerateFullTabletReport m).1 = []
  ∧ dirty_tablets_ (GenerateFullTabletReport m).2 = ∅
  ∧ tablet_map_ (GenerateFullTabletReport m).2 = tablet_map_ m
  ∧ reported_ids
      (GenerateIncrementalTabletReport (GenerateFullTabletReport m).2).1 = []
  ∧ (∀ cs m',
       run_calls TabletPeer_Shutdown TabletPeer_new cs
         (GenerateFullTabletReport m).2 = Returned m' →
       ∀ id,
         id ∈ reported_ids (GenerateIncrementalTabletReport m').1 →
         id ∈ marked_dirty TabletPeer_Shutdown TabletPeer_new cs
                (GenerateFullTabletReport m).2).
Proof.
  split; [|split; [|split; [|split; [|split; [|split; [|split; [|split;
    [|split; [|split]]]]]]]]].
  - unfold GenerateFullTabletReport; simpl. by rewrite foldl_report_entry.
  - done.
  - by apply int32_incr_below_max.
  - unfold GenerateFullTabletReport; simpl. by rewrite foldl_report_entry.
  - intros x. unfold GenerateFullTabletReport; simpl.
    rewrite foldl_report_entry; simpl. rewrite list_elem_of_fmap. split.
    + intros ([id h] & -> & Hin). apply elem_of_map_to_list in Hin.
      by exists id, h.
    + intros (id & h & Hh & ->). exists (id, h).
      split; [done|]. by apply elem_of_map_to_list.
  - unfold GenerateFullTabletReport; simpl.
    rewrite foldl_report_entry; simpl.
    by rewrite length_fmap, length_map_to_list.
  - unfold GenerateFullTabletReport; simpl. by rewrite foldl_report_entry.
  - done.
  - done.
  - rewrite incremental_report. simpl. by rewrite map_to_list_empty.
  - intros cs m' Hrun id Hid.
    apply incremental_reported_ids_dirty in Hid.
    apply run_calls_dirty in Hrun. simpl in Hrun.
    rewrite dom_empty_L in Hrun. set_solver.
Qed.

End FullReportClaim.

Lemma GenerateFullTabletReport_spec_witness :
  ∃ m',
    TSTabletManager.run_calls Examples.Shutdown_peer Examples.new_peer
      [TSTabletManager.CallMarkTabletDirty 0; TSTabletManager.CallDeleteTablet 1]
      (TSTabletManager.GenerateFullTabletReport Examples.manager_t1_t2).2
      = Returned m'
    ∧ TSTabletManager.reported_ids
        (TSTabletManager.GenerateIncrementalTabletReport m').1 = ["t1"]
    ∧ "t1" ∈ TSTabletManager.marked_dirty Examples.Shutdown_peer
               Examples.new_peer
               [TSTabletManager.CallMarkTabletDirty 0;
                TSTabletManager.CallDeleteTablet 1]
               (TSTabletManager.GenerateFullTabletReport
                  Examples.manager_t1_t2).2.
Proof.
  destruct (TSTabletManager.run_calls Examples.Shutdown_peer Examples.new_peer
              [TSTabletManager.CallMarkTabletDirty 0;
               TSTabletManager.CallDeleteTablet 1]
              (TSTabletManager.GenerateFullTabletReport
                 Examples.manager_t1_t2).2) as [m'|] eqn:Hrun;
    [|by vm_compute in Hrun].
  assert (Hids : TSTabletManager.reported_ids
                   (TSTabletManager.GenerateIncrementalTabletReport m').1
                 = ["t1"]).
  { vm_compute in Hrun. inversion Hrun; subst m'. by vm_compute. }
  exists m'. split; [reflexivity|]. split; [exact Hids|].
  destruct (GenerateFullTabletReport_spec Examples.Shutdown_peer
              Examples.new_peer Examples.manager_t1_t2)
    as (_ & _ & _ & _ & _ & _ & _ & _ & _ & _ & Hnext).
  apply (Hnext _ m' Hrun). rewrite Hids. apply list_elem_of_here.
Defined.

Lemma Add_then_Release_restores_witness :
  ∃ s tr1,
    TransactionTracker.Add (Examples.write_400KiB 1) Examples.tracker_1MiB
      = Returned (s, tr1)
    ∧ code s = kOk
    ∧ TransactionTracker.Release true (Examples.write_gone 1) tr1
      = Returned Examples.tracker_1MiB.
Proof.
  destruct (TransactionTracker.Add (Examples.write_400KiB 1)
              Examples.tracker_1MiB) as [[s tr1]|] eqn:HAdd;
    [|by vm_compute in HAdd].
  assert (Hok : code s = kOk).
  { vm_compute in HAdd. by inversion HAdd. }
  assert (Hroom : TransactionTracker.gauges_have_room Examples.tracker_1MiB).
  { intros m Hm. inversion Hm; subst m. by vm_compute. }
  exists s, tr1. split; [reflexivity|]. split; [exact Hok|].
  exact (proj1 (Add_then_Release_restores true (Examples.write_400KiB 1)
                  (Examples.write_gone 1) Examples.tracker_1MiB tr1 s
                  Hroom eq_refl eq_refl HAdd Hok)).
Defined.

Lemma GenerateIncrementalTabletReport_spec_witness :
  TSTabletManager.sequence_number
    (TSTabletManager.GenerateIncrementalTabletReport Examples.manager_dirty).1 = 3
  ∧ TSTabletManager.next_report_seq_
      (TSTabletManager.GenerateIncrementalTabletReport Examples.manager_dirty).2
    = 4
  ∧ "t2" ∈ TSTabletManager.removed_tablet_ids
             (TSTabletManager.GenerateIncrementalTabletReport
                Examples.manager_dirty).1
  ∧ TSTabletManager.CreateReportedTabletPB "t1" (Examples.running_peer "t1")
      ∈ TSTabletManager.updated_tablets
          (TSTabletManager.GenerateIncrementalTabletReport
             Examples.manager_dirty).1.
Proof.
  destruct (GenerateIncrementalTabletReport_spec Examples.manager_dirty)
    as (Hseq & _ & Hincr & _ & Hupdated & Hremoved & _).
  split; [exact Hseq|]. split; [apply Hincr; by vm_compute|]. split.
  - apply Hremoved. split; [by eexists; vm_compute|reflexivity].
  - apply Hupdated.
    exists "t1", (TSTabletManager.mkReportState 0), 0%N.
    split; [reflexivity|]. split; reflexivity.
Defined.

Lemma MarkTabletReportAcknowledged_spec_witness :
  ∃ m',
    TSTabletManager.MarkTabletReportAcknowledged
      (TSTabletManager.mkReport 1 true [] []) Examples.manager_dirty
      = Returned m'
    ∧ TSTabletManager.dirty_tablets_ m' !! "t1" = None
    ∧ TSTabletManager.dirty_tablets_ m' !! "t2"
      = Some (TSTabletManager.mkReportState 2).
Proof.
  destruct (MarkTabletReportAcknowledged_spec
              (TSTabletManager.mkReport 1 true [] []) Examples.manager_dirty)
    as [_ Hacked].
  destruct Hacked as (m' & Hcall & _ & Hkept & Hgone & _); [reflexivity|].
  exists m'. split; [exact Hcall|]. split.
  - apply (Hgone "t1" (TSTabletManager.mkReportState 0)); [reflexivity|].
    by vm_compute.
  - apply Hkept. split; reflexivity.
Defined.

Lemma Add_rejection_counters_witness :
  ∃ s tr',
    TransactionTracker.Add (Examples.write_2MiB 1) Examples.tracker_1MiB
      = Returned (s, tr')
    ∧ code s = kServiceUnavailable
    ∧ ∃ m',
        TransactionTracker.metrics_ tr' = Some m'
        ∧ TransactionTracker.transaction_memory_pressure_rejections m' = 1
        ∧ TransactionTracker.transaction_memory_limit_rejections m' = 1.
Proof.
  destruct Add_rejection_counters as [Hrejected _].
  destruct (Hrejected (Examples.write_2MiB 1) Examples.tracker_1MiB _ eq_refl)
    as (s & tr' & HAdd & Hcode & _ & Hcounters); [reflexivity|].
  destruct (Hcounters TransactionTracker.Metrics_new eq_refl)
    as (m' & Hm' & Hpressure & Hlimit).
  exists s, tr'. split; [exact HAdd|]. split; [exact Hcode|].
  exists m'. split; [exact Hm'|]. split; [exact Hpressure|exact Hlimit].
Defined.

(** ** The scenarios of the specification *)

Section Scenarios.

(** Memory admission: with a limit of 1 MiB, two transactions of 400 KiB
    are admitted and the third is refused, counted once as memory pressure
    and once against the tracker's own limit; after the release of the
    first, a fourth is admitted. *)
Example memory_admission :
  ∃ tr2 s3 tr3 tr4 s5 tr5,
    TransactionTracker.run_calls true
      [TransactionTracker.CallAdd (Examples.write_400KiB 1);
       TransactionTracker.CallAdd (Examples.write_400KiB 2)]
      Examples.tracker_1MiB = Returned tr2
    ∧ TransactionTracker.Add (Examples.write_400KiB 3) tr2 = Returned (s3, tr3)
    ∧ code s3 = kServiceUnavailable
    ∧ (TransactionTracker.transaction_memory_pressure_rejections
         <$> TransactionTracker.metrics_ tr3) = Some 1
    ∧ (TransactionTracker.transaction_memory_limit_rejections
         <$> TransactionTracker.metrics_ tr3) = Some 1
    ∧ TransactionTracker.Release true (Examples.write_gone 1) tr3 = Returned tr4
    ∧ TransactionTracker.Add (Examples.write_400KiB 4) tr4 = Returned (s5, tr5)
    ∧ code s5 = kOk
    ∧ (TransactionTracker.all_transactions_inflight
         <$> TransactionTracker.metrics_ tr5) = Some 2.
Proof.
  eexists _, _, _, _, _, _.
  repeat (split; [vm_compute; reflexivity|]). by vm_compute.
Qed.

(** Delete before acknowledgement: a dirty tablet that has left the tablet
    map is reported as removed, and the acknowledgement of that report
    empties the dirty map. *)
Example delete_before_ack :
  ∃ m1 r m2 m3,
    TSTabletManager.run_calls Examples.Shutdown_peer Examples.new_peer
      [TSTabletManager.CallMarkTabletDirty 0;
       TSTabletManager.CallDeleteTablet 0]
      Examples.manager_t1_t2 = Returned m1
    ∧ TSTabletManager.GenerateIncrementalTabletReport m1 = (r, m2)
    ∧ TSTabletManager.sequence_number r = 0
    ∧ TSTabletManager.updated_tablets r = []
    ∧ TSTabletManager.removed_tablet_ids r = ["t1"]
    ∧ TSTabletManager.MarkTabletReportAcknowledged r m2 = Returned m3
    ∧ TSTabletManager.dirty_tablets_ m3 = ∅.
Proof.
  eexists _, _, _, _.
  repeat (split; [vm_compute; reflexivity|]). by vm_compute.
Qed.

(** A tablet marked dirty after a report was generated survives the
    acknowledgement of that report. *)
Example dirty_after_report_survives_ack :
  ∃ r m1 m2 m3,
    TSTabletManager.GenerateIncrementalTabletReport Examples.manager_t1_t2
      = (r, m1)
    ∧ TSTabletManager.MarkTabletDirty 0 m1 = Returned m2
    ∧ TSTabletManager.MarkTabletReportAcknowledged r m2 = Returned m3
    ∧ TSTabletManager.dirty_tablets_ m3
      = {[ "t1" := TSTabletManager.mkReportState 1 ]}.
Proof.
  eexists _, _, _, _.
  repeat (split; [vm_compute; reflexivity|]). by vm_compute.
Qed.

(** Drain timeout: one transaction never released, a timeout of 100 ms. *)
Example drain_timeout :
  (TransactionTracker.WaitForAllToFinish pretty 100000000 0
     [TransactionTracker.mkRound Examples.busy_tracker 50000000;
      TransactionTracker.mkRound Examples.busy_tracker 100000001]).1
  = Some (mkStatus kTimedOut
            "Timed out waiting for all transactions to finish. 1 transactions pending. Waited for 100000001").
Proof. by vm_compute. Qed.

End Scenarios.


(** * Further properties of the transaction tracker *)

Section AdmissionState.
Import TransactionTracker.

(** X1. An [Add] that does not return OK has rejected the transaction for
    memory: it returns service-unavailable, and the pending map, the
    in-flight gauges and the memory tracker with its ancestors are as they
    were before the call. *)
Theorem Add_rejected_keeps_admission_state (driver : TransactionDriver)
    (tr tr' : t) (s : Status) :
  Add driver tr = Returned (s, tr') →
  code s ≠ kOk →
  code s = kServiceUnavailable
  ∧ pending_txns_ tr' = pending_txns_ tr
  ∧ mem_tracker_ tr' = mem_tracker_ tr
  ∧ all_transactions_inflight <$> metrics_ tr'
    = all_transactions_inflight <$> metrics_ tr
  ∧ write_transactions_inflight <$> metrics_ tr'
    = write_transactions_inflight <$> metrics_ tr
  ∧ alter_schema_transactions_inflight <$> metrics_ tr'
    = alter_schema_transactions_inflight <$> metrics_ tr.
Proof.
  intros HAdd Hnot.
  apply Add_inv in HAdd
    as [(Hok & _)|(Hcode & Hpend & Hmem & mt & _ & _ & Hmet)]; [done|].
  rewrite Hmet. repeat split; try done; by destruct (metrics_ tr).
Qed.

Lemma Add_rejected_keeps_admission_state_witness :
  ∃ s tr',
    Add (Examples.write_2MiB 1) Examples.tracker_1MiB = Returned (s, tr')
    ∧ code s = kServiceUnavailable
    ∧ pending_txns_ tr' = pending_txns_ Examples.tracker_1MiB
    ∧ mem_tracker_ tr' = mem_tracker_ Examples.tracker_1MiB.
Proof.
  destruct (Add (Examples.write_2MiB 1) Examples.tracker_1MiB)
    as [[s tr']|] eqn:HAdd; [|by vm_compute in HAdd].
  assert (Hnot : code s ≠ kOk).
  { vm_compute in HAdd. by inversion HAdd. }
  destruct (Add_rejected_keeps_admission_state _ _ _ _ HAdd Hnot)
    as (Hcode & Hpend & Hmem & _).
  by exists s, tr'.
Defined.

Lemma pending_footprint_insert (p : N) (st : State) (pending : gmap N State) :
  pending !! p = None →
  map_fold (λ _ st acc, memory_footprint st + acc) 0 (<[p := st]> pending)
    = memory_footprint st
      + map_fold (λ _ st acc, memory_footprint st + acc) 0 pending.
Proof.
  intros Hfree. rewrite map_fold_insert_L; [done| |done].
  intros. lia.
Qed.

Lemma pending_footprint_delete (p : N) (st : State) (pending : gmap N State) :
  pending !! p = Some st →
  map_fold (λ _ st acc, memory_footprint st + acc) 0 pending
    = memory_footprint st
      + map_fold (λ _ st acc, memory_footprint st + acc) 0 (delete p pending).
Proof.
  intros Hst. rewrite (map_fold_delete_L _ _ p st pending); [done| |done].
  intros. lia.
Qed.

Lemma reserve_up_head (bytes : Z) (n n' : MemTracker.Node)
    (up up' : list MemTracker.Node) :
  MemTracker.reserve_up bytes (n :: up) = Some (n' :: up') →
  n' = MemTracker.reserve bytes n.
Proof.
  simpl. destruct (MemTracker.fits bytes n); [|done].
  destruct (MemTracker.reserve_up bytes up); [|done]. by intros [= <- _].
Qed.

Lemma TryConsume_consumption (bytes : Z) (mt mt' : MemTracker.t) :
  MemTracker.TryConsume bytes mt = (true, mt') →
  MemTracker.consumption mt' = MemTracker.consumption mt + bytes.
Proof.
  unfold MemTracker.TryConsume. intros H.
  destruct (MemTracker.reserve_up _ _) as [[|n up]|] eqn:Hup; try done.
  inversion H; subst mt'. apply reserve_up_head in Hup. by subst n.
Qed.

Lemma Add_accounted (driver : TransactionDriver) (tr tr' : t) (s : Status) :
  Add driver tr = Returned (s, tr') → accounted tr → accounted tr'.
Proof.
  intros HAdd Hacc mt' Hmt'.
  apply Add_inv in HAdd
    as [(_ & Hfree & Hpend & _ & Hmem)|(_ & Hpend & Hmem & _)].
  - unfold pending_footprint. rewrite Hpend.
    rewrite pending_footprint_insert by done. simpl.
    destruct (mem_tracker_ tr) as [mt|] eqn:Hmt; [|congruence].
    destruct Hmem as (mt1 & Htry & Hmt1). rewrite Hmt1 in Hmt'.
    inversion Hmt'; subst mt1.
    rewrite (TryConsume_consumption _ _ _ Htry), (Hacc mt Hmt).
    unfold pending_footprint. lia.
  - unfold pending_footprint. rewrite Hpend. apply Hacc. congruence.
Qed.

Lemma Release_inv (debug_build : bool) (driver : TransactionDriver) (tr tr' : t) :
  Release debug_build driver tr = Returned tr' →
  ∃ st,
    pending_txns_ tr !! driver_ptr driver = Some st
    ∧ pending_txns_ tr' = delete (driver_ptr driver) (pending_txns_ tr)
    ∧ mem_tracker_ tr'
      = MemTracker.Release (memory_footprint st) <$> mem_tracker_ tr
    ∧ match metrics_ tr with
      | Some m =>
          ∃ m', DecrementCounters debug_build driver m = Returned m'
                ∧ metrics_ tr' = Some m'
      | None => metrics_ tr' = None
      end.
Proof.
  unfold Release. intros H.
  destruct (metrics_ tr) as [m|].
  - destruct (DecrementCounters debug_build driver m) as [m'|] eqn:Hdec;
      simpl in H; [|done].
    destruct (pending_txns_ tr !! driver_ptr driver) as [st|]; [|done].
    inversion H; subst tr'. exists st. simpl. repeat split; try done.
    by exists m'.
  - simpl in H.
    destruct (pending_txns_ tr !! driver_ptr driver) as [st|]; [|done].
    inversion H; subst tr'. by exists st.
Qed.

Lemma Release_accounted (debug_build : bool) (driver : TransactionDriver)
    (tr tr' : t) :
  Release debug_build driver tr = Returned tr' → accounted tr → accounted tr'.
Proof.
  intros HRel Hacc mt' Hmt'.
  apply Release_inv in HRel as (st & Hst & Hpend & Hmem & _).
  rewrite Hmem in Hmt'. destruct (mem_tracker_ tr) as [mt|] eqn:Hmt; [|done].
  inversion Hmt'; subst mt'. unfold pending_footprint. rewrite Hpend.
  specialize (Hacc mt Hmt). unfold pending_footprint in Hacc.
  rewrite (pending_footprint_delete _ _ _ Hst) in Hacc.
  unfold MemTracker.consumption, MemTracker.Release in *. simpl. lia.
Qed.

(** X2. The bytes the memory tracker holds for a tablet are those of its
    pending transactions: the sum of the footprints cached in the pending
    map equals the consumption of the tracker's own node.  This holds when
    memory tracking starts on a tracker with nothing pending, and every
    [Add], [Release] and [StartInstrumentation] that returns keeps it. *)
Theorem pending_footprint_accounted :
  (∀ limit_mb parent tr,
     pending_txns_ tr = ∅ → mem_tracker_ tr = None →
     accounted (StartMemoryTracking limit_mb parent tr))
  ∧ (∀ debug_build cs tr tr',
       accounted tr →
       forallb (λ c, negb (is_StartMemoryTracking c)) cs = true →
       run_calls debug_build cs tr = Returned tr' →
       accounted tr').
Proof.
  split.
  - intros limit_mb parent tr Hempty Hnone mt.
    unfold StartMemoryTracking, pending_footprint.
    case_bool_decide; simpl; [|congruence].
    intros [= <-]. by rewrite Hempty, map_fold_empty.
  - intros debug_build cs. induction cs as [|c cs IH];
      intros tr tr' Hacc Hcs Hrun; simpl in *.
    + by inversion Hrun; subst.
    + apply andb_true_iff in Hcs as [Hc Hcs].
      destruct (run_call debug_build c tr) as [tr1|] eqn:Hcall;
        simpl in Hrun; [|done].
      apply (IH tr1 tr'); [|done|done].
      destruct c; simpl in Hcall; try done.
      * by inversion Hcall; subst.
      * destruct (Add driver tr) as [[s tr2]|] eqn:HAdd; simpl in Hcall; [|done].
        inversion Hcall; subst tr1. by eapply Add_accounted.
      * by eapply Release_accounted.
Qed.

Lemma pending_footprint_accounted_witness :
  ∃ tr',
    run_calls true
      [CallAdd (Examples.write_400KiB 1); CallAdd (Examples.write_400KiB 2);
       CallRelease (Examples.write_gone 1)]
      Examples.tracker_1MiB = Returned tr'
    ∧ (MemTracker.consumption <$> mem_tracker_ tr') = Some (400 * 1024)
    ∧ pending_footprint tr' = 400 * 1024.
Proof.
  destruct pending_footprint_accounted as [Hstart Hkeep].
  destruct (run_calls true
              [CallAdd (Examples.write_400KiB 1);
               CallAdd (Examples.write_400KiB 2);
               CallRelease (Examples.write_gone 1)] Examples.tracker_1MiB)
    as [tr'|] eqn:Hrun; [|by vm_compute in Hrun].
  assert (Hacc : accounted tr').
  { eapply Hkeep; cycle 2; [exact Hrun| |reflexivity].
    intros mt Hmt. apply (Hstart 1 Examples.root_tracker new eq_refl eq_refl).
    exact Hmt. }
  assert (Hcons : MemTracker.consumption <$> mem_tracker_ tr' = Some (400 * 1024)).
  { vm_compute in Hrun. inversion Hrun; subst tr'. reflexivity. }
  exists tr'. split; [reflexivity|]. split; [exact Hcons|].
  destruct (mem_tracker_ tr') as [mt|] eqn:Hmt; [|done].
  rewrite <- (Hacc mt Hmt). by inversion Hcons.
Defined.

End AdmissionState.

Section Gauges.
Import TransactionTracker.

Lemma uint64_add_l (a b : Z) : Fixed.uint64 (Fixed.uint64 a + b) = Fixed.uint64 (a + b).
Proof. unfold Fixed.uint64, Fixed.wrap_unsigned. by rewrite Z.add_mod_idemp_l. Qed.

Lemma uint64_add_r (a b : Z) : Fixed.uint64 (a + Fixed.uint64 b) = Fixed.uint64 (a + b).
Proof. unfold Fixed.uint64, Fixed.wrap_unsigned. by rewrite Z.add_mod_idemp_r. Qed.

Lemma uint64_sub_l (a b : Z) : Fixed.uint64 (Fixed.uint64 a - b) = Fixed.uint64 (a - b).
Proof. unfold Fixed.uint64, Fixed.wrap_unsigned. by rewrite Zminus_mod_idemp_l. Qed.

Lemma DecrementCounters_inv (debug_build : bool) (driver : TransactionDriver)
    (m m' : Metrics) :
  DecrementCounters debug_build driver m = Returned m' →
  all_transactions_inflight m' = gauge_Decrement (all_transactions_inflight m)
  ∧ match tx_type driver with
    | WRITE_TXN =>
        write_transactions_inflight m'
          = gauge_Decrement (write_transactions_inflight m)
        ∧ alter_schema_transactions_inflight m'
          = alter_schema_transactions_inflight m
    | ALTER_SCHEMA_TXN =>
        write_transactions_inflight m' = write_transactions_inflight m
        ∧ alter_schema_transactions_inflight m'
          = gauge_Decrement (alter_schema_transactions_inflight m)
    end.
Proof.
  unfold DecrementCounters. intros H.
  destruct (DCHECK_GT_0 debug_build (all_transactions_inflight m)) as [[]|];
    simpl in H; [|done].
  destruct (tx_type driver).
  - destruct (DCHECK_GT_0 debug_build (write_transactions_inflight m)) as [[]|];
      simpl in H; [|done]. by inversion H.
  - destruct (DCHECK_GT_0 debug_build (alter_schema_transactions_inflight m))
      as [[]|]; simpl in H; [|done]. by inversion H.
Qed.

Lemma Add_gauges_count_pending (driver : TransactionDriver) (tr tr' : t)
    (s : Status) :
  Add driver tr = Returned (s, tr') →
  gauges_count_pending tr → gauges_count_pending tr'.
Proof.
  intros HAdd Hcount m' Hm'.
  apply Add_inv in HAdd
    as [(_ & Hfree & Hpend & Hmet & _)|(_ & Hpend & _ & mt & _ & _ & Hmet)];
    rewrite Hmet in Hm'; destruct (metrics_ tr) as [m|] eqn:Hm; try done;
    inversion Hm'; subst m'; destruct (Hcount m Hm) as [Hall Hsum];
    rewrite Hpend.
  - rewrite map_size_insert_None by done. rewrite Nat2Z.inj_succ.
    unfold IncrementCounters, gauge_Increment.
    destruct (tx_type driver); simpl; split;
      try (rewrite Hall, uint64_add_l; f_equal; lia);
      rewrite Hsum, ?uint64_add_l, ?uint64_add_r; f_equal; lia.
  - done.
Qed.

Lemma Release_gauges_count_pending (debug_build : bool)
    (driver : TransactionDriver) (tr tr' : t) :
  Release debug_build driver tr = Returned tr' →
  gauges_count_pending tr → gauges_count_pending tr'.
Proof.
  intros HRel Hcount m' Hm'.
  apply Release_inv in HRel as (st & Hst & Hpend & _ & Hmet).
  destruct (metrics_ tr) as [m|] eqn:Hm; [|congruence].
  destruct Hmet as (m1 & Hdec & Hm1). rewrite Hm1 in Hm'.
  inversion Hm'; subst m1. destruct (Hcount m Hm) as [Hall Hsum].
  assert (Hsize : Z.of_nat (size (pending_txns_ tr))
                  = Z.of_nat (size (pending_txns_ tr')) + 1).
  { rewrite <- (insert_delete_id (pending_txns_ tr) _ _ Hst).
    rewrite map_size_insert_None by apply lookup_delete_eq.
    rewrite Hpend. lia. }
  apply DecrementCounters_inv in Hdec as [Hall' Htype].
  unfold gauge_Decrement in *. rewrite Hall'. split.
  - rewrite Hall, uint64_sub_l. f_equal. lia.
  - rewrite Hsum, uint64_sub_l.
    destruct (tx_type driver); destruct Htype as [-> ->];
      rewrite ?uint64_add_l, ?uint64_add_r; f_equal; lia.
Qed.

(** X3. The gauge [all_transactions_inflight] is the number of pending
    transactions, and it is the sum of the gauges of the write and the
    alter-schema transactions, in [uint64] arithmetic.  This holds when
    instrumentation starts on a tracker with nothing pending, and every
    [Add], [Release] and [StartMemoryTracking] that returns keeps it. *)
Theorem gauges_follow_pending :
  (∀ tr, pending_txns_ tr = ∅ → gauges_count_pending (StartInstrumentation tr))
  ∧ (∀ debug_build cs tr tr',
       gauges_count_pending tr →
       forallb (λ c, negb (is_StartInstrumentation c)) cs = true →
       run_calls debug_build cs tr = Returned tr' →
       gauges_count_pending tr').
Proof.
  split.
  - intros tr Hempty m [= <-]. simpl. rewrite Hempty, map_size_empty.
    by vm_compute.
  - intros debug_build cs. induction cs as [|c cs IH];
      intros tr tr' Hcount Hcs Hrun; simpl in *.
    + by inversion Hrun; subst.
    + apply andb_true_iff in Hcs as [Hc Hcs].
      destruct (run_call debug_build c tr) as [tr1|] eqn:Hcall;
        simpl in Hrun; [|done].
      apply (IH tr1 tr'); [|done|done].
      destruct c; simpl in Hcall; try done.
      * inversion Hcall; subst tr1. unfold StartMemoryTracking.
        by case_bool_decide.
      * destruct (Add driver tr) as [[s tr2]|] eqn:HAdd; simpl in Hcall; [|done].
        inversion Hcall; subst tr1. by eapply Add_gauges_count_pending.
      * by eapply Release_gauges_count_pending.
Qed.

Lemma gauges_follow_pending_witness :
  ∃ tr' m,
    run_calls true
      [CallAdd (Examples.write_400KiB 1); CallAdd (Examples.write_400KiB 2);
       CallRelease (Examples.write_gone 1)]
      Examples.tracker_1MiB = Returned tr'
    ∧ metrics_ tr' = Some m
    ∧ size (pending_txns_ tr') = 1%nat
    ∧ all_transactions_inflight m = 1.
Proof.
  destruct gauges_follow_pending as [Hstart Hkeep].
  destruct (run_calls true
              [CallAdd (Examples.write_400KiB 1);
               CallAdd (Examples.write_400KiB 2);
               CallRelease (Examples.write_gone 1)] Examples.tracker_1MiB)
    as [tr'|] eqn:Hrun; [|by vm_compute in Hrun].
  assert (Hcount : gauges_count_pending tr').
  { eapply Hkeep; cycle 2; [exact Hrun| |reflexivity].
    apply (Hstart (StartMemoryTracking 1 Examples.root_tracker new)).
    reflexivity. }
  assert (Hsize : size (pending_txns_ tr') = 1%nat).
  { vm_compute in Hrun. inversion Hrun; subst tr'. reflexivity. }
  destruct (metrics_ tr') as [m|] eqn:Hm;
    [|vm_compute in Hrun; inversion Hrun; subst tr'; discriminate Hm].
  exists tr', m. split; [reflexivity|]. split; [exact Hm|].
  split; [exact Hsize|].
  destruct (Hcount m Hm) as [Hall _]. rewrite Hall, Hsize. reflexivity.
Defined.

(** X4. [GetPendingTransactions] lists each pending driver once.  A
    successful [Add] adds its driver, which was not listed, and nothing
    else; a [Release] that returns removes its driver, which was listed, and
    nothing else. *)
Theorem GetPendingTransactions_tracks_calls :
  (∀ tr,
     NoDup (GetPendingTransactions tr)
     ∧ (∀ p, p ∈ GetPendingTransactions tr ↔ is_Some (pending_txns_ tr !! p))
     ∧ length (GetPendingTransactions tr) = size (pending_txns_ tr))
  ∧ (∀ driver tr s tr',
       Add driver tr = Returned (s, tr') → code s = kOk →
       (driver_ptr driver ∉ GetPendingTransactions tr)
       ∧ (∀ p, p ∈ GetPendingTransactions tr'
               ↔ p = driver_ptr driver ∨ p ∈ GetPendingTransactions tr)
       ∧ length (GetPendingTransactions tr')
         = S (length (GetPendingTransactions tr)))
  ∧ (∀ debug_build driver tr tr',
       Release debug_build driver tr = Returned tr' →
       driver_ptr driver ∈ GetPendingTransactions tr
       ∧ (∀ p, p ∈ GetPendingTransactions tr'
               ↔ p ≠ driver_ptr driver ∧ p ∈ GetPendingTransactions tr)
       ∧ S (length (GetPendingTransactions tr'))
         = length (GetPendingTransactions tr)).
Proof.
  assert (Hlisted : ∀ tr p,
            p ∈ GetPendingTransactions tr ↔ is_Some (pending_txns_ tr !! p)).
  { intros tr p. unfold GetPendingTransactions.
    rewrite list_elem_of_fmap. split.
    - intros ([p' st] & -> & Hin). apply elem_of_map_to_list in Hin. by exists st.
    - intros [st Hst]. exists (p, st). split; [done|].
      by apply elem_of_map_to_list. }
  assert (Hlength : ∀ tr,
            length (GetPendingTransactions tr) = size (pending_txns_ tr)).
  { intros tr. unfold GetPendingTransactions.
    by rewrite length_fmap, length_map_to_list. }
  split; [|split].
  - intros tr. split; [apply NoDup_fst_map_to_list|]. by split.
  - intros driver tr s tr' HAdd Hok.
    apply Add_inv in HAdd as [(_ & Hfree & Hpend & _)|(Hcode & _)];
      [|congruence].
    split; [|split].
    + rewrite Hlisted, Hfree. by intros [? ?].
    + intros p. rewrite !Hlisted, Hpend, lookup_insert_is_Some.
      split; [intros [->|[_ ?]]; auto|].
      intros [->|Hp]; [by left|].
      destruct (decide (driver_ptr driver = p)); [by left|by right].
    + rewrite !Hlength, Hpend. by apply map_size_insert_None.
  - intros debug_build driver tr tr' HRel.
    apply Release_inv in HRel as (st & Hst & Hpend & _).
    split; [|split].
    + rewrite Hlisted, Hst. by eexists.
    + intros p. rewrite !Hlisted, Hpend.
      destruct (decide (p = driver_ptr driver)) as [->|Hne].
      * rewrite lookup_delete_eq. split; [by intros [? ?]|by intros [? _]].
      * rewrite lookup_delete_ne by done. split; [done|by intros [_ ?]].
    + rewrite !Hlength, Hpend.
      rewrite <- (insert_delete_id (pending_txns_ tr) _ _ Hst) at 2.
      by rewrite map_size_insert_None by apply lookup_delete_eq.
Qed.

Lemma GetPendingTransactions_tracks_calls_witness :
  ∃ s tr',
    Add (Examples.write_400KiB 1) Examples.tracker_1MiB = Returned (s, tr')
    ∧ GetPendingTransactions Examples.tracker_1MiB = []
    ∧ ∀ p, p ∈ GetPendingTransactions tr' ↔ p = 1%N.
Proof.
  destruct GetPendingTransactions_tracks_calls as (_ & HAdded & _).
  destruct (Add (Examples.write_400KiB 1) Examples.tracker_1MiB)
    as [[s tr']|] eqn:HAdd; [|by vm_compute in HAdd].
  assert (Hok : code s = kOk).
  { vm_compute in HAdd. by inversion HAdd. }
  destruct (HAdded _ _ _ _ HAdd Hok) as (_ & Hin & _).
  exists s, tr'. split; [reflexivity|]. split; [reflexivity|].
  intros p. rewrite Hin. split; [intros [->|Hp]; [done|inversion Hp]|by left].
Defined.

(** X5. A driver can be released once.  After a successful [Add] and the
    [Release] of its driver, a second [Release] of that driver aborts the
    process ([FindOrDie]), and so does the [Release] of any driver that is
    not pending. *)
Theorem Release_twice_aborts (debug_build : bool)
    (driver driver' : TransactionDriver) (tr tr1 tr2 : t) (s : Status) :
  driver_ptr driver' = driver_ptr driver →
  Add driver tr = Returned (s, tr1) →
  code s = kOk →
  Release debug_build driver' tr1 = Returned tr2 →
  Release debug_build driver' tr2 = Aborted
  ∧ ∀ other tr0,
      pending_txns_ tr0 !! driver_ptr other = None →
      Release debug_build other tr0 = Aborted.
Proof.
  intros Hptr HAdd Hok HRel.
  assert (Hunknown : ∀ other tr0,
            pending_txns_ tr0 !! driver_ptr other = None →
            Release debug_build other tr0 = Aborted).
  { intros other tr0 Hnone. unfold Release. rewrite Hnone.
    destruct (metrics_ tr0) as [m|]; simpl; [|done].
    by destruct (DecrementCounters debug_build other m). }
  split; [|done]. apply Hunknown.
  apply Release_inv in HRel as (st & _ & -> & _). apply lookup_delete_eq.
Qed.

Lemma Release_twice_aborts_witness :
  ∃ s tr1 tr2,
    Add (Examples.write_400KiB 1) Examples.tracker_1MiB = Returned (s, tr1)
    ∧ Release true (Examples.write_gone 1) tr1 = Returned tr2
    ∧ Release true (Examples.write_gone 1) tr2 = Aborted.
Proof.
  destruct (Add (Examples.write_400KiB 1) Examples.tracker_1MiB)
    as [[s tr1]|] eqn:HAdd; [|by vm_compute in HAdd].
  assert (Hok : code s = kOk).
  { vm_compute in HAdd. by inversion HAdd. }
  destruct (Release true (Examples.write_gone 1) tr1) as [tr2|] eqn:HRel;
    [|vm_compute in HAdd; inversion HAdd; subst; by vm_compute in HRel].
  exists s, tr1, tr2. split; [reflexivity|]. split; [exact HRel|].
  exact (proj1 (Release_twice_aborts true (Examples.write_400KiB 1)
                  (Examples.write_gone 1) Examples.tracker_1MiB tr1 tr2 s
                  eq_refl HAdd Hok HRel)).
Defined.

End Gauges.

Section DrainingMore.
Import TransactionTracker.

Variable MonoDelta_ToString : Z → string.

(** The result of the loop when no round is late. *)
Lemma WaitForAllToFinish_loop_in_time (timeout start_time : Z)
    (rounds : list Round) :
  ∀ (w nc nl : Z),
    0 <= w <= 1000000 →
    Forall (λ r, round_now r - start_time <= timeout) rounds →
    (WaitForAllToFinish_loop MonoDelta_ToString timeout start_time w nc nl
       rounds).1
      = if existsb (λ r, bool_decide
                           (GetPendingTransactions (round_tracker r) = []))
             rounds
        then Some Status_OK else None.
Proof.
  induction rounds as [|r rounds IH]; intros w nc nl Hw Hintime; [done|].
  apply Forall_cons in Hintime as [Hr Hintime].
  destruct (decide (GetPendingTransactions (round_tracker r) = []))
    as [Hnone|Hsome].
  - simpl. by rewrite !bool_decide_eq_true_2 by done.
  - destruct (WaitForAllToFinish_loop_waits MonoDelta_ToString timeout
                start_time w nc nl r rounds) as (nc' & nl' & -> & _);
      try done.
    rewrite IH; [|by apply backoff_range|done].
    simpl. by rewrite (bool_decide_eq_false_2 _ Hsome).
Qed.

(** X6. The wait without a limit, [WaitForAllToFinish()], never aborts on
    its [CHECK_OK]: with clock readings at most [INT64_MAX] nanoseconds
    after the start, the longest time a [MonoDelta] can hold, it returns
    once a round finds no transaction pending, and is still waiting as long
    as none does. *)
Theorem WaitForAllToFinish_forever_never_aborts (start_time : Z)
    (rounds : list Round) :
  Forall (λ r, round_now r - start_time <= Fixed.INT64_MAX) rounds →
  (WaitForAllToFinish_forever MonoDelta_ToString start_time rounds).1
    = if existsb (λ r, bool_decide
                         (GetPendingTransactions (round_tracker r) = []))
           rounds
      then Some (Returned ()) else None.
Proof.
  intros Hintime. unfold WaitForAllToFinish_forever, WaitForAllToFinish.
  pose proof (WaitForAllToFinish_loop_in_time Fixed.INT64_MAX start_time rounds
                250 0 (start_time + MonoDelta_FromSeconds 1)) as Hloop.
  destruct (WaitForAllToFinish_loop _ _ _ _ _ _ rounds) as [result events].
  simpl in *. rewrite Hloop; [|lia|done]. by destruct (existsb _ _).
Qed.

(** What the loop logs: every complaint reports at least one outstanding
    transaction and dumps at most [kMaxTxnsToPrint] of them, and the
    complaints are throttled. *)
Lemma WaitForAllToFinish_loop_complaints (timeout start_time : Z)
    (rounds : list Round) :
  ∀ (w nc nl : Z),
    0 <= nc →
    nc + Z.of_nat (length rounds) <= Fixed.INT32_MAX →
    throttled nc (nl - start_time)
      (complaints (WaitForAllToFinish_loop MonoDelta_ToString timeout
                     start_time w nc nl rounds).2)
    ∧ Forall (λ e, match e with
                   | Complaint outstanding _ dumped =>
                       (0 < outstanding)%nat
                       ∧ dumped = Nat.min outstanding kMaxTxnsToPrint
                   | SleepFor _ => True
                   end)
        (WaitForAllToFinish_loop MonoDelta_ToString timeout start_time
           w nc nl rounds).2.
Proof.
  induction rounds as [|r rounds IH]; intros w nc nl Hnc Hlen; [done|].
  rewrite length_cons, Nat2Z.inj_succ in Hlen. simpl.
  case_bool_decide as Hnone; [done|].
  case_bool_decide as Hlate; [done|].
  set (wait' := Z.min (Fixed.int_div (Fixed.int_mul w 5) 4) 1000000).
  assert (Hpos : (0 < length (GetPendingTransactions (round_tracker r)))%nat).
  { destruct (GetPendingTransactions (round_tracker r)); [done|simpl; lia]. }
  case_bool_decide as Hcomplains.
  - assert (Hincr : Fixed.int32 (nc + 1) = nc + 1).
    { apply int32_id. unfold Fixed.in_int32, Fixed.INT32_MIN, Fixed.INT32_MAX in *.
      lia. }
    rewrite Hincr.
    destruct (IH wait' (nc + 1)
                (round_now r
                 + MonoDelta_FromSeconds (1 ≪ (8 `min` (nc + 1)))))
      as [Hthrottled Hevents]; [lia|lia|].
    destruct (WaitForAllToFinish_loop _ _ _ _ _ _ rounds) as [result events].
    simpl in *. split.
    + split; [lia|].
      rewrite Z.shiftl_1_l in Hthrottled.
      replace (round_now r - start_time
               + MonoDelta_FromSeconds (2 ^ (8 `min` (nc + 1))))
        with (round_now r + MonoDelta_FromSeconds (2 ^ (8 `min` (nc + 1)))
              - start_time) by lia.
      done.
    + apply Forall_cons. split; [done|]. by apply Forall_cons.
  - destruct (IH wait' nc nl) as [Hthrottled Hevents]; [lia|lia|].
    destruct (WaitForAllToFinish_loop _ _ _ _ _ _ rounds) as [result events].
    simpl in *. split; [done|]. by apply Forall_cons.
Qed.

Lemma throttled_gap (waits : list Z) :
  ∀ (nc not_before : Z),
    0 <= nc →
    throttled nc not_before waits →
    (∀ a, waits !! 0%nat = Some a → a > not_before)
    ∧ ∀ i a b,
        waits !! i = Some a → waits !! S i = Some b →
        b > a + MonoDelta_FromSeconds 2.
Proof.
  induction waits as [|w waits IH]; intros nc not_before Hnc Hthr; [done|].
  destruct Hthr as [Hw Hrest].
  destruct (IH (nc + 1) _ ltac:(lia) Hrest) as [Hfirst Hgaps].
  split; [by intros a [= <-]|].
  intros [|i] a b Ha Hb; simpl in *.
  - inversion Ha; subst a. specialize (Hfirst b Hb).
    assert (2 <= 2 ^ (8 `min` (nc + 1))).
    { change 2 with (2 ^ 1) at 1. apply Z.pow_le_mono_r; lia. }
    unfold MonoDelta_FromSeconds in *. lia.
  - by eapply Hgaps.
Qed.

(** X7. The complaints of [WaitForAllToFinish] are throttled.  The first
    is logged more than one second after the start; the [k]-th is followed
    by the next more than [2 ^ min 8 k] seconds later, so two complaints are
    always more than two seconds apart; each reports at least one
    outstanding transaction and dumps all of them up to 50.  (The count of
    complaints is an [int]: the run has at most [INT32_MAX] rounds.) *)
Theorem WaitForAllToFinish_complaints_throttled (timeout start_time : Z)
    (rounds : list Round) :
  Z.of_nat (length rounds) <= Fixed.INT32_MAX →
  throttled 0 (MonoDelta_FromSeconds 1)
    (complaints (WaitForAllToFinish MonoDelta_ToString timeout start_time
                   rounds).2)
  ∧ (∀ a,
       complaints (WaitForAllToFinish MonoDelta_ToString timeout start_time
                     rounds).2 !! 0%nat = Some a →
       a > MonoDelta_FromSeconds 1)
  ∧ (∀ i a b,
       complaints (WaitForAllToFinish MonoDelta_ToString timeout start_time
                     rounds).2 !! i = Some a →
       complaints (WaitForAllToFinish MonoDelta_ToString timeout start_time
                     rounds).2 !! S i = Some b →
       b > a + MonoDelta_FromSeconds 2)
  ∧ (∀ outstanding waited dumped,
       Complaint outstanding waited dumped
         ∈ (WaitForAllToFinish MonoDelta_ToString timeout start_time rounds).2 →
       (0 < outstanding)%nat
       ∧ (dumped <= 50)%nat
       ∧ dumped = Nat.min outstanding 50).
Proof.
  intros Hlen. unfold WaitForAllToFinish.
  destruct (WaitForAllToFinish_loop_complaints timeout start_time rounds
              250 0 (start_time + MonoDelta_FromSeconds 1))
    as [Hthrottled Hevents]; [lia|lia|].
  replace (start_time + MonoDelta_FromSeconds 1 - start_time)
    with (MonoDelta_FromSeconds 1) in Hthrottled by lia.
  destruct (throttled_gap _ 0 _ ltac:(lia) Hthrottled) as [Hfirst Hgaps].
  split; [done|]. split; [done|]. split; [done|].
  intros outstanding waited dumped Hin.
  rewrite Forall_forall in Hevents. apply Hevents in Hin as [Hpos ->].
  unfold kMaxTxnsToPrint. split; [done|]. split; [lia|done].
Qed.

(** X8. The backoff never shrinks: each sleep of [WaitForAllToFinish] is at
    least as long as the one before, and none is shorter than 312
    microseconds. *)
Theorem WaitForAllToFinish_sleeps_grow (timeout start_time : Z)
    (rounds : list Round) :
  (∀ i a b,
     sleeps (WaitForAllToFinish MonoDelta_ToString timeout start_time rounds).2
       !! i = Some a →
     sleeps (WaitForAllToFinish MonoDelta_ToString timeout start_time rounds).2
       !! S i = Some b →
     a <= b)
  ∧ (∀ i a,
       sleeps (WaitForAllToFinish MonoDelta_ToString timeout start_time
                 rounds).2 !! i = Some a →
       MonoDelta_FromMicroseconds 312 <= a).
Proof.
  assert (Hgrow : ∀ w, 0 <= w <= 1000000 → w <= backoff w).
  { intros w Hw. unfold backoff. rewrite Z.quot_div_nonneg by lia.
    assert (w <= w * 5 / 4) by (apply Z.div_le_lower_bound; lia). lia. }
  assert (Hiter : ∀ k, 312 <= Nat.iter (S k) backoff 250).
  { induction k as [|k IH]; [by vm_compute|].
    rewrite Nat.iter_succ.
    pose proof (iter_backoff_range (S k) 250 ltac:(lia)) as Hrange.
    specialize (Hgrow _ Hrange). lia. }
  unfold WaitForAllToFinish. split.
  - intros i a b Ha Hb.
    apply WaitForAllToFinish_loop_sleeps in Ha; [|lia].
    apply WaitForAllToFinish_loop_sleeps in Hb; [|lia]. subst a b.
    unfold MonoDelta_FromMicroseconds. rewrite (Nat.iter_succ (S i)).
    pose proof (iter_backoff_range (S i) 250 ltac:(lia)) as Hrange.
    specialize (Hgrow _ Hrange). lia.
  - intros i a Ha. apply WaitForAllToFinish_loop_sleeps in Ha; [|lia]. subst a.
    unfold MonoDelta_FromMicroseconds. specialize (Hiter i). lia.
Qed.

End DrainingMore.

Lemma WaitForAllToFinish_forever_never_aborts_witness :
  (TransactionTracker.WaitForAllToFinish_forever pretty 0
     [TransactionTracker.mkRound Examples.busy_tracker 5000000000;
      TransactionTracker.mkRound TransactionTracker.new 9000000000]).1
  = Some (Returned ()).
Proof.
  apply (WaitForAllToFinish_forever_never_aborts pretty 0
           [TransactionTracker.mkRound Examples.busy_tracker 5000000000;
            TransactionTracker.mkRound TransactionTracker.new 9000000000]).
  repeat (apply List.Forall_cons; [by vm_compute|]). apply List.Forall_nil.
Defined.

Lemma WaitForAllToFinish_complaints_throttled_witness :
  TransactionTracker.complaints
    (TransactionTracker.WaitForAllToFinish pretty 100000000000 0
       [TransactionTracker.mkRound Examples.busy_tracker 1500000000;
        TransactionTracker.mkRound Examples.busy_tracker 2000000000;
        TransactionTracker.mkRound Examples.busy_tracker 3600000000]).2
  = [1500000000; 3600000000]
  ∧ 3600000000 > 1500000000 + TransactionTracker.MonoDelta_FromSeconds 2.
Proof.
  assert (Hrun : TransactionTracker.complaints
                   (TransactionTracker.WaitForAllToFinish pretty 100000000000 0
                      [TransactionTracker.mkRound Examples.busy_tracker 1500000000;
                       TransactionTracker.mkRound Examples.busy_tracker 2000000000;
                       TransactionTracker.mkRound Examples.busy_tracker 3600000000]).2
                 = [1500000000; 3600000000]) by (by vm_compute).
  split; [exact Hrun|].
  destruct (WaitForAllToFinish_complaints_throttled pretty 100000000000 0
              [TransactionTracker.mkRound Examples.busy_tracker 1500000000;
               TransactionTracker.mkRound Examples.busy_tracker 2000000000;
               TransactionTracker.mkRound Examples.busy_tracker 3600000000])
    as (_ & _ & Hgap & _); [by vm_compute|].
  apply (Hgap 0%nat); by rewrite Hrun.
Defined.

Section FlagsAndAdmission.
Import TransactionTracker.

Lemma reserve_up_unlimited (bytes : Z) (chain : list MemTracker.Node) :
  Forall (λ n, MemTracker.node_limit n < 0) chain →
  MemTracker.reserve_up bytes chain
    = Some (MemTracker.reserve bytes <$> chain).
Proof.
  induction 1 as [|n up Hn _ IH]; [done|]. simpl.
  unfold MemTracker.fits. rewrite bool_decide_eq_true_2 by done.
  by rewrite IH.
Qed.

Lemma TryConsume_fresh_child (bytes byte_limit : Z) (parent : MemTracker.t) :
  0 <= bytes <= byte_limit →
  Forall (λ n, MemTracker.node_limit n < 0)
    (MemTracker.own parent :: MemTracker.ancestors parent) →
  ∃ mt',
    MemTracker.TryConsume bytes (MemTracker.CreateTracker byte_limit parent)
      = (true, mt').
Proof.
  intros Hbytes Hparent.
  unfold MemTracker.TryConsume, MemTracker.CreateTracker.
  cbn [MemTracker.own MemTracker.ancestors].
  change (MemTracker.reserve_up bytes
            (MemTracker.mkNode byte_limit 0
             :: MemTracker.own parent :: MemTracker.ancestors parent))
    with (if MemTracker.fits bytes (MemTracker.mkNode byte_limit 0) then
            match MemTracker.reserve_up bytes
                    (MemTracker.own parent :: MemTracker.ancestors parent) with
            | Some up' =>
                Some (MemTracker.reserve bytes (MemTracker.mkNode byte_limit 0)
                      :: up')
            | None => None
            end
          else None).
  rewrite (reserve_up_unlimited _ _ Hparent).
  unfold MemTracker.fits. simpl.
  rewrite (bool_decide_eq_false_2 (byte_limit < 0)) by lia.
  rewrite bool_decide_eq_true_2 by lia. by eexists.
Qed.

(** X9. What the two flag validators buy.  When both accept the flags (and
    the limit in bytes fits an [int64_t]), a tracker that starts memory
    tracking under ancestors without limits, with nothing pending, admits
    any transaction whose request is no larger than
    [rpc_max_message_size]: no single message is unadmittable. *)
Theorem validated_flags_admit_any_message (limit_mb rpc_max_message_size : Z)
    (parent : MemTracker.t) (tr : t) (driver : TransactionDriver) :
  ValidateTransactionMemoryLimit limit_mb = true →
  ValidateTransactionMemoryAndRpcSize limit_mb rpc_max_message_size = true →
  Fixed.in_int64 (limit_mb * 1024 * 1024) →
  Forall (λ n, MemTracker.node_limit n < 0)
    (MemTracker.own parent :: MemTracker.ancestors parent) →
  pending_txns_ tr = ∅ →
  mem_tracker_ tr = None →
  0 <= request_SpaceUsed driver <= rpc_max_message_size →
  ∃ tr',
    Add driver (StartMemoryTracking limit_mb parent tr)
      = Returned (Status_OK, tr')
    ∧ pending_txns_ tr' !! driver_ptr driver
      = Some (mkState (request_SpaceUsed driver)).
Proof.
  intros Hlimit Hsizes Hrange Hparent Hempty Hnone Hsize.
  unfold ValidateTransactionMemoryLimit in Hlimit.
  destruct (bool_decide (limit_mb < -1)) eqn:Hlow; [done|].
  apply bool_decide_eq_false_1 in Hlow.
  unfold StartMemoryTracking.
  destruct (decide (limit_mb = -1)) as [->|Htracked].
  - rewrite bool_decide_eq_false_2 by (by intros H).
    unfold Add. rewrite Hnone, Hempty, lookup_empty.
    rewrite bool_decide_eq_true_2 by done. simpl.
    eexists. split; [reflexivity|]. simpl. apply lookup_insert_eq.
  - rewrite bool_decide_eq_true_2 by done. rewrite int64_mul_mb by done.
    assert (Hroom : rpc_max_message_size <= limit_mb * 1024 * 1024).
    { unfold ValidateTransactionMemoryAndRpcSize in Hsizes.
      rewrite int64_mul_mb in Hsizes by done.
      rewrite (bool_decide_eq_true_2 (limit_mb * 1024 * 1024 >= 0)) in Hsizes
        by lia.
      destruct (bool_decide (limit_mb * 1024 * 1024 < rpc_max_message_size))
        eqn:Hlt; [done|]. apply bool_decide_eq_false_1 in Hlt. lia. }
    destruct (TryConsume_fresh_child (request_SpaceUsed driver)
                (limit_mb * 1024 * 1024) parent) as [mt' Htry]; [lia|done|].
    unfold Add. cbn [mem_tracker_ pending_txns_ metrics_]. rewrite Htry.
    rewrite Hempty, lookup_empty. rewrite bool_decide_eq_true_2 by done. simpl.
    eexists. split; [reflexivity|]. simpl. apply lookup_insert_eq.
Qed.

Lemma validated_flags_admit_any_message_witness :
  ∃ tr',
    Add (Examples.write_2MiB 1)
      (StartMemoryTracking 64 Examples.root_tracker new)
      = Returned (Status_OK, tr').
Proof.
  destruct (validated_flags_admit_any_message 64 (50 * 1024 * 1024)
              Examples.root_tracker new (Examples.write_2MiB 1))
    as (tr' & HAdd & _); try reflexivity; try (by vm_compute).
  - apply List.Forall_cons; [by vm_compute|apply List.Forall_nil].
  - by exists tr'.
Defined.

Lemma run_calls_untracked (debug_build : bool) (cs : list Call) :
  ∀ tr tr',
    mem_tracker_ tr = None →
    forallb (λ c, match c with
                  | CallStartMemoryTracking limit_mb _ =>
                      bool_decide (limit_mb = -1)
                  | _ => true
                  end) cs = true →
    run_calls debug_build cs tr = Returned tr' →
    mem_tracker_ tr' = None.
Proof.
  induction cs as [|c cs IH]; intros tr tr' Hnone Hcs Hrun; simpl in *.
  - by inversion Hrun; subst.
  - apply andb_true_iff in Hcs as [Hc Hcs].
    destruct (run_call debug_build c tr) as [tr1|] eqn:Hcall;
      simpl in Hrun; [|done].
    apply (IH tr1 tr'); [|done|done].
    destruct c; simpl in Hcall.
    + by inversion Hcall; subst.
    + apply bool_decide_eq_true_1 in Hc. subst.
      by inversion Hcall; subst.
    + destruct (Add driver tr) as [[s tr2]|] eqn:HAdd; simpl in Hcall; [|done].
      inversion Hcall; subst tr1.
      apply Add_inv in HAdd as [(_ & _ & _ & _ & Hmem)|(_ & _ & Hmem & _)];
        [by rewrite Hnone in Hmem|congruence].
    + apply Release_inv in Hcall as (st & _ & _ & Hmem & _).
      by rewrite Hmem, Hnone.
Qed.

(** X10. A limit of [-1] turns memory tracking off for good.  On a new
    tracker, after any calls whose [StartMemoryTracking] all carry the flag
    [-1], no memory tracker is attached and no [Add] is rejected: an [Add]
    that returns returns OK, whatever the size of the request. *)
Theorem untracked_never_rejects (debug_build : bool) (cs : list Call)
    (tr : t) (driver : TransactionDriver) (s : Status) (tr' : t) :
  forallb (λ c, match c with
                | CallStartMemoryTracking limit_mb _ =>
                    bool_decide (limit_mb = -1)
                | _ => true
                end) cs = true →
  run_calls debug_build cs new = Returned tr →
  Add driver tr = Returned (s, tr') →
  mem_tracker_ tr = None ∧ s = Status_OK ∧ mem_tracker_ tr' = None.
Proof.
  intros Hcs Hrun HAdd.
  assert (Hnone : mem_tracker_ tr = None)
    by (by eapply (run_calls_untracked debug_build cs new tr)).
  split; [done|]. unfold Add in HAdd. rewrite Hnone in HAdd.
  destruct (CHECK _) as [[]|]; simpl in HAdd; [|done].
  by inversion HAdd.
Qed.

Lemma untracked_never_rejects_witness :
  ∃ tr tr',
    run_calls true
      [CallStartInstrumentation;
       CallStartMemoryTracking (-1) Examples.root_tracker;
       CallAdd (Examples.write_2MiB 1)] new = Returned tr
    ∧ Add (Examples.write_2MiB 2) tr = Returned (Status_OK, tr').
Proof.
  destruct (run_calls true
              [CallStartInstrumentation;
               CallStartMemoryTracking (-1) Examples.root_tracker;
               CallAdd (Examples.write_2MiB 1)] new) as [tr|] eqn:Hrun;
    [|by vm_compute in Hrun].
  destruct (Add (Examples.write_2MiB 2) tr) as [[s tr']|] eqn:HAdd;
    [|vm_compute in Hrun; inversion Hrun; subst; by vm_compute in HAdd].
  destruct (untracked_never_rejects true
              [CallStartInstrumentation;
               CallStartMemoryTracking (-1) Examples.root_tracker;
               CallAdd (Examples.write_2MiB 1)]
              tr (Examples.write_2MiB 2) s tr'
              eq_refl Hrun HAdd) as (_ & -> & _).
  exists tr, tr'. split; [reflexivity|exact HAdd].
Defined.

End FlagsAndAdmission.


(** * Further properties of the tablet manager *)

Section Registry.
Import TSTabletManager.

(** X11. Registration and lookup.  [RegisterTablet] of an identifier that is
    not in the tablet map returns, after which [GetTabletPeer] finds the
    registered peer under it and answers for every other identifier as
    before; registering an identifier twice aborts the process; and
    [GetTabletPeer] of an unknown identifier returns not-found. *)
Theorem RegisterTablet_then_GetTabletPeer :
  (∀ tablet_id tablet_peer m,
     tablet_map_ m !! tablet_id = None →
     ∃ m',
       RegisterTablet tablet_id tablet_peer m = Returned m'
       ∧ GetTabletPeer tablet_id m' = (Status_OK, Some tablet_peer)
       ∧ LookupTablet tablet_id m' = Some tablet_peer
       ∧ (∀ id, id ≠ tablet_id → GetTabletPeer id m' = GetTabletPeer id m)
       ∧ size (tablet_map_ m') = S (size (tablet_map_ m))
       ∧ RegisterTablet tablet_id tablet_peer m' = Aborted)
  ∧ (∀ tablet_id tablet_peer m,
       is_Some (tablet_map_ m !! tablet_id) →
       RegisterTablet tablet_id tablet_peer m = Aborted)
  ∧ (∀ tablet_id m,
       tablet_map_ m !! tablet_id = None →
       ∃ s, GetTabletPeer tablet_id m = (s, None) ∧ code s = kNotFound).
Proof.
  split; [|split].
  - intros tablet_id tablet_peer m Hfree.
    unfold RegisterTablet. rewrite Hfree. eexists. split; [reflexivity|].
    unfold GetTabletPeer, LookupTablet, LookupTabletUnlocked. simpl.
    rewrite lookup_insert_eq. repeat split.
    + intros id Hid. by rewrite lookup_insert_ne.
    + by apply map_size_insert_None.
  - intros tablet_id tablet_peer m [h Hh]. unfold RegisterTablet. by rewrite Hh.
  - intros tablet_id m Hnone. unfold GetTabletPeer, LookupTabletUnlocked.
    rewrite Hnone. by eexists.
Qed.

End Registry.

Section CreationOutcomes.
Import TSTabletManager.

Variable TabletPeer_new : TabletMetadata → string → TabletPeer.

(** X12. What a [CreateNewTablet] of a new tablet leaves behind, by what
    the collaborators answer.  When the metadata cannot be created or the
    master block cannot be persisted, the call returns that error, with its
    own message in front, and nothing is registered.  Once both succeed the
    new peer, built on metadata whose quorum has sequence number [-1]
    whatever the caller passed, is registered under the tablet identifier
    and stays registered even when the bootstrap job cannot be submitted;
    the call then returns the submission error and no peer, and otherwise
    OK and the new peer.  No case touches the dirty map, the report
    sequence, the state or the creations in progress. *)
Theorem CreateNewTablet_outcomes (env : CreateEnv)
    (table_id tablet_id start_key end_key table_name : string)
    (schema : Schema) (quorum : QuorumPB) (m : t) :
  state_ m = MANAGER_RUNNING →
  check_local_quorum quorum m = Returned () →
  tablet_map_ m !! tablet_id = None →
  tablet_id ∉ creates_in_progress_ m →
  ∃ s tablet_peer m',
    CreateNewTablet TabletPeer_new env table_id tablet_id start_key end_key
      table_name schema quorum m = Returned (s, tablet_peer, m')
    ∧ dirty_tablets_ m' = dirty_tablets_ m
    ∧ next_report_seq_ m' = next_report_seq_ m
    ∧ state_ m' = state_ m
    ∧ creates_in_progress_ m' = creates_in_progress_ m
    ∧ (Status_ok (CreateNew_status env) = false →
       s = CloneAndPrepend "Couldn't create tablet metadata"
             (CreateNew_status env)
       ∧ tablet_peer = None
       ∧ tablet_map_ m' = tablet_map_ m
       ∧ peer_at m' = peer_at m)
    ∧ (Status_ok (CreateNew_status env) = true →
       Status_ok (PersistMasterBlock_status env) = false →
       s = CloneAndPrepend "Couldn't persist master block for new tablet"
             (PersistMasterBlock_status env)
       ∧ tablet_peer = None
       ∧ tablet_map_ m' = tablet_map_ m
       ∧ peer_at m' = peer_at m)
    ∧ (Status_ok (CreateNew_status env) = true →
       Status_ok (PersistMasterBlock_status env) = true →
       tablet_map_ m' = <[tablet_id := next_peer m]> (tablet_map_ m)
       ∧ GetTabletPeer tablet_id m' = (Status_OK, Some (next_peer m))
       ∧ peer_at m' (next_peer m)
         = TabletPeer_new
             (mkMetadata tablet_id table_id table_name schema 0
                (mkQuorumPB (local quorum) (peers quorum) (-1))
                start_key end_key)
             (server_uuid m)
       ∧ (∀ h, h ≠ next_peer m → peer_at m' h = peer_at m h)
       ∧ (if Status_ok (SubmitFunc_status env)
          then s = Status_OK ∧ tablet_peer = Some (next_peer m)
          else s = SubmitFunc_status env ∧ tablet_peer = None)).
Proof.
  intros Hrunning Hquorum Hfree Hnotin.
  assert (Hcip : ({[tablet_id]} ∪ creates_in_progress_ m) ∖ {[tablet_id]}
                 = creates_in_progress_ m) by set_solver.
  unfold CreateNewTablet. rewrite Hrunning, Hquorum. simpl.
  rewrite (CreateNewTablet_reserve_fresh tablet_id m Hfree Hnotin).
  unfold CreateNewTablet_build, CreatesInProgressDeleter_dtor.
  destruct (Status_ok (CreateNew_status env)) eqn:Hcreate; simpl.
  - destruct (Status_ok (PersistMasterBlock_status env)) eqn:Hpersist; simpl.
    + unfold RegisterTablet; simpl. rewrite Hfree. simpl.
      destruct (Status_ok (SubmitFunc_status env)) eqn:Hsubmit; simpl;
        rewrite bool_decide_eq_true_2 by set_solver; simpl;
        eexists _, _, _; (split; [reflexivity|]); simpl;
        rewrite Hcip; repeat split; try done;
        try (unfold GetTabletPeer, LookupTabletUnlocked; simpl;
             by rewrite lookup_insert_eq);
        try apply fn_lookup_insert;
        try (intros h Hh; by apply fn_lookup_insert_ne).
    + rewrite bool_decide_eq_true_2 by set_solver. simpl.
      eexists _, _, _. split; [reflexivity|]. simpl. rewrite Hcip.
      by repeat split.
  - rewrite bool_decide_eq_true_2 by set_solver. simpl.
    eexists _, _, _. split; [reflexivity|]. simpl. rewrite Hcip.
    by repeat split.
Qed.


End CreationOutcomes.

Lemma CreateNewTablet_outcomes_witness :
  ∃ s m',
    TSTabletManager.CreateNewTablet Examples.new_peer Examples.all_ok
      "table" "t3" "" "" "orders" (TSTabletManager.mkSchema ["key"])
      Examples.no_quorum Examples.empty_manager = Returned (s, Some 2%N, m')
    ∧ TSTabletManager.GetTabletPeer "t3" m' = (Status_OK, Some 2%N).
Proof.
  destruct (CreateNewTablet_outcomes Examples.new_peer Examples.all_ok
              "table" "t3" "" "" "orders" (TSTabletManager.mkSchema ["key"])
              Examples.no_quorum Examples.empty_manager)
    as (s & tablet_peer & m' & Hcall & _ & _ & _ & _ & _ & _ & Hok);
    [reflexivity|reflexivity|reflexivity|simpl; set_solver|].
  destruct (Hok eq_refl eq_refl) as (_ & Hfound & _ & _ & Hreturned).
  simpl in Hreturned. destruct Hreturned as [_ ->].
  by exists s, m'.
Defined.


Section ManagerLifecycle.
Import TSTabletManager.

Variable TabletPeer_Shutdown : TabletPeer → TabletStatePB * TabletPeer.
Variable TabletPeer_new : TabletMetadata → string → TabletPeer.
Variable IsTabletFileName : string → bool.

Lemma foldl_shutdown_peer (l : list N) :
  ∀ m,
    tablet_map_ (foldl (shutdown_peer TabletPeer_Shutdown) m l) = tablet_map_ m
    ∧ dirty_tablets_ (foldl (shutdown_peer TabletPeer_Shutdown) m l)
      = dirty_tablets_ m
    ∧ creates_in_progress_ (foldl (shutdown_peer TabletPeer_Shutdown) m l)
      = creates_in_progress_ m
    ∧ next_report_seq_ (foldl (shutdown_peer TabletPeer_Shutdown) m l)
      = next_report_seq_ m
    ∧ state_ (foldl (shutdown_peer TabletPeer_Shutdown) m l) = state_ m
    ∧ (∀ h, h ∉ l →
         peer_at (foldl (shutdown_peer TabletPeer_Shutdown) m l) h = peer_at m h)
    ∧ (NoDup l → ∀ h, h ∈ l →
         peer_at (foldl (shutdown_peer TabletPeer_Shutdown) m l) h
           = (TabletPeer_Shutdown (peer_at m h)).2).
Proof.
  induction l as [|h0 l IH]; intros m; simpl.
  - repeat split; try done. intros _ h Hh. inversion Hh.
  - destruct (IH (shutdown_peer TabletPeer_Shutdown m h0))
      as (-> & -> & -> & -> & -> & Hout & Hin).
    repeat split; try done.
    + intros h Hh. apply not_elem_of_cons in Hh as [Hne Hh].
      rewrite Hout by done. simpl. by apply fn_lookup_insert_ne.
    + intros Hnodup h Hh. apply NoDup_cons in Hnodup as [Hfresh Hnodup].
      apply elem_of_cons in Hh as [->|Hh].
      * rewrite Hout by done. simpl. apply fn_lookup_insert.
      * rewrite Hin by done. simpl.
        rewrite fn_lookup_insert_ne; [done|]. by intros ->.
Qed.

(** X14. [Shutdown] of the manager never aborts.  Called on a manager
    that is initializing or running, it shuts down the registered peers
    (each once, when no peer is registered twice) and no other, empties the
    tablet map and ends in state shutdown, leaving the dirty map, the report
    sequence and the creations in progress alone; afterwards every lookup
    returns not-found and [CreateNewTablet] aborts.  Called on a manager
    that is quiescing or shut down, it changes nothing, so a second
    [Shutdown] has no effect. *)
Theorem Shutdown_spec (m : t) :
  ∃ m',
    Shutdown TabletPeer_Shutdown m = Returned m'
    ∧ Shutdown TabletPeer_Shutdown m' = Returned m'
    ∧ (state_ m = MANAGER_QUIESCING ∨ state_ m = MANAGER_SHUTDOWN → m' = m)
    ∧ (state_ m = MANAGER_INITIALIZING ∨ state_ m = MANAGER_RUNNING →
       state_ m' = MANAGER_SHUTDOWN
       ∧ tablet_map_ m' = ∅
       ∧ dirty_tablets_ m' = dirty_tablets_ m
       ∧ next_report_seq_ m' = next_report_seq_ m
       ∧ creates_in_progress_ m' = creates_in_progress_ m
       ∧ (∀ id, ∃ s, GetTabletPeer id m' = (s, None) ∧ code s = kNotFound)
       ∧ (∀ h, h ∉ GetTabletPeers m [] → peer_at m' h = peer_at m h)
       ∧ (NoDup (GetTabletPeers m []) →
          ∀ h, h ∈ GetTabletPeers m [] →
               peer_at m' h = (TabletPeer_Shutdown (peer_at m h)).2)
       ∧ ∀ env table_id tablet_id start_key end_key table_name schema quorum,
           CreateNewTablet TabletPeer_new env table_id tablet_id start_key
             end_key table_name schema quorum m' = Aborted).
Proof.
  assert (Hgo : state_ m = MANAGER_INITIALIZING ∨ state_ m = MANAGER_RUNNING →
            ∃ m',
              Shutdown TabletPeer_Shutdown m = Returned m'
              ∧ m' = set_state MANAGER_SHUTDOWN
                       (set_tablet_map ∅
                          (foldl (shutdown_peer TabletPeer_Shutdown)
                             (set_state MANAGER_QUIESCING m)
                             (GetTabletPeers m [])))).
  { intros Hstate. unfold Shutdown.
    set (m1 := set_state MANAGER_QUIESCING m).
    destruct (foldl_shutdown_peer (GetTabletPeers m1 []) m1) as (Hmap & _).
    assert (Hcheck : bool_decide
                       (size (tablet_map_
                                (foldl (shutdown_peer TabletPeer_Shutdown) m1
                                   (GetTabletPeers m1 [])))
                        = length (GetTabletPeers m1 [])) = true).
    { apply bool_decide_eq_true_2. rewrite Hmap.
      unfold GetTabletPeers. simpl.
      by rewrite length_fmap, length_map_to_list. }
    destruct Hstate as [->| ->]; fold m1; rewrite Hcheck; simpl; by eexists. }
  destruct (state_ m) eqn:Hstate.
  - destruct Hgo as (m' & Hcall & ->); [by left|].
    exists (set_state MANAGER_SHUTDOWN
              (set_tablet_map ∅
                 (foldl (shutdown_peer TabletPeer_Shutdown)
                    (set_state MANAGER_QUIESCING m) (GetTabletPeers m [])))).
    destruct (foldl_shutdown_peer (GetTabletPeers m [])
                (set_state MANAGER_QUIESCING m))
      as (Hmap & Hdirty & Hcip & Hseq & _ & Hout & Hin).
    split; [done|]. split; [done|]. split; [by intros [?|?]|]. intros _. simpl.
    repeat split; try done.
    + intros id. unfold GetTabletPeer, LookupTabletUnlocked. simpl.
      rewrite lookup_empty. by eexists.
  - destruct Hgo as (m' & Hcall & ->); [by right|].
    exists (set_state MANAGER_SHUTDOWN
              (set_tablet_map ∅
                 (foldl (shutdown_peer TabletPeer_Shutdown)
                    (set_state MANAGER_QUIESCING m) (GetTabletPeers m [])))).
    destruct (foldl_shutdown_peer (GetTabletPeers m [])
                (set_state MANAGER_QUIESCING m))
      as (Hmap & Hdirty & Hcip & Hseq & _ & Hout & Hin).
    split; [done|]. split; [done|]. split; [by intros [?|?]|]. intros _. simpl.
    repeat split; try done.
    + intros id. unfold GetTabletPeer, LookupTabletUnlocked. simpl.
      rewrite lookup_empty. by eexists.
  - exists m. unfold Shutdown. rewrite Hstate.
    split; [done|]. split; [done|]. split; [done|]. by intros [?|?].
  - exists m. unfold Shutdown. rewrite Hstate.
    split; [done|]. split; [done|]. split; [done|]. by intros [?|?].
Qed.

Lemma OpenTabletMeta_inv (env : InitEnv) (tablet_id : string) (s : Status)
    (meta : option TabletMetadata) :
  OpenTabletMeta env tablet_id = (s, meta) →
  match meta with
  | Some _ => s = Status_OK
  | None => Status_ok s = false
  end.
Proof.
  unfold OpenTabletMeta.
  destruct (LoadMasterBlock_result env tablet_id) as [s1 master_block].
  destruct (Status_ok s1) eqn:Hs1; simpl.
  - destruct (TabletMetadata_Load_result env master_block) as [s2 meta2].
    destruct (Status_ok s2) eqn:Hs2; simpl; intros [= <- <-]; [done|].
    unfold Status_ok, CloneAndPrepend in *. by simpl.
  - by intros [= <- <-].
Qed.

Lemma Init_register_inv (env : InitEnv) (tablets : list string) :
  ∀ m s m',
    Init_register TabletPeer_new env tablets m = Returned (s, m') →
    tablet_map_ m ⊆ tablet_map_ m'
    ∧ dirty_tablets_ m' = dirty_tablets_ m
    ∧ creates_in_progress_ m' = creates_in_progress_ m
    ∧ next_report_seq_ m' = next_report_seq_ m
    ∧ state_ m' = state_ m
    ∧ (Status_ok s = true →
       s = Status_OK
       ∧ ∀ tablet, tablet ∈ tablets →
           ∃ meta,
             OpenTabletMeta env tablet = (Status_OK, Some meta)
             ∧ is_Some (tablet_map_ m' !! oid meta)).
Proof.
  induction tablets as [|tablet tablets IH]; intros m s m' H; simpl in H.
  - inversion H; subst. repeat split; try done.
    intros tablet Hin. inversion Hin.
  - destruct (OpenTabletMeta env tablet) as [s0 [meta|]] eqn:Hopen.
    + apply OpenTabletMeta_inv in Hopen as Hs0. subst s0.
      unfold RegisterTablet in H; simpl in H.
      destruct (tablet_map_ m !! oid meta) eqn:Hfree; [done|]. simpl in H.
      destruct (Status_ok (Init_SubmitFunc_status env tablet)) eqn:Hsubmit;
        simpl in H.
      * apply IH in H as (Hsub & -> & -> & -> & -> & Hok). simpl in *.
        split_and!; try done.
        { etrans; [|exact Hsub]. by apply insert_subseteq. }
        intros Hs. destruct (Hok Hs) as [-> Hall]. split; [done|].
        intros tablet' [->|Hin]%elem_of_cons; [|by apply Hall].
        exists meta. split; [done|].
        eapply lookup_weaken_is_Some; [|exact Hsub].
        rewrite lookup_insert_eq. by eexists.
      * inversion H; subst. simpl. split_and!; try done.
        { by apply insert_subseteq. }
        intros Hs; congruence.
    + apply OpenTabletMeta_inv in Hopen as Hs0.
      inversion H; subst. split_and!; try done.
      unfold Status_ok, CloneAndPrepend in *; simpl; intros Hs; congruence.
Qed.

(** X15. [Init] registers the tablets it finds and is one-shot.  It aborts
    unless the manager is initializing.  When it returns, no entry of the
    tablet map has been removed or changed, and the dirty map, the report
    sequence and the creations in progress are as before.  With status OK
    the manager is running and the tablet of every listed name that is a
    tablet file name is registered, and a second [Init] aborts.  With an
    error the manager stays initializing, with the tablets registered so far
    still in the map; when the listing itself fails nothing has changed. *)
Theorem Init_spec (env : InitEnv) (m : t) :
  (state_ m ≠ MANAGER_INITIALIZING →
   Init TabletPeer_new IsTabletFileName env m = Aborted)
  ∧ ∀ s m',
      Init TabletPeer_new IsTabletFileName env m = Returned (s, m') →
      state_ m = MANAGER_INITIALIZING
      ∧ tablet_map_ m ⊆ tablet_map_ m'
      ∧ dirty_tablets_ m' = dirty_tablets_ m
      ∧ next_report_seq_ m' = next_report_seq_ m
      ∧ creates_in_progress_ m' = creates_in_progress_ m
      ∧ (Status_ok s = true →
         s = Status_OK
         ∧ state_ m' = MANAGER_RUNNING
         ∧ (∀ child,
              child ∈ (ListDir_result env).2 →
              IsTabletFileName child = true →
              ∃ meta,
                OpenTabletMeta env child = (Status_OK, Some meta)
                ∧ is_Some (tablet_map_ m' !! oid meta))
         ∧ ∀ env2, Init TabletPeer_new IsTabletFileName env2 m' = Aborted)
      ∧ (Status_ok s = false → state_ m' = MANAGER_INITIALIZING)
      ∧ (Status_ok (ListDir_result env).1 = false →
         m' = m
         ∧ s = CloneAndPrepend "Couldn't list master blocks"
                 (ListDir_result env).1).
Proof.
  split.
  - intros Hstate. unfold Init. by rewrite bool_decide_eq_false_2.
  - intros s m'. unfold Init.
    case_bool_decide as Hstate; simpl; [|done].
    destruct (ListDir_result env) as [s0 children]. simpl.
    destruct (Status_ok s0) eqn:Hs0; simpl.
    + destruct (Init_register TabletPeer_new env
                  (List.filter IsTabletFileName children) m)
        as [[s1 m1]|] eqn:Hreg; simpl; [|done].
      apply Init_register_inv in Hreg
        as (Hsub & Hdirty & Hcip & Hseq & Hst & Hok).
      destruct (Status_ok s1) eqn:Hs1; simpl; intros [= <- <-]; simpl.
      * split_and!; try done. intros _. split_and!; try done.
        intros child Hchild Hname. apply (proj2 (Hok eq_refl)).
        apply list_elem_of_In, filter_In. by rewrite <- list_elem_of_In.
      * split_and!; try done; intros; congruence.
    + intros [= <- <-]. split_and!; try done.
      unfold Status_ok, CloneAndPrepend in *; simpl; intros; congruence.
Qed.

Lemma first_failure_cases (m : t) (s : Status) (e : string * N) :
  ((peer_state (peer_at m e.2) ≠ FAILED ∨ Status_ok s = false)
   ∧ first_failure m s e = s)
  ∨ (peer_state (peer_at m e.2) = FAILED
     ∧ Status_ok s = true
     ∧ first_failure m s e = peer_error (peer_at m e.2)).
Proof.
  unfold first_failure. case_bool_decide as Hfailed; [|left; auto].
  destruct (Status_ok s) eqn:Hs; [right; auto|left; auto].
Qed.

Lemma foldl_first_failure (m : t) (l : list (string * N)) :
  ∀ s,
    (Status_ok s = false → foldl (first_failure m) s l = s)
    ∧ (Forall (λ e, peer_state (peer_at m e.2) ≠ FAILED) l →
       foldl (first_failure m) s l = s)
    ∧ (foldl (first_failure m) s l = s
       ∨ ∃ e, e ∈ l ∧ peer_state (peer_at m e.2) = FAILED
              ∧ foldl (first_failure m) s l = peer_error (peer_at m e.2))
    ∧ (Exists (λ e, peer_state (peer_at m e.2) = FAILED) l →
       Forall (λ e, peer_state (peer_at m e.2) = FAILED →
                    Status_ok (peer_error (peer_at m e.2)) = false) l →
       Status_ok (foldl (first_failure m) s l) = false).
Proof.
  induction l as [|e l IH]; intros s.
  - split_and!; try done; [by left|]. intros H. inversion H.
  - cbn [foldl].
    destruct (IH (first_failure m s e)) as (Hbad & Hnone & Hsome & Hexists).
    destruct (first_failure_cases m s e)
      as [[Hcase Hsame]|(Hfailed & Hs & Hfirst)].
    + rewrite Hsame in *. split_and!.
      * done.
      * intros [_ Hrest]%Forall_cons. by apply Hnone.
      * destruct Hsome as [?|(e' & Hin & Hf & Heq)]; [by left|].
        right. exists e'. split; [by apply list_elem_of_further|]. by split.
      * intros Hex [He Hall]%Forall_cons.
        destruct Hcase as [Hne|Hs]; [|by rewrite Hbad].
        apply Exists_cons in Hex as [?|Hex]; [done|]. by apply Hexists.
    + rewrite Hfirst in *. split_and!.
      * intros Hs'. congruence.
      * intros [Hne _]%Forall_cons. done.
      * right. destruct Hsome as [Heq|(e' & Hin & Hf & Heq)].
        -- exists e. split; [apply list_elem_of_here|]. by split.
        -- exists e'. split; [by apply list_elem_of_further|]. by split.
      * intros _ [He _]%Forall_cons. rewrite Hbad; by apply He.
Qed.

(** X16. [WaitForAllBootstrapsToFinish] aborts unless the manager is
    running.  On a running manager it returns OK when no registered peer
    has failed, and otherwise a status that is the error of a failed
    registered peer (the first met), which is not OK as long as failed
    peers carry errors. *)
Theorem WaitForAllBootstrapsToFinish_spec (m : t) :
  (state_ m ≠ MANAGER_RUNNING → WaitForAllBootstrapsToFinish m = Aborted)
  ∧ (state_ m = MANAGER_RUNNING →
     ∃ s,
       WaitForAllBootstrapsToFinish m = Returned s
       ∧ ((∀ id h, tablet_map_ m !! id = Some h →
                   peer_state (peer_at m h) ≠ FAILED) →
          s = Status_OK)
       ∧ (s = Status_OK
          ∨ ∃ id h, tablet_map_ m !! id = Some h
                    ∧ peer_state (peer_at m h) = FAILED
                    ∧ s = peer_error (peer_at m h))
       ∧ ((∃ id h, tablet_map_ m !! id = Some h
                   ∧ peer_state (peer_at m h) = FAILED) →
          (∀ id h, tablet_map_ m !! id = Some h →
                   peer_state (peer_at m h) = FAILED →
                   Status_ok (peer_error (peer_at m h)) = false) →
          Status_ok s = false)).
Proof.
  unfold WaitForAllBootstrapsToFinish. split.
  - intros Hstate. by rewrite bool_decide_eq_false_2.
  - intros Hstate. rewrite bool_decide_eq_true_2 by done. simpl.
    eexists. split; [reflexivity|].
    destruct (foldl_first_failure m (map_to_list (tablet_map_ m)) Status_OK)
      as (_ & Hnone & Hsome & Hexists).
    split; [|split].
    + intros Hall. apply Hnone. apply Forall_forall. intros [id h] Hin.
      apply elem_of_map_to_list in Hin. by eapply Hall.
    + destruct Hsome as [Heq|([id h] & Hin & Hf & Heq)]; [by left|].
      right. exists id, h. apply elem_of_map_to_list in Hin. by repeat split.
    + intros (id & h & Hh & Hfailed) Herrors. apply Hexists.
      * apply Exists_exists. exists (id, h).
        split; [by apply elem_of_map_to_list|done].
      * apply Forall_forall. intros [id' h'] Hin.
        apply elem_of_map_to_list in Hin. simpl. by apply (Herrors id').
Qed.

End ManagerLifecycle.

(** ** Marks, reports and acknowledgements *)

Section ReportProtocol.
Import TSTabletManager.

Variable TabletPeer_Shutdown : TabletPeer → TabletStatePB * TabletPeer.
Variable TabletPeer_new : TabletMetadata → string → TabletPeer.

Lemma CreateNewTablet_build_seq (env : CreateEnv)
    (table_id tablet_id start_key end_key table_name : string)
    (schema : Schema) (quorum : QuorumPB) (m m' : t) (s : Status)
    (tablet_peer : option N) :
  CreateNewTablet_build TabletPeer_new env table_id tablet_id start_key
    end_key table_name schema quorum m = Returned (s, tablet_peer, m') →
  next_report_seq_ m' = next_report_seq_ m.
Proof.
  unfold CreateNewTablet_build. intros H.
  destruct (Status_ok (CreateNew_status env)); simpl in H;
    [|by inversion H; subst].
  destruct (Status_ok (PersistMasterBlock_status env)); simpl in H;
    [|by inversion H; subst].
  unfold RegisterTablet in H; simpl in H.
  destruct (tablet_map_ m !! tablet_id); simpl in H; [done|].
  destruct (Status_ok (SubmitFunc_status env)); simpl in H;
    by inversion H; subst.
Qed.

Lemma CreateNewTablet_seq (env : CreateEnv)
    (table_id tablet_id start_key end_key table_name : string)
    (schema : Schema) (quorum : QuorumPB) (m m' : t) (s : Status)
    (tablet_peer : option N) :
  CreateNewTablet TabletPeer_new env table_id tablet_id start_key end_key
    table_name schema quorum m = Returned (s, tablet_peer, m') →
  next_report_seq_ m' = next_report_seq_ m.
Proof.
  unfold CreateNewTablet. intros H.
  destruct (CHECK (bool_decide (state_ m = MANAGER_RUNNING))) as [[]|];
    simpl in H; [|done].
  destruct (check_local_quorum quorum m) as [[]|]; simpl in H; [|done].
  unfold CreateNewTablet_reserve in H.
  destruct (LookupTabletUnlocked tablet_id m); [by inversion H; subst|].
  destruct (bool_decide (tablet_id ∈ creates_in_progress_ m));
    [by inversion H; subst|].
  destruct (CreateNewTablet_build _ _ _ _ _ _ _ _ _ _)
    as [[[s2 p2] m2]|] eqn:Hbuild; simpl in H; [|done].
  apply CreateNewTablet_build_seq in Hbuild.
  unfold CreatesInProgressDeleter_dtor in H.
  destruct (CHECK (bool_decide (tablet_id ∈ creates_in_progress_ m2)))
    as [[]|]; simpl in H; [|done].
  inversion H; subst. simpl. by rewrite Hbuild.
Qed.

(** One call under report sequence [n + 1]: the sequence stays, the tablet
    the call marks gets the entry [n + 1], entries at [n + 1] stay as they
    are, and every entry found afterwards was marked by the call or was
    there before. *)
Lemma run_call_marks (n : Z) (c : Call) (m m' : t) :
  run_call TabletPeer_Shutdown TabletPeer_new c m = Returned m' →
  next_report_seq_ m = n + 1 →
  next_report_seq_ m' = n + 1
  ∧ (∀ id,
       id ∈ match c with
            | CallMarkTabletDirty tablet_peer =>
                ({[ TabletPeer_tablet_id (peer_at m tablet_peer) ]}
                   : gset string)
            | _ => ∅
            end
       ∨ dirty_tablets_ m !! id = Some (mkReportState (n + 1)) →
       dirty_tablets_ m' !! id = Some (mkReportState (n + 1)))
  ∧ (∀ id st,
       dirty_tablets_ m' !! id = Some st →
       id ∈ match c with
            | CallMarkTabletDirty tablet_peer =>
                ({[ TabletPeer_tablet_id (peer_at m tablet_peer) ]}
                   : gset string)
            | _ => ∅
            end
       ∨ dirty_tablets_ m !! id = Some st).
Proof.
  destruct c; simpl; intros H Hseq.
  - destruct (CreateNewTablet _ _ _ _ _ _ _ _ _ m) as [[[s p] m1]|] eqn:Hc;
      simpl in H; [|done].
    inversion H; subst m'. simpl.
    apply CreateNewTablet_seq in Hc as Hs.
    apply (CreateNewTablet_dirty TabletPeer_new) in Hc. rewrite Hc, Hs.
    split_and!; [done| |by right]. intros id [Hin|Hid]; [set_solver|done].
  - destruct (DeleteTablet _ _ m) as [[s m1]|] eqn:Hd; simpl in H; [|done].
    inversion H; subst m'. simpl.
    apply DeleteTablet_inv in Hd
      as [(_ & _ & ->)|(_ & _ & _ & tablet & _ & _ & ->)]; simpl;
      (split_and!; [done| |by right]);
      (intros id [Hin|Hid]; [set_solver|done]).
  - unfold RegisterTablet in H.
    destruct (tablet_map_ m !! tablet_id); [done|].
    inversion H; subst m'. simpl.
    split_and!; [done| |by right]. intros id [Hin|Hid]; [set_solver|done].
  - unfold MarkTabletDirty, MarkDirtyUnlocked in H.
    assert (Hm' : m' = set_dirty_tablets
                         (<[TabletPeer_tablet_id (peer_at m tablet_peer)
                            := mkReportState (next_report_seq_ m)]>
                            (dirty_tablets_ m)) m).
    { destruct (dirty_tablets_ m !! _) as [st|].
      - destruct (CHECK _) as [[]|]; simpl in H; [|done]. by inversion H.
      - by inversion H. }
    subst m'. simpl. rewrite Hseq. split_and!; [done| |].
    + intros id [Hin|Hid].
      * apply elem_of_singleton in Hin as ->. by rewrite lookup_insert_eq.
      * destruct (decide (id = TabletPeer_tablet_id (peer_at m tablet_peer)))
          as [->|Hne]; [by rewrite lookup_insert_eq|].
        by rewrite lookup_insert_ne.
    + intros id st.
      destruct (decide (id = TabletPeer_tablet_id (peer_at m tablet_peer)))
        as [->|Hne]; [left; set_solver|].
      rewrite lookup_insert_ne by done. by right.
  - unfold MarkTabletReportAcknowledged in H.
    destruct (bool_decide (sequence_number report < next_report_seq_ m))
      eqn:Hlt; simpl in H; [|done].
    apply bool_decide_eq_true_1 in Hlt.
    inversion H; subst m'. simpl. split_and!; [done| |].
    + intros id [Hin|Hid]; [set_solver|].
      apply ack_loop_lookup. split; [done|]. simpl. lia.
    + intros id st [Hid _]%ack_loop_lookup. by right.
Qed.

Lemma run_calls_marks (n : Z) (cs : list Call) :
  ∀ m m',
    run_calls TabletPeer_Shutdown TabletPeer_new cs m = Returned m' →
    next_report_seq_ m = n + 1 →
    next_report_seq_ m' = n + 1
    ∧ (∀ id,
         id ∈ marked_dirty TabletPeer_Shutdown TabletPeer_new cs m
         ∨ dirty_tablets_ m !! id = Some (mkReportState (n + 1)) →
         dirty_tablets_ m' !! id = Some (mkReportState (n + 1)))
    ∧ (∀ id st,
         dirty_tablets_ m' !! id = Some st →
         id ∈ marked_dirty TabletPeer_Shutdown TabletPeer_new cs m
         ∨ dirty_tablets_ m !! id = Some st).
Proof.
  induction cs as [|c cs IH]; intros m m' H Hseq; simpl in H.
  - inversion H; subst. split_and!; [done| |by right].
    intros id [Hin|Hid]; [set_solver|done].
  - destruct (run_call TabletPeer_Shutdown TabletPeer_new c m) as [m1|] eqn:Hc;
      simpl in H; [|done].
    destruct (run_call_marks n c m m1 Hc Hseq) as (Hseq1 & Hkeep1 & Hfrom1).
    destruct (IH m1 m' H Hseq1) as (Hseq' & Hkeep & Hfrom).
    simpl. rewrite Hc. split_and!; [done| |].
    + intros id [[Hin|Hin]%elem_of_union|Hid]; apply Hkeep.
      * right. apply Hkeep1. by left.
      * by left.
      * right. apply Hkeep1. by right.
    + intros id st Hid. destruct (Hfrom id st Hid) as [Hin|Hid1].
      * left. apply elem_of_union. by right.
      * destruct (Hfrom1 id st Hid1) as [Hin|Hid0]; [|by right].
        left. apply elem_of_union. by left.
Qed.

(** X17. The bound that [MarkDirtyUnlocked] checks is an invariant: every
    dirty entry carries a sequence number at most [next_report_seq_].  It
    holds of a new manager, it is kept by every call of [CreateNewTablet],
    [DeleteTablet], [RegisterTablet], [MarkTabletDirty] and
    [MarkTabletReportAcknowledged] that returns and, as long as the report
    counter does not wrap around, by both report generators.  Under it
    [MarkTabletDirty] never aborts and leaves the peer's tablet dirty at the
    current sequence number; against an entry above the counter it aborts. *)
Theorem dirty_bounded_invariant :
  (∀ uuid peers next, dirty_bounded (construct uuid peers next))
  ∧ (∀ c m m',
       dirty_bounded m →
       run_call TabletPeer_Shutdown TabletPeer_new c m = Returned m' →
       dirty_bounded m')
  ∧ (∀ m,
       dirty_bounded m → seq_has_room m →
       dirty_bounded (GenerateIncrementalTabletReport m).2
       ∧ dirty_bounded (GenerateFullTabletReport m).2)
  ∧ (∀ tablet_peer m,
       dirty_bounded m →
       ∃ m',
         MarkTabletDirty tablet_peer m = Returned m'
         ∧ dirty_tablets_ m' !! TabletPeer_tablet_id (peer_at m tablet_peer)
           = Some (mkReportState (next_report_seq_ m))
         ∧ (∀ id, id ≠ TabletPeer_tablet_id (peer_at m tablet_peer) →
                  dirty_tablets_ m' !! id = dirty_tablets_ m !! id)
         ∧ tablet_map_ m' = tablet_map_ m
         ∧ next_report_seq_ m' = next_report_seq_ m)
  ∧ (∀ tablet_peer m st,
       dirty_tablets_ m !! TabletPeer_tablet_id (peer_at m tablet_peer)
         = Some st →
       next_report_seq_ m < change_seq st →
       MarkTabletDirty tablet_peer m = Aborted).
Proof.
  split_and!.
  - intros uuid peers next id st. unfold construct; simpl.
    by rewrite lookup_empty.
  - intros c m m' Hb Hc.
    destruct (run_call_marks (next_report_seq_ m - 1) c m m' Hc)
      as (Hseq & Hkeep & Hfrom); [lia|].
    intros id st Hid. rewrite Hseq.
    destruct (Hfrom id st Hid) as [Hin|Hid0].
    + rewrite (Hkeep id (or_introl Hin)) in Hid. inversion Hid; subst st.
      simpl. lia.
    + specialize (Hb id st Hid0). lia.
  - intros m Hb [Hlo Hhi]. split.
    + intros id st Hid. simpl in *. specialize (Hb id st Hid).
      rewrite int32_incr_below_max; [lia| |done].
      unfold Fixed.in_int32. unfold Fixed.INT32_MAX in *. lia.
    + intros id st Hid. simpl in Hid. by rewrite lookup_empty in Hid.
  - intros tablet_peer m Hb. unfold MarkTabletDirty, MarkDirtyUnlocked.
    destruct (dirty_tablets_ m !! TabletPeer_tablet_id (peer_at m tablet_peer))
      as [st|] eqn:Hst.
    + rewrite bool_decide_eq_true_2 by (specialize (Hb _ _ Hst); lia).
      simpl. eexists. split; [reflexivity|]. simpl.
      rewrite lookup_insert_eq. split_and!; try done.
      intros id Hne. by rewrite lookup_insert_ne.
    + eexists. split; [reflexivity|]. simpl.
      rewrite lookup_insert_eq. split_and!; try done.
      intros id Hne. by rewrite lookup_insert_ne.
  - intros tablet_peer m st Hst Hlt. unfold MarkTabletDirty, MarkDirtyUnlocked.
    rewrite Hst. rewrite bool_decide_eq_false_2 by lia. done.
Qed.

(** X18. The acknowledgement of a report leaves dirty exactly the tablets
    marked after the report was generated.  Take a manager whose dirty
    entries are bounded and whose counter has room, generate a report,
    incremental or full, run any calls of [CreateNewTablet], [DeleteTablet],
    [RegisterTablet], [MarkTabletDirty] and [MarkTabletReportAcknowledged]
    that return, and acknowledge the report: the acknowledgement returns,
    the dirty map then holds the tablets that those calls marked dirty and
    no other, each at the current sequence number, and the tablet map is
    untouched. *)
Theorem acknowledged_report_leaves_later_marks (cs : list Call)
    (m m1 m2 : t) (r : TabletReportPB) :
  dirty_bounded m →
  seq_has_room m →
  GenerateIncrementalTabletReport m = (r, m1)
  ∨ GenerateFullTabletReport m = (r, m1) →
  run_calls TabletPeer_Shutdown TabletPeer_new cs m1 = Returned m2 →
  ∃ m3,
    MarkTabletReportAcknowledged r m2 = Returned m3
    ∧ dom (dirty_tablets_ m3)
      = marked_dirty TabletPeer_Shutdown TabletPeer_new cs m1
    ∧ (∀ id st, dirty_tablets_ m3 !! id = Some st →
                change_seq st = next_report_seq_ m3)
    ∧ next_report_seq_ m3 = next_report_seq_ m + 1
    ∧ tablet_map_ m3 = tablet_map_ m2.
Proof.
  intros Hb [Hlo Hhi] Hgen Hrun.
  assert (Hincr : Fixed.int32_incr (next_report_seq_ m) = next_report_seq_ m + 1).
  { apply int32_incr_below_max; [|done].
    unfold Fixed.in_int32. unfold Fixed.INT32_MAX in *. lia. }
  assert (Hr : sequence_number r = next_report_seq_ m
               ∧ next_report_seq_ m1 = next_report_seq_ m + 1
               ∧ ∀ id st, dirty_tablets_ m1 !! id = Some st →
                          change_seq st <= next_report_seq_ m).
  { destruct Hgen as [Hgen|Hgen].
    - unfold GenerateIncrementalTabletReport in Hgen.
      rewrite foldl_report_dirty_entry in Hgen.
      inversion Hgen; subst r m1. simpl. rewrite Hincr.
      split_and!; [done|done|exact Hb].
    - unfold GenerateFullTabletReport in Hgen.
      rewrite foldl_report_entry in Hgen.
      inversion Hgen; subst r m1. simpl. rewrite Hincr. by split_and!. }
  destruct Hr as (Hr & Hseq1 & Hold).
  destruct (run_calls_marks (next_report_seq_ m) cs m1 m2 Hrun Hseq1)
    as (Hseq2 & Hkeep & Hfrom).
  unfold MarkTabletReportAcknowledged.
  rewrite bool_decide_eq_true_2 by lia. simpl.
  eexists. split; [reflexivity|]. simpl. split_and!; try done.
  - apply set_eq. intros id. rewrite elem_of_dom. split.
    + intros [st [Hid Hlt]%ack_loop_lookup].
      destruct (Hfrom id st Hid) as [Hin|Hid1]; [done|].
      specialize (Hold id st Hid1). lia.
    + intros Hin. exists (mkReportState (next_report_seq_ m + 1)).
      apply ack_loop_lookup. split; [apply Hkeep; by left|]. simpl. lia.
  - intros id st [Hid Hlt]%ack_loop_lookup.
    destruct (Hfrom id st Hid) as [Hin|Hid1].
    + rewrite (Hkeep id (or_introl Hin)) in Hid. inversion Hid; subst st.
      simpl. lia.
    + specialize (Hold id st Hid1). lia.
Qed.

End ReportProtocol.

Lemma acknowledged_report_leaves_later_marks_witness :
  ∃ r m1 m2 m3,
    TSTabletManager.GenerateIncrementalTabletReport Examples.manager_dirty
      = (r, m1)
    ∧ TSTabletManager.run_calls Examples.Shutdown_peer Examples.new_peer
        [TSTabletManager.CallMarkTabletDirty 0] m1 = Returned m2
    ∧ TSTabletManager.MarkTabletReportAcknowledged r m2 = Returned m3
    ∧ dom (TSTabletManager.dirty_tablets_ m3)
      = TSTabletManager.marked_dirty Examples.Shutdown_peer Examples.new_peer
          [TSTabletManager.CallMarkTabletDirty 0] m1.
Proof.
  destruct (TSTabletManager.GenerateIncrementalTabletReport
              Examples.manager_dirty) as [r m1] eqn:Hgen.
  destruct (TSTabletManager.run_calls Examples.Shutdown_peer Examples.new_peer
              [TSTabletManager.CallMarkTabletDirty 0] m1) as [m2|] eqn:Hrun.
  2: { exfalso. vm_compute in Hgen. inversion Hgen; subst r m1.
       by vm_compute in Hrun. }
  assert (Hb : TSTabletManager.dirty_bounded Examples.manager_dirty).
  { apply map_Forall_insert_2; [simpl; lia|].
    apply map_Forall_insert_2; [simpl; lia|]. apply map_Forall_empty. }
  assert (Hroom : TSTabletManager.seq_has_room Examples.manager_dirty)
    by (by vm_compute).
  destruct (acknowledged_report_leaves_later_marks Examples.Shutdown_peer
              Examples.new_peer [TSTabletManager.CallMarkTabletDirty 0]
              Examples.manager_dirty m1 m2 r Hb Hroom (or_introl Hgen) Hrun)
    as (m3 & Hack & Hdom & _).
  exists r, m1, m2, m3. split; [reflexivity|]. split; [exact Hrun|].
  split; [exact Hack|]. exact Hdom.
Defined.

(** ** What the reports name *)

Section ReportContents.
Import TSTabletManager.

Variable TabletPeer_Shutdown : TabletPeer → TabletStatePB * TabletPeer.

Lemma updated_or_removed (m : t) (e : string * TabletReportState) :
  (∃ h, tablet_map_ m !! e.1 = Some h
        ∧ updated_of m e = Some (CreateReportedTabletPB e.1 (peer_at m h))
        ∧ removed_of m e = None)
  ∨ (tablet_map_ m !! e.1 = None
     ∧ updated_of m e = None ∧ removed_of m e = Some e.1).
Proof.
  unfold updated_of, removed_of.
  destruct (tablet_map_ m !! e.1) as [h|]; [left; by exists h|by right].
Qed.

Lemma incremental_ids_NoDup (m : t) (l : list (string * TabletReportState)) :
  NoDup l.*1 →
  NoDup ((rt_tablet_id <$> omap (updated_of m) l) ++ omap (removed_of m) l)
  ∧ ∀ id,
      id ∈ (rt_tablet_id <$> omap (updated_of m) l) ++ omap (removed_of m) l →
      id ∈ l.*1.
Proof.
  induction l as [|e l IH]; intros Hnd.
  - split; [constructor|]. intros id Hin. inversion Hin.
  - rewrite fmap_cons in Hnd. apply NoDup_cons in Hnd as [Hnotin Hnd].
    destruct (IH Hnd) as [IHnd IHin]. rewrite fmap_cons.
    cbn [omap list_omap].
    destruct (updated_or_removed m e) as [(h & _ & -> & ->)|(_ & -> & ->)].
    + cbn [fmap list_fmap app CreateReportedTabletPB rt_tablet_id]. split.
      * apply NoDup_cons. split; [|exact IHnd].
        intros Hin. apply Hnotin. by apply IHin.
      * intros id [->|Hin]%elem_of_cons; [apply list_elem_of_here|].
        apply list_elem_of_further. by apply IHin.
    + split.
      * rewrite <- Permutation_middle. apply NoDup_cons. split; [|exact IHnd].
        intros Hin. apply Hnotin. by apply IHin.
      * intros id. rewrite <- Permutation_middle.
        intros [->|Hin]%elem_of_cons; [apply list_elem_of_here|].
        apply list_elem_of_further. by apply IHin.
Qed.

Lemma incremental_removed_iff (m : t) (id : string) :
  id ∈ removed_tablet_ids (GenerateIncrementalTabletReport m).1
  ↔ is_Some (dirty_tablets_ m !! id) ∧ tablet_map_ m !! id = None.
Proof.
  rewrite incremental_report. simpl. rewrite list_elem_of_omap. split.
  - intros [[id' st] [Hin Hx]]. apply elem_of_map_to_list in Hin.
    destruct (updated_or_removed m (id', st))
      as [(h & _ & _ & Hr)|(Hnone & _ & Hr)]; rewrite Hr in Hx; [done|].
    inversion Hx; subst id. simpl in *. by rewrite Hin.
  - intros [[st Hd] Hh]. exists (id, st).
    split; [by apply elem_of_map_to_list|].
    unfold removed_of; simpl. by rewrite Hh.
Qed.

Lemma incremental_updated_iff (m : t) (id : string) :
  id ∈ rt_tablet_id <$> updated_tablets (GenerateIncrementalTabletReport m).1
  ↔ is_Some (dirty_tablets_ m !! id) ∧ is_Some (tablet_map_ m !! id).
Proof.
  rewrite incremental_report. simpl. rewrite list_elem_of_fmap. split.
  - intros (x & -> & Hx).
    apply list_elem_of_omap in Hx as ([id' st] & Hin & Hx).
    apply elem_of_map_to_list in Hin.
    destruct (updated_or_removed m (id', st))
      as [(h & Hh & Hu & _)|(_ & Hu & _)]; rewrite Hu in Hx; [|done].
    inversion Hx; subst x. simpl in *. by rewrite Hin, Hh.
  - intros [[st Hd] [h Hh]].
    exists (CreateReportedTabletPB id (peer_at m h)). split; [done|].
    apply list_elem_of_omap. exists (id, st).
    split; [by apply elem_of_map_to_list|].
    unfold updated_of; simpl. by rewrite Hh.
Qed.

Lemma full_reported_ids (m : t) :
  reported_ids (GenerateFullTabletReport m).1 = (map_to_list (tablet_map_ m)).*1
  ∧ removed_tablet_ids (GenerateFullTabletReport m).1 = [].
Proof.
  unfold GenerateFullTabletReport, reported_ids. simpl.
  rewrite foldl_report_entry. simpl. rewrite app_nil_r. split; [|done].
  rewrite <- list_fmap_compose. by apply list_fmap_ext.
Qed.

(** X19. No report names a tablet twice.  The identifiers of an incremental
    report, updated and removed together, are without repetition and are
    the keys of the dirty map, each listed as updated when it is in the
    tablet map and as removed when it is not; those of a full report are
    without repetition and are the keys of the tablet map, and a full
    report lists no removed tablet. *)
Theorem reports_name_each_tablet_once (m : t) :
  NoDup (reported_ids (GenerateIncrementalTabletReport m).1)
  ∧ (∀ id, id ∈ reported_ids (GenerateIncrementalTabletReport m).1
           ↔ id ∈ dom (dirty_tablets_ m))
  ∧ (∀ id, id ∈ rt_tablet_id
                  <$> updated_tablets (GenerateIncrementalTabletReport m).1
           ↔ id ∈ dom (dirty_tablets_ m) ∧ id ∈ dom (tablet_map_ m))
  ∧ (∀ id, id ∈ removed_tablet_ids (GenerateIncrementalTabletReport m).1
           ↔ id ∈ dom (dirty_tablets_ m) ∧ id ∉ dom (tablet_map_ m))
  ∧ NoDup (reported_ids (GenerateFullTabletReport m).1)
  ∧ (∀ id, id ∈ reported_ids (GenerateFullTabletReport m).1
           ↔ id ∈ dom (tablet_map_ m))
  ∧ removed_tablet_ids (GenerateFullTabletReport m).1 = [].
Proof.
  assert (Hupd : ∀ id,
             id ∈ rt_tablet_id
                    <$> updated_tablets (GenerateIncrementalTabletReport m).1
             ↔ id ∈ dom (dirty_tablets_ m) ∧ id ∈ dom (tablet_map_ m)).
  { intros id. by rewrite incremental_updated_iff, !elem_of_dom. }
  assert (Hrem : ∀ id,
             id ∈ removed_tablet_ids (GenerateIncrementalTabletReport m).1
             ↔ id ∈ dom (dirty_tablets_ m) ∧ id ∉ dom (tablet_map_ m)).
  { intros id.
    by rewrite incremental_removed_iff, elem_of_dom, not_elem_of_dom. }
  destruct (full_reported_ids m) as [Hfull Hnone].
  split_and!; try done.
  - unfold reported_ids. rewrite incremental_report. simpl.
    apply incremental_ids_NoDup, NoDup_fst_map_to_list.
  - intros id. unfold reported_ids. rewrite elem_of_app, Hupd, Hrem.
    destruct (decide (id ∈ dom (tablet_map_ m))); tauto.
  - rewrite Hfull. apply NoDup_fst_map_to_list.
  - intros id. rewrite Hfull, elem_of_dom, list_elem_of_fmap. split.
    + intros ([id' h] & -> & Hin). apply elem_of_map_to_list in Hin.
      by exists h.
    + intros [h Hh]. exists (id, h). split; [done|].
      by apply elem_of_map_to_list.
Qed.

(** X20. [DeleteTablet] does not mark the tablet dirty.  After a
    [DeleteTablet] that returns OK the tablet of the peer is unknown to
    [GetTabletPeer], no report lists it as updated, and the dirty map is as
    it was: the next incremental report lists the tablet as removed exactly
    when it was dirty before the deletion, and otherwise does not name it.
    The identifier can be registered again. *)
Theorem DeleteTablet_then_reports (tablet_peer : N) (m m' : t) :
  DeleteTablet TabletPeer_Shutdown tablet_peer m = Returned (Status_OK, m') →
  ∃ tablet,
    peer_tablet (peer_at m' tablet_peer) = Some tablet
    ∧ (∃ s, GetTabletPeer (Tablet_tablet_id tablet) m' = (s, None)
            ∧ code s = kNotFound)
    ∧ dirty_tablets_ m' = dirty_tablets_ m
    ∧ (Tablet_tablet_id tablet
         ∈ removed_tablet_ids (GenerateIncrementalTabletReport m').1
       ↔ is_Some (dirty_tablets_ m !! Tablet_tablet_id tablet))
    ∧ (Tablet_tablet_id tablet
         ∈ reported_ids (GenerateIncrementalTabletReport m').1
       ↔ is_Some (dirty_tablets_ m !! Tablet_tablet_id tablet))
    ∧ (Tablet_tablet_id tablet
         ∉ rt_tablet_id
             <$> updated_tablets (GenerateIncrementalTabletReport m').1)
    ∧ (Tablet_tablet_id tablet
         ∉ reported_ids (GenerateFullTabletReport m').1)
    ∧ ∀ new_peer,
        ∃ m'', RegisterTablet (Tablet_tablet_id tablet) new_peer m'
               = Returned m''.
Proof.
  intros Hcall.
  apply DeleteTablet_inv in Hcall
    as [(_ & Hcode & _)|(_ & _ & _ & tablet & Htablet & _ & Hm')]; [done|].
  exists tablet.
  assert (Hgone : tablet_map_ m' !! Tablet_tablet_id tablet = None)
    by (subst m'; simpl; apply lookup_delete_eq).
  assert (Hdirty : dirty_tablets_ m' = dirty_tablets_ m) by (by subst m').
  assert (Hpeer : peer_tablet (peer_at m' tablet_peer) = Some tablet)
    by (subst m'; simpl; by rewrite fn_lookup_insert).
  clear Hm'.
  assert (Hupdated :
            Tablet_tablet_id tablet
              ∉ rt_tablet_id
                  <$> updated_tablets (GenerateIncrementalTabletReport m').1).
  { rewrite incremental_updated_iff, Hgone. by intros [_ [? ?]]. }
  split_and!; try done.
  - unfold GetTabletPeer, LookupTabletUnlocked. rewrite Hgone. by eexists.
  - rewrite incremental_removed_iff, Hgone, Hdirty. tauto.
  - unfold reported_ids.
    rewrite elem_of_app, incremental_removed_iff, Hgone, Hdirty.
    split; [|tauto]. intros [Hin|[? _]]; [by apply Hupdated in Hin|done].
  - destruct (full_reported_ids m') as [-> _].
    rewrite list_elem_of_fmap. intros ([id h] & Hid & Hin).
    apply elem_of_map_to_list in Hin. simpl in Hid. subst id.
    by rewrite Hgone in Hin.
  - intros new_peer. unfold RegisterTablet. rewrite Hgone. by eexists.
Qed.

End ReportContents.

Lemma DeleteTablet_then_reports_witness :
  ∃ m',
    TSTabletManager.DeleteTablet Examples.Shutdown_peer 0 Examples.manager_dirty
      = Returned (Status_OK, m')
    ∧ "t1" ∈ TSTabletManager.removed_tablet_ids
               (TSTabletManager.GenerateIncrementalTabletReport m').1.
Proof.
  destruct (TSTabletManager.DeleteTablet Examples.Shutdown_peer 0
              Examples.manager_dirty) as [[s m']|] eqn:Hcall;
    [|by vm_compute in Hcall].
  assert (Hs : s = Status_OK).
  { vm_compute in Hcall. by inversion Hcall. }
  subst s. exists m'. split; [reflexivity|].
  destruct (DeleteTablet_then_reports Examples.Shutdown_peer 0
              Examples.manager_dirty m' Hcall)
    as (tablet & Htablet & _ & _ & Hremoved & _).
  assert (Hid : TSTabletManager.Tablet_tablet_id tablet = "t1").
  { vm_compute in Hcall. inversion Hcall; subst m'.
    vm_compute in Htablet. by inversion Htablet. }
  rewrite Hid in Hremoved. apply Hremoved. by eexists; vm_compute.
Defined.

(** ** Draining before destruction *)

Section DrainThenDestroy.
Import TransactionTracker.

Variable MonoDelta_ToString : Z → string.

Lemma GetPendingTransactions_nil (tr : t) :
  GetPendingTransactions tr = [] ↔ pending_txns_ tr = ∅.
Proof.
  unfold GetPendingTransactions. rewrite <- map_to_list_empty_iff. split.
  - apply fmap_nil_inv.
  - by intros ->.
Qed.

Lemma Destroy_cases (tr : t) :
  (GetPendingTransactions tr = []
   ∧ Destroy tr = Returned () ∧ GetNumPendingForTests tr = 0)
  ∨ (GetPendingTransactions tr ≠ [] ∧ Destroy tr = Aborted).
Proof.
  unfold Destroy, GetNumPendingForTests.
  destruct (decide (pending_txns_ tr = ∅)) as [Hempty|Hsome].
  - left. rewrite GetPendingTransactions_nil, Hempty, map_size_empty.
    by split_and!.
  - right. rewrite GetPendingTransactions_nil. split; [done|].
    rewrite bool_decide_eq_false_2; [done|]. by rewrite map_size_empty_iff.
Qed.

(** What the result of the loop says about the rounds it went through:
    it slept once per round that had transactions pending and time left,
    and stopped at the round after them. *)
Lemma WaitForAllToFinish_loop_result (timeout start_time : Z)
    (rounds : list Round) :
  ∀ (w nc nl : Z) (result : option Status) (events : list Event),
    WaitForAllToFinish_loop MonoDelta_ToString timeout start_time w nc nl
      rounds = (result, events) →
    (∀ i r, (i < length (sleeps events))%nat → rounds !! i = Some r →
            GetPendingTransactions (round_tracker r) ≠ []
            ∧ round_now r - start_time <= timeout)
    ∧ match result with
      | Some s =>
          ∃ r, rounds !! length (sleeps events) = Some r
               ∧ ((s = Status_OK
                   ∧ GetPendingTransactions (round_tracker r) = [])
                  ∨ (s = TimedOut_waiting MonoDelta_ToString
                           (length (GetPendingTransactions (round_tracker r)))
                           (round_now r - start_time)
                     ∧ GetPendingTransactions (round_tracker r) ≠ []
                     ∧ round_now r - start_time > timeout))
      | None => length (sleeps events) = length rounds
      end.
Proof.
  induction rounds as [|r rounds IH]; intros w nc nl result events H.
  - inversion H; subst. simpl. split; [|done]. intros i r Hi. lia.
  - simpl in H.
    destruct (decide (GetPendingTransactions (round_tracker r) = []))
      as [Hnone|Hsome].
    { rewrite bool_decide_eq_true_2 in H by done. inversion H; subst. simpl.
      split; [intros i r' Hi; lia|]. exists r. split; [done|]. by left. }
    rewrite bool_decide_eq_false_2 in H by done.
    destruct (decide (round_now r - start_time > timeout)) as [Hlate|Hearly].
    { rewrite bool_decide_eq_true_2 in H by done. inversion H; subst. simpl.
      split; [intros i r' Hi; lia|]. exists r. split; [done|]. by right. }
    rewrite bool_decide_eq_false_2 in H by done.
    destruct (WaitForAllToFinish_loop _ _ _ _ _ _ rounds)
      as [result' events'] eqn:Hrest.
    apply IH in Hrest as [Hbefore Hat].
    inversion H; subst result events. clear H.
    assert (Hlen : length
                     (sleeps
                        ((if bool_decide (round_now r > nl)
                          then [Complaint
                                  (length (GetPendingTransactions
                                             (round_tracker r)))
                                  (round_now r - start_time)
                                  (Nat.min
                                     (length (GetPendingTransactions
                                                (round_tracker r)))
                                     kMaxTxnsToPrint)]
                          else [])
                         ++ SleepFor
                              (MonoDelta_FromMicroseconds
                                 (Z.min
                                    (Fixed.int_div (Fixed.int_mul w 5) 4)
                                    1000000))
                            :: events'))
                   = S (length (sleeps events'))).
    { rewrite sleeps_app. by destruct (bool_decide (round_now r > nl)). }
    rewrite Hlen. split.
    + intros [|i] r' Hi Hr'; simpl in Hr'.
      * inversion Hr'; subst r'. split; [done|lia].
      * apply (Hbefore i); [lia|done].
    + destruct result' as [s|]; [exact Hat|]. simpl. by rewrite Hat.
Qed.

(** X21. What a result of [WaitForAllToFinish] says.  When the call
    returns, it slept once for each round before the last, and each of them
    found transactions pending, so that destroying the tracker then would
    have aborted, with the time waited within the timeout.  With OK the
    last round found no transaction pending: [GetNumPendingForTests] is [0]
    and the destructor's check passes.  Any other status is timed-out: the
    last round found transactions pending, so the destructor would abort,
    with the time waited above the timeout. *)
Theorem WaitForAllToFinish_then_Destroy (timeout start_time : Z)
    (rounds : list Round) (s : Status) (events : list Event) :
  WaitForAllToFinish MonoDelta_ToString timeout start_time rounds
    = (Some s, events) →
  ∃ r,
    rounds !! length (sleeps events) = Some r
    ∧ (∀ i r', (i < length (sleeps events))%nat → rounds !! i = Some r' →
               Destroy (round_tracker r') = Aborted
               ∧ round_now r' - start_time <= timeout)
    ∧ (Status_ok s = true →
       s = Status_OK
       ∧ Destroy (round_tracker r) = Returned ()
       ∧ GetNumPendingForTests (round_tracker r) = 0)
    ∧ (Status_ok s = false →
       code s = kTimedOut
       ∧ Destroy (round_tracker r) = Aborted
       ∧ round_now r - start_time > timeout).
Proof.
  unfold WaitForAllToFinish. intros H.
  apply WaitForAllToFinish_loop_result in H as [Hbefore (r & Hr & Hlast)].
  exists r. split; [done|]. split.
  - intros i r' Hi Hr'. destruct (Hbefore i r' Hi Hr') as [Hsome Htime].
    split; [|done].
    by destruct (Destroy_cases (round_tracker r')) as [[? _]|[_ ?]].
  - destruct (Destroy_cases (round_tracker r))
      as [(Hnone & Hdestroy & Hnum)|[Hsome Hdestroy]];
      destruct Hlast as [[-> Hnone']|(-> & Hsome' & Hlate)]; try done.
Qed.

End DrainThenDestroy.

Lemma WaitForAllToFinish_then_Destroy_witness :
  ∃ events,
    TransactionTracker.WaitForAllToFinish pretty 100000000 0
      [TransactionTracker.mkRound Examples.busy_tracker 50000000;
       TransactionTracker.mkRound TransactionTracker.new 60000000;
       TransactionTracker.mkRound Examples.busy_tracker 70000000]
      = (Some Status_OK, events)
    ∧ length (TransactionTracker.sleeps events) = 1%nat
    ∧ TransactionTracker.Destroy TransactionTracker.new = Returned ()
    ∧ TransactionTracker.Destroy Examples.busy_tracker = Aborted.
Proof.
  eexists.
  assert (Hcall :
            TransactionTracker.WaitForAllToFinish pretty 100000000 0
              [TransactionTracker.mkRound Examples.busy_tracker 50000000;
               TransactionTracker.mkRound TransactionTracker.new 60000000;
               TransactionTracker.mkRound Examples.busy_tracker 70000000]
            = (Some Status_OK,
               [TransactionTracker.SleepFor 312000])) by (by vm_compute).
  split; [exact Hcall|]. split; [reflexivity|].
  destruct (WaitForAllToFinish_then_Destroy pretty _ _ _ _ _ Hcall)
    as (r & Hr & Hbefore & Hok & _).
  inversion Hr; subst r. split.
  - apply (Hok eq_refl).
  - apply (Hbefore 0%nat (TransactionTracker.mkRound Examples.busy_tracker
                             50000000)); [simpl; lia|reflexivity].
Defined.
